(** * chartAI: the streaming wire protocol, its framer and its client

    A shallow embedding of
    - [src/server/src/app.service.ts] (the controller that frames the
      provider's token stream, and the service's reading of the request),
    - [src/my-app/src/utils/index.js] ([parseStreamData], [createMessage],
      [extractTextFromParts], [validateInput], [formatError], [storage]),
    - [src/my-app/src/hooks/useChat.js] ([sendMessage],
      [processStreamResponse], [updateAssistantMessage], [abortRequest],
      [clearMessages], [retryLastMessage], [useChatHistory]),
    - [src/my-app/src/components/InputArea/InputArea.tsx] ([handleChange],
      [handleSubmit]),
    - the message view ([extractMessageText], [TypewriterText]),
    followed by the properties of the protocol that hold of that code. *)

From Stdlib Require Import String Ascii List ZArith Bool Lia.
From Stdlib Require Import Numbers.DecimalString.
Import ListNotations.
Open Scope string_scope.
Set Warnings "-register-all".

(** ** JavaScript values

    The values that [JSON.parse] returns, and the handful of language
    operations the code applies to them.  A string holds the UTF-8 bytes
    of its text (its length and its cuts are counted in UTF-16 code units,
    see below); numbers are the integers of JSON, held exactly, where the
    language has doubles: no frame of the protocol carries a number, and
    no property below reads one out of a frame. *)
Module JS.

Inductive json : Type :=
| JNull
| JBool (b : bool)
| JNum (n : Z)
| JStr (s : string)
| JArr (items : list json)
| JObj (fields : list (string * json)).

(** A JavaScript value read from a parsed frame: [None] is [undefined]. *)
Definition value : Type := option json.

(** [x.k]: own property of an object; every other non-nullish value has
    none of the properties the code reads, so the access is [undefined]. *)
Fixpoint assoc (k : string) (fields : list (string * json)) : value :=
  match fields with
  | [] => None
  | (k', v) :: rest => if String.eqb k k' then Some v else assoc k rest
  end.

Definition get (x : json) (k : string) : value :=
  match x with
  | JObj fields => assoc k fields
  | _ => None
  end.

(** ToBoolean. *)
Definition truthy (x : json) : bool :=
  match x with
  | JNull => false
  | JBool b => b
  | JNum n => negb (Z.eqb n 0)
  | JStr s => negb (String.eqb s "")
  | JArr _ => true
  | JObj _ => true
  end.

Definition truthy_value (x : value) : bool :=
  match x with
  | None => false
  | Some v => truthy v
  end.

(** [a || b] on values. *)
Definition or_else (a b : value) : value :=
  if truthy_value a then a else b.

(** [x === "s"] for a string literal [s]. *)
Definition is_string (x : value) (s : string) : bool :=
  match x with
  | Some (JStr s') => String.eqb s' s
  | _ => false
  end.

(** [a === b] for two values that come from two different [JSON.parse]
    calls: primitives compare by value, arrays and objects by reference,
    and two parses never share a reference. *)
Definition strict_eq (a b : value) : bool :=
  match a, b with
  | None, None => true
  | Some JNull, Some JNull => true
  | Some (JBool x), Some (JBool y) => Bool.eqb x y
  | Some (JNum x), Some (JNum y) => Z.eqb x y
  | Some (JStr x), Some (JStr y) => String.eqb x y
  | _, _ => false
  end.

Definition number_toString (n : Z) : string :=
  NilZero.string_of_int (Z.to_int n).

Fixpoint join (sep : string) (l : list string) : string :=
  match l with
  | [] => ""
  | [x] => x
  | x :: rest => x ++ sep ++ join sep rest
  end.

(** [l.join('')] on strings. *)
Fixpoint concat_strings (l : list string) : string :=
  match l with
  | [] => ""
  | x :: rest => x ++ concat_strings rest
  end.

(** ToString, as applied by [+=] on a string and by [Array.prototype.join]. *)
Fixpoint toString (x : json) : string :=
  match x with
  | JNull => "null"
  | JBool true => "true"
  | JBool false => "false"
  | JNum n => number_toString n
  | JStr s => s
  | JArr items =>
      join "," (map (fun i => match i with JNull => "" | _ => toString i end) items)
  | JObj _ => "[object Object]"
  end.

(** *** Strings

    A string holds the text as its UTF-8 bytes.  JavaScript counts and
    cuts a string by UTF-16 code units: a code point below U+10000 (one
    to three bytes) is one unit, a code point from U+10000 on (four
    bytes) is two, a surrogate pair.  Half of a pair, which a cut can
    leave behind, is held as the three bytes of the surrogate's own
    code point. *)
Definition byte (c : ascii) : N := N_of_ascii c.

Definition is_continuation (c : ascii) : bool :=
  N.leb 128 (byte c) && N.ltb (byte c) 192.

Definition units (c : ascii) : nat :=
  if is_continuation c then 0 else if N.leb 240 (byte c) then 2 else 1.

(** [s.length] *)
Fixpoint utf16_length (s : string) : nat :=
  match s with
  | EmptyString => 0
  | String c rest => units c + utf16_length rest
  end.

(** The high surrogate of the code point whose encoding begins with the
    bytes [b1 b2 b3]: U+D800 + ((code point - 0x10000) >> 10). *)
Definition high_surrogate (b1 b2 b3 : N) : string :=
  let h := ((b1 mod 8) * 256 + (b2 mod 64) * 4 + (b3 mod 64) / 16 - 64)%N in
  String (ascii_of_N 237)
    (String (ascii_of_N (160 + (h / 64) mod 16))
       (String (ascii_of_N (128 + h mod 64)) "")).

Definition byte_at (n : nat) (s : string) : N :=
  match String.get n s with
  | Some c => byte c
  | None => 0%N
  end.

(** [s.slice(0, n)] and [s.substring(0, n)], the first [n] code units. *)
Fixpoint slice0 (n : nat) (s : string) : string :=
  match s with
  | EmptyString => EmptyString
  | String c rest =>
      if is_continuation c then String c (slice0 n rest)
      else
        match n with
        | O => EmptyString
        | S n' =>
            if N.leb 240 (byte c) then
              match n' with
              | O => high_surrogate (byte c) (byte_at 0 rest) (byte_at 1 rest)
              | S n'' => String c (slice0 n'' rest)
              end
            else String c (slice0 n' rest)
        end
  end.

Definition utf8 (bytes : list nat) : string :=
  fold_right (fun b s => String (ascii_of_nat b) s) EmptyString bytes.

(** What [String.prototype.trim] removes: the code points of WhiteSpace
    and LineTerminator.  U+0009 to U+000D, U+0020, U+00A0, U+1680,
    U+2000 to U+200A, U+2028, U+2029, U+202F, U+205F, U+3000, U+FEFF. *)
Definition white_space : list string :=
  map utf8
    [[9]; [10]; [11]; [12]; [13]; [32];
     [194; 160];
     [225; 154; 128];
     [226; 128; 128]; [226; 128; 129]; [226; 128; 130]; [226; 128; 131];
     [226; 128; 132]; [226; 128; 133]; [226; 128; 134]; [226; 128; 135];
     [226; 128; 136]; [226; 128; 137]; [226; 128; 138];
     [226; 128; 168]; [226; 128; 169];
     [226; 128; 175];
     [226; 129; 159];
     [227; 128; 128];
     [239; 187; 191]].

(** What is left of [s] after the prefix [p]. *)
Fixpoint drop_prefix (p s : string) : option string :=
  match p, s with
  | EmptyString, _ => Some s
  | String a p', String b s' => if Ascii.eqb a b then drop_prefix p' s' else None
  | String _ _, EmptyString => None
  end.

(** What is left of [s] after one of the words [ws] at its start. *)
Fixpoint strip_any (ws : list string) (s : string) : option string :=
  match ws with
  | [] => None
  | w :: rest =>
      match drop_prefix w s with
      | Some r => Some r
      | None => strip_any rest s
      end
  end.

Fixpoint strip_all (ws : list string) (fuel : nat) (s : string) : string :=
  match fuel with
  | O => s
  | S fuel' =>
      match strip_any ws s with
      | Some r => strip_all ws fuel' r
      | None => s
      end
  end.

Fixpoint rev_string (acc s : string) : string :=
  match s with
  | EmptyString => acc
  | String c rest => rev_string (String c acc) rest
  end.

(** White space removed at the start, and at the end (the bytes of each
    code point read backwards). *)
Definition trim_start (s : string) : string :=
  strip_all white_space (String.length s) s.

Definition trim_end (s : string) : string :=
  rev_string ""
    (strip_all (map (rev_string "") white_space) (String.length s) (rev_string "" s)).

(** [s.trim()] *)
Definition trim (s : string) : string := trim_end (trim_start s).

(** [s.startsWith(p)] and [s.substring(n)]. *)
Definition startsWith (s p : string) : bool := String.prefix p s.

Fixpoint substring_from (n : nat) (s : string) : string :=
  match n, s with
  | O, _ => s
  | S n', String _ rest => substring_from n' rest
  | S _, EmptyString => EmptyString
  end.

Definition newline : ascii := ascii_of_nat 10.

(** The double quote, and a text between double quotes. *)
Definition dquote : ascii := ascii_of_nat 34.

Definition quoted (s : string) : string :=
  String dquote (s ++ String dquote "").

(** [s.split('\n')]: never empty; the last segment is what follows the
    last newline. *)
Fixpoint split_newline (s : string) : list string :=
  match s with
  | EmptyString => [EmptyString]
  | String c rest =>
      if Ascii.eqb c newline then EmptyString :: split_newline rest
      else match split_newline rest with
           | [] => [String c EmptyString]
           | seg :: segs => String c seg :: segs
           end
  end.

(** An [Error] object, as far as the code inspects it. *)
Record Error : Type := mkError { name : string; message : string }.

End JS.

(** ** The built-in [JSON] object

    [JSON.parse] on the integer fragment of the JSON grammar (a literal with
    a fraction or an exponent, and a [\u] escape above U+007F, are outside
    it and are refused), and [JSON.stringify] on the values of that
    fragment.  The properties below that speak of every line are stated for
    an arbitrary parser; this one serves the concrete runs. *)
Module JSON.
Import JS.

Local Open Scope char_scope.

Definition is_json_ws (c : ascii) : bool :=
  match nat_of_ascii c with
  | 9 | 10 | 13 | 32 => true
  | _ => false
  end.

Fixpoint skip_ws (l : list ascii) : list ascii :=
  match l with
  | c :: rest => if is_json_ws c then skip_ws rest else l
  | [] => []
  end.

Definition digit_value (c : ascii) : option Z :=
  let n := nat_of_ascii c in
  if andb (Nat.leb 48 n) (Nat.leb n 57) then Some (Z.of_nat (n - 48)) else None.

Definition hex_value (c : ascii) : option nat :=
  let n := nat_of_ascii c in
  if andb (Nat.leb 48 n) (Nat.leb n 57) then Some (n - 48)
  else if andb (Nat.leb 65 n) (Nat.leb n 70) then Some (n - 55)
  else if andb (Nat.leb 97 n) (Nat.leb n 102) then Some (n - 87)
  else None.

(** Digits after the first one of a number. *)
Fixpoint parse_digits (acc : Z) (l : list ascii) : Z * list ascii :=
  match l with
  | c :: rest =>
      match digit_value c with
      | Some d => parse_digits (10 * acc + d) rest
      | None => (acc, l)
      end
  | [] => (acc, [])
  end.

Definition parse_nat_literal (l : list ascii) : option (Z * list ascii) :=
  match l with
  | c :: rest =>
      match digit_value c with
      | Some 0%Z =>
          match rest with
          | d :: _ => match digit_value d with Some _ => None | None => Some (0%Z, rest) end
          | [] => Some (0%Z, rest)
          end
      | Some d => Some (parse_digits d rest)
      | None => None
      end
  | [] => None
  end.

Definition no_fraction (l : list ascii) : bool :=
  match l with
  | "." :: _ | "e" :: _ | "E" :: _ => false
  | _ => true
  end.

Definition parse_number (l : list ascii) : option (Z * list ascii) :=
  let signed :=
    match l with
    | "-" :: rest =>
        match parse_nat_literal rest with
        | Some (n, r) => Some (Z.opp n, r)
        | None => None
        end
    | _ => parse_nat_literal l
    end in
  match signed with
  | Some (n, r) => if no_fraction r then Some (n, r) else None
  | None => None
  end.

(** The character an escape stands for. *)
Definition unescape (e : ascii) : option ascii :=
  if Ascii.eqb e dquote then Some dquote
  else match e with
       | "\" => Some "\"
       | "/" => Some "/"
       | "b" => Some (ascii_of_nat 8)
       | "f" => Some (ascii_of_nat 12)
       | "n" => Some (ascii_of_nat 10)
       | "r" => Some (ascii_of_nat 13)
       | "t" => Some (ascii_of_nat 9)
       | _ => None
       end.

(** The characters of a string literal, after its opening quote. *)
Fixpoint parse_string (l : list ascii) : option (string * list ascii) :=
  match l with
  | [] => None
  | c :: rest =>
      if Ascii.eqb c dquote then Some (EmptyString, rest)
      else if Ascii.eqb c "\" then
        match rest with
        | "u" :: a :: b :: c' :: d :: rest' =>
            match hex_value a, hex_value b, hex_value c', hex_value d with
            | Some 0, Some 0, Some h, Some k =>
                if Nat.ltb h 8 then
                  match parse_string rest' with
                  | Some (s, r) => Some (String (ascii_of_nat (16 * h + k)) s, r)
                  | None => None
                  end
                else None
            | _, _, _, _ => None
            end
        | e :: rest' =>
            match unescape e, parse_string rest' with
            | Some x, Some (s, r) => Some (String x s, r)
            | _, _ => None
            end
        | [] => None
        end
      else if Nat.ltb (nat_of_ascii c) 32 then None
      else match parse_string rest with
           | Some (s, r) => Some (String c s, r)
           | None => None
           end
  end.

(** A later member with the same key replaces the earlier one. *)
Fixpoint set_field (k : string) (v : json) (fields : list (string * json))
  : list (string * json) :=
  match fields with
  | [] => [(k, v)]
  | (k', v') :: rest =>
      if String.eqb k k' then (k, v) :: rest else (k', v') :: set_field k v rest
  end.

Fixpoint parse_value (fuel : nat) (l : list ascii) : option (json * list ascii) :=
  match fuel with
  | O => None
  | S fuel' =>
      match skip_ws l with
      | "n" :: "u" :: "l" :: "l" :: r => Some (JNull, r)
      | "t" :: "r" :: "u" :: "e" :: r => Some (JBool true, r)
      | "f" :: "a" :: "l" :: "s" :: "e" :: r => Some (JBool false, r)
      | "[" :: r =>
          match skip_ws r with
          | "]" :: r' => Some (JArr [], r')
          | _ => parse_elements fuel' [] r
          end
      | "{" :: r =>
          match skip_ws r with
          | "}" :: r' => Some (JObj [], r')
          | _ => parse_members fuel' [] r
          end
      | c :: r =>
          if Ascii.eqb c dquote then
            match parse_string r with
            | Some (s, r') => Some (JStr s, r')
            | None => None
            end
          else
            match parse_number (c :: r) with
            | Some (n, r') => Some (JNum n, r')
            | None => None
            end
      | [] => None
      end
  end
with parse_elements (fuel : nat) (acc : list json) (l : list ascii)
  : option (json * list ascii) :=
  match fuel with
  | O => None
  | S fuel' =>
      match parse_value fuel' l with
      | Some (v, r) =>
          match skip_ws r with
          | "," :: r' => parse_elements fuel' (acc ++ [v]) r'
          | "]" :: r' => Some (JArr (acc ++ [v]), r')
          | _ => None
          end
      | None => None
      end
  end
with parse_members (fuel : nat) (acc : list (string * json)) (l : list ascii)
  : option (json * list ascii) :=
  match fuel with
  | O => None
  | S fuel' =>
      match skip_ws l with
      | c :: r =>
          if Ascii.eqb c dquote then
            match parse_string r with
            | Some (k, r1) =>
                match skip_ws r1 with
                | ":" :: r2 =>
                    match parse_value fuel' r2 with
                    | Some (v, r3) =>
                        match skip_ws r3 with
                        | "," :: r4 => parse_members fuel' (set_field k v acc) r4
                        | "}" :: r4 => Some (JObj (set_field k v acc), r4)
                        | _ => None
                        end
                    | None => None
                    end
                | _ => None
                end
            | None => None
            end
          else None
      | [] => None
      end
  end.

(** [JSON.parse(text)]: [None] is the [SyntaxError]. *)
Definition parse (text : string) : option json :=
  let l := list_ascii_of_string text in
  match parse_value (2 * List.length l + 2) l with
  | Some (v, r) =>
      match skip_ws r with
      | [] => Some v
      | _ :: _ => None
      end
  | None => None
  end.

Definition hex_digit (n : nat) : ascii :=
  if Nat.ltb n 10 then ascii_of_nat (48 + n) else ascii_of_nat (87 + n).

(** The escape of one character inside a string literal. *)
Definition quote_char (c : ascii) : string :=
  let n := nat_of_ascii c in
  match n with
  | 34 => String "\" (String dquote "")
  | 92 => "\\"%string
  | 8 => "\b"%string
  | 9 => "\t"%string
  | 10 => "\n"%string
  | 12 => "\f"%string
  | 13 => "\r"%string
  | _ =>
      if Nat.ltb n 32
      then ("\u00" ++ String (hex_digit (n / 16)) (String (hex_digit (n mod 16)) ""))%string
      else String c ""
  end.

Fixpoint quote_chars (s : string) : string :=
  match s with
  | EmptyString => EmptyString
  | String c rest => (quote_char c ++ quote_chars rest)%string
  end.

Definition quote (s : string) : string := quoted (quote_chars s).

(** [JSON.stringify(value)], members in insertion order. *)
Fixpoint stringify (x : json) : string :=
  match x with
  | JNull => "null"%string
  | JBool true => "true"%string
  | JBool false => "false"%string
  | JNum n => number_toString n
  | JStr s => quote s
  | JArr items => ("[" ++ join "," (map stringify items) ++ "]")%string
  | JObj fields =>
      ("{" ++ join "," (map (fun kv => (quote (fst kv) ++ ":" ++ stringify (snd kv))%string)
                            fields) ++ "}")%string
  end.

End JSON.

(** ** The server: [AppController.getHello] of [app.service.ts] *)
Module Server.
Import JS.

(** A chunk of the provider's stream, as far as
    [chunk.choices[0]?.delta?.content] reads it; [None] is a missing or
    null property. *)
Record Delta : Type := { content : option string }.
Record Choice : Type := { delta : option Delta }.
Record Chunk : Type := { choices : list Choice }.

(** How the [for await] over the stream ends: the iterator is exhausted, or
    it throws ([String(error)] is carried). *)
Inductive StreamEnd : Type :=
| Exhausted
| Failed (error : string).

Record Stream : Type := { chunks : list Chunk; ending : StreamEnd }.

(** What [this.appService.getHello] resolves to, or the error it rejects
    with. *)
Inductive ServiceResult : Type :=
| ServiceStream (stream : Stream)
| ServiceError (error : string).

(** The Express response: status, headers set, chunks written in order,
    and whether [res.end()] was called. *)
Record Response : Type := {
  statusCode : Z;
  headers : list (string * string);
  written : list string;
  ended : bool
}.

Definition initial_response : Response :=
  {| statusCode := 200; headers := []; written := []; ended := false |}.

Definition setHeader (k v : string) (res : Response) : Response :=
  {| statusCode := statusCode res; headers := headers res ++ [(k, v)];
     written := written res; ended := ended res |}.

Definition write (data : string) (res : Response) : Response :=
  {| statusCode := statusCode res; headers := headers res;
     written := written res ++ [data]; ended := ended res |}.

Definition end_ (res : Response) : Response :=
  {| statusCode := statusCode res; headers := headers res;
     written := written res; ended := true |}.

Definition nl : string := String newline "".

(** [chunk.choices[0]?.delta?.content || ''] *)
Definition chunk_delta (chunk : Chunk) : string :=
  match choices chunk with
  | c :: _ =>
      match delta c with
      | Some d => match content d with Some text => text | None => "" end
      | None => ""
      end
  | [] => ""
  end.

(** The locals of the streaming block. *)
Record Framer : Type := {
  fullText : string;
  chunkCount : nat;
  res : Response
}.

Section Framing.

Variable JSON_stringify : json -> string.

Definition initialMessage (messageId : string) : json :=
  JObj [("type", JStr "message");
        ("message", JObj [("id", JStr messageId);
                          ("role", JStr "assistant");
                          ("parts", JArr [])])].

Definition finalMessage (messageId fullText : string) : json :=
  JObj [("type", JStr "message");
        ("message", JObj [("id", JStr messageId);
                          ("role", JStr "assistant");
                          ("parts", JArr [JObj [("type", JStr "text");
                                                ("text", JStr fullText)]])])].

Definition text_start (textPartId : string) : json :=
  JObj [("type", JStr "text-start"); ("id", JStr textPartId)].

Definition text_delta (textPartId delta : string) : json :=
  JObj [("type", JStr "text-delta"); ("id", JStr textPartId); ("delta", JStr delta)].

Definition text_end (textPartId : string) : json :=
  JObj [("type", JStr "text-end"); ("id", JStr textPartId)].

Definition error_data (error : string) : json :=
  JObj [("type", JStr "error"); ("error", JStr error)].

(** [`0:${JSON.stringify(x)}\n`] and [`e:${JSON.stringify(x)}\n`] *)
Definition frame (tag : string) (payload : json) : string :=
  tag ++ ":" ++ JSON_stringify payload ++ nl.

(** The two frames written as literals, [0:{"type":"start"}] and
    [d:{"type":"finish"}], each with its newline. *)
Definition start_frame : string :=
  "0:{" ++ quoted "type" ++ ":" ++ quoted "start" ++ "}" ++ nl.
Definition finish_frame : string :=
  "d:{" ++ quoted "type" ++ ":" ++ quoted "finish" ++ "}" ++ nl.

(** The body of the [for await] loop. *)
Definition on_chunk (textPartId : string) (st : Framer) (chunk : Chunk) : Framer :=
  let delta := chunk_delta chunk in
  if String.eqb delta "" then
    {| fullText := fullText st; chunkCount := S (chunkCount st); res := res st |}
  else
    {| fullText := fullText st ++ delta;
       chunkCount := S (chunkCount st);
       res := write (frame "0" (text_delta textPartId delta)) (res st) |}.

(** The inner [try]/[catch]/[finally] of the controller, from the start
    marker to [res.end()]. *)
Definition stream_frames (messageId : string) (stream : Stream) (res0 : Response)
  : Response :=
  let res1 := write start_frame res0 in
  let res2 := write (frame "0" (initialMessage messageId)) res1 in
  let textPartId := "text-" ++ messageId in
  let res3 := write (frame "0" (text_start textPartId)) res2 in
  let st := fold_left (on_chunk textPartId) (chunks stream)
                      {| fullText := ""; chunkCount := 0; res := res3 |} in
  match ending stream with
  | Exhausted =>
      let res4 := write (frame "0" (text_end textPartId)) (res st) in
      let res5 := write (frame "0" (finalMessage messageId (fullText st))) res4 in
      end_ (write finish_frame res5)
  | Failed error =>
      end_ (write (frame "e" (error_data error)) (res st))
  end.

Definition stream_headers (res : Response) : Response :=
  setHeader "x-vercel-ai-ui-message-stream" "v1"
    (setHeader "Access-Control-Allow-Headers" "Content-Type"
      (setHeader "Access-Control-Allow-Methods" "POST, OPTIONS"
        (setHeader "Access-Control-Allow-Origin" "*"
          (setHeader "X-Accel-Buffering" "no"
            (setHeader "Connection" "keep-alive"
              (setHeader "Cache-Control" "no-cache"
                (setHeader "Content-Type" "text/plain; charset=utf-8" res))))))).

(** [AppController.getHello]; [Date_now] is the clock value that names the
    message, [service] what the service call gives. *)
Definition getHello (Date_now : Z) (service : ServiceResult) : Response :=
  match service with
  | ServiceStream stream =>
      let messageId := "msg_" ++ number_toString Date_now in
      stream_frames messageId stream (stream_headers initial_response)
  | ServiceError error =>
      {| statusCode := 500;
         headers := [("Content-Type", "application/json; charset=utf-8")];
         written := [JSON_stringify (JObj [("error", JStr error)])];
         ended := true |}
  end.

(** The non-empty fragments of a stream, in emission order. *)
Definition fragments (stream : Stream) : list string :=
  filter (fun d => negb (String.eqb d "")) (map chunk_delta (chunks stream)).

End Framing.
End Server.

(** ** The client: [utils/index.js], [hooks/useChat.js], [InputArea.tsx] *)
Module Client.
Import JS.

(** [MessageRole] and [ChatStatus] of [types/chat.ts]. *)
Inductive Role : Type := USER | ASSISTANT | SYSTEM.
Inductive Status : Type := READY | LOADING | STREAMING | ERROR.

Definition Role_eqb (a b : Role) : bool :=
  match a, b with
  | USER, USER | ASSISTANT, ASSISTANT | SYSTEM, SYSTEM => true
  | _, _ => false
  end.

(** A part [{ type, text }]; [text] holds whatever value the stream gave. *)
Record Part : Type := { part_type : string; part_text : json }.

(** A message object.  [text] is the legacy property ([None]: absent),
    [error] the marker that [sendMessage] sets when it gives up. *)
Record Message : Type := {
  id : string;
  role : Role;
  timestamp : Z;
  parts : list Part;
  text : option json;
  error : option string
}.

(** The argument of [createMessage]; [None] is a property left out. *)
Record MessageOptions : Type := {
  opt_id : option string;
  opt_role : option Role;
  opt_content : option string;
  opt_parts : option (list Part);
  opt_timestamp : option Z
}.

Definition default {A : Type} (d : A) (x : option A) : A :=
  match x with
  | Some a => a
  | None => d
  end.

(** [createMessage(options)].  [Date_now] is what [Date.now()] returns for
    the default timestamp and [generated_id] what the id generator of the
    role returns ([generateUserMessageId] or [generateMessageId]).  The
    destructuring reads [role], [content], [parts] and [timestamp]; an [id]
    passed in the options is not read. *)
Definition createMessage (options : MessageOptions) (Date_now : Z)
  (generated_id : string) : Message :=
  let role := default USER (opt_role options) in
  let content := default "" (opt_content options) in
  let parts := default [] (opt_parts options) in
  let timestamp := default Date_now (opt_timestamp options) in
  {| id := generated_id;
     role := role;
     timestamp := timestamp;
     parts := if Nat.ltb 0 (List.length parts) then parts
              else [{| part_type := "text"; part_text := JStr content |}];
     text := if String.eqb content "" then None else Some (JStr content);
     error := None |}.

(** [validateInput(input)] *)
Inductive Validation : Type :=
| Valid
| Invalid (reason : string).

Definition validateInput (input : string) : Validation :=
  let trimmed := trim input in
  if String.eqb trimmed "" then Invalid "Input cannot be empty"
  else if Nat.ltb 4000 (utf16_length trimmed)
       then Invalid "Input too long (max 4000 characters)"
       else Valid.

(** [formatError(error)] on an [Error] object. *)
Definition formatError (err : Error) : string := message err.

(** What a statement evaluates to: a value, or an exception. *)
Inductive completion (A : Type) : Type :=
| Normal (a : A)
| Throw (e : Error).
Arguments Normal {A} a.
Arguments Throw {A} e.

(** [parts.filter(part => part.type === 'text')]: reading [.type] of a
    [null] element is a [TypeError]. *)
Fixpoint filter_text_parts (items : list json) : completion (list json) :=
  match items with
  | [] => Normal []
  | JNull :: _ => Throw (mkError "TypeError" "Cannot read properties of null")
  | part :: rest =>
      match filter_text_parts rest with
      | Normal kept =>
          Normal (if is_string (get part "type") "text" then part :: kept else kept)
      | Throw e => Throw e
      end
  end.

(** [part.text || part.content || part.delta || ''] *)
Definition part_text_of (part : json) : json :=
  default (JStr "")
    (or_else (get part "text")
       (or_else (get part "content")
          (or_else (get part "delta") (Some (JStr ""))))).

(** [extractTextFromParts(parts)] *)
Definition extractTextFromParts (parts : json) : completion string :=
  match parts with
  | JArr [] => Normal ""
  | JArr items =>
      match filter_text_parts items with
      | Normal textParts =>
          Normal (concat_strings
                    (map toString (filter truthy (map part_text_of textParts))))
      | Throw e => Throw e
      end
  | _ => Normal ""
  end.

(** The request body that [fetch] posts. *)
Record Request : Type := {
  req_id : string;
  req_messages : list Message;
  req_model : string;
  req_trigger : string
}.

(** What the hook does to the world outside its own state, in order. *)
Inductive Effect : Type :=
| SetStatus (s : Status)
| Fetch (body : Request)
| SetTimeout (messageContent : string) (delay : Z)
| OnError (reason : string)
| OnSuccess.

(** The state of [useChat]: the React state variables ([messages],
    [status], [error], [input]), the two refs, and the trace of effects.
    [abortControllerRef] is [None] for [null] and [Some aborted] for a
    controller. *)
Record Session : Type := {
  messages : list Message;
  status : Status;
  lastError : option string;
  input : string;
  retryCountRef : Z;
  abortControllerRef : option bool;
  trace : list Effect
}.

Definition initial_session : Session :=
  {| messages := []; status := READY; lastError := None; input := "";
     retryCountRef := 0; abortControllerRef := None; trace := [] |}.

Definition emit (e : Effect) (s : Session) : Session :=
  {| messages := messages s; status := status s; lastError := lastError s;
     input := input s; retryCountRef := retryCountRef s;
     abortControllerRef := abortControllerRef s; trace := trace s ++ [e] |}.

Definition setMessages (f : list Message -> list Message) (s : Session) : Session :=
  {| messages := f (messages s); status := status s; lastError := lastError s;
     input := input s; retryCountRef := retryCountRef s;
     abortControllerRef := abortControllerRef s; trace := trace s |}.

Definition setStatus (st : Status) (s : Session) : Session :=
  emit (SetStatus st)
    {| messages := messages s; status := st; lastError := lastError s;
       input := input s; retryCountRef := retryCountRef s;
       abortControllerRef := abortControllerRef s; trace := trace s |}.

Definition setError (e : option string) (s : Session) : Session :=
  {| messages := messages s; status := status s; lastError := e;
     input := input s; retryCountRef := retryCountRef s;
     abortControllerRef := abortControllerRef s; trace := trace s |}.

Definition setInput (v : string) (s : Session) : Session :=
  {| messages := messages s; status := status s; lastError := lastError s;
     input := v; retryCountRef := retryCountRef s;
     abortControllerRef := abortControllerRef s; trace := trace s |}.

Definition set_retryCount (n : Z) (s : Session) : Session :=
  {| messages := messages s; status := status s; lastError := lastError s;
     input := input s; retryCountRef := n;
     abortControllerRef := abortControllerRef s; trace := trace s |}.

Definition set_abortController (c : option bool) (s : Session) : Session :=
  {| messages := messages s; status := status s; lastError := lastError s;
     input := input s; retryCountRef := retryCountRef s;
     abortControllerRef := c; trace := trace s |}.

(** The last element of an array replaced by [f] of it. *)
Fixpoint update_last (f : Message -> Message) (l : list Message) : list Message :=
  match l with
  | [] => []
  | [m] => [f m]
  | m :: rest => m :: update_last f rest
  end.

(** [updateAssistantMessage(messageId, text)]: the last message, when its
    role is assistant, gets the single text part; [messageId] is not
    consulted. *)
Definition updateAssistantMessage (messageId : string) (new_text : json)
  (s : Session) : Session :=
  setMessages
    (update_last (fun lastMsg =>
       if Role_eqb (role lastMsg) ASSISTANT then
         {| id := id lastMsg; role := role lastMsg; timestamp := timestamp lastMsg;
            parts := [{| part_type := "text"; part_text := new_text |}];
            text := Some new_text;
            error := error lastMsg |}
       else lastMsg))
    s.

(** [abortRequest()] *)
Definition abortRequest (s : Session) : Session :=
  match abortControllerRef s with
  | Some _ => setStatus READY (set_abortController (Some true) s)
  | None => s
  end.

(** [clearMessages()] *)
Definition clearMessages (s : Session) : Session :=
  setStatus READY (setError None (setMessages (fun _ => []) s)).

(** The locals of [processStreamResponse]; [events] is a ghost record of
    the parsed data the loop went on to handle, in order. *)
Record Reader : Type := {
  buffer : string;
  currentText : string;
  textPartId : value;
  events : list json
}.

Definition initial_reader : Reader :=
  {| buffer := ""; currentText := ""; textPartId := Some JNull; events := [] |}.

Definition set_buffer (b : string) (r : Reader) : Reader :=
  {| buffer := b; currentText := currentText r; textPartId := textPartId r;
     events := events r |}.

Definition record_event (data : json) (r : Reader) : Reader :=
  {| buffer := buffer r; currentText := currentText r; textPartId := textPartId r;
     events := events r ++ [data] |}.

(** How the body of a response ends: the reader reports [done], a read
    rejects, or the user cancels ([abortRequest] runs and the pending read
    rejects with an [AbortError]). *)
Inductive ReadEnd : Type :=
| Done
| ReadRejected (e : Error)
| ReadCancelled.

(** What [fetch] does: rejects, is cancelled by the user before it
    resolves, or resolves to a response whose body arrives in chunks
    (the decoded text of each). *)
Inductive FetchOutcome : Type :=
| FetchRejected (e : Error)
| FetchCancelled
| Responded (ok : bool) (http_status : Z) (chunks : list string) (ending : ReadEnd).

Definition AbortError : Error := mkError "AbortError" "The user aborted a request.".

(** The identifiers and clock values one call of [sendMessage] draws. *)
Record Fresh : Type := {
  user_timestamp : Z;
  user_id : string;
  assistantMessageId : string;
  placeholder_timestamp : Z;
  placeholder_id : string
}.

Section Hook.

(** The built-in parser ([None]: it throws a [SyntaxError]), and the
    options and state the hook closes over. *)
Variable JSON_parse : string -> option json.
Variable maxRetries : Z.
Variable selectedModel : string.

(** [parseStreamData(line)]; the result [JNull] is [null]. *)
Definition parseStreamData (line : string) : json :=
  if String.eqb (trim line) "" then JNull
  else if startsWith line "0:" || startsWith line "d:" || startsWith line "e:"
  then
    let jsonStr := substring_from 2 line in
    match JSON_parse jsonStr with
    | Some data => data
    | None => JNull
    end
  else JNull.

(** [data.message.parts || []], then the chain
    [extractTextFromParts(...) || message.text || message.content || currentText]. *)
Definition final_text (message : json) (currentText : string) : completion json :=
  match extractTextFromParts (default (JArr []) (or_else (get message "parts") (Some (JArr [])))) with
  | Normal extracted =>
      Normal (default (JStr currentText)
                (or_else (Some (JStr extracted))
                   (or_else (get message "text")
                      (or_else (get message "content") (Some (JStr currentText))))))
  | Throw e => Throw e
  end.

(** The [try] block of the line loop, for one parsed [data]. *)
Definition handle_event (messageId : string) (data : json) (st : Reader * Session)
  : completion (Reader * Session) :=
  let (r, s) := st in
  let type := get data "type" in
  if is_string type "start" then
    Normal (r, setStatus STREAMING s)
  else if is_string type "text-start" then
    Normal ({| buffer := buffer r; currentText := ""; textPartId := get data "id";
               events := events r |}, s)
  else if is_string type "text-delta" then
    if strict_eq (get data "id") (textPartId r) && truthy_value (get data "delta") then
      let currentText' := currentText r ++ toString (default JNull (get data "delta")) in
      Normal ({| buffer := buffer r; currentText := currentText';
                 textPartId := textPartId r; events := events r |},
              updateAssistantMessage messageId (JStr currentText') s)
    else Normal (r, s)
  else if is_string type "message" && truthy_value (get data "message") then
    match final_text (default JNull (get data "message")) (currentText r) with
    | Normal finalText => Normal (r, updateAssistantMessage messageId finalText s)
    | Throw e => Throw e
    end
  else if is_string type "finish" then
    Normal (r, setStatus READY s)
  else if is_string type "error" then
    Throw (mkError "Error"
             (toString (default JNull
                          (or_else (get data "error") (Some (JStr "Unknown error"))))))
  else Normal (r, s).

(** One iteration of [for (const line of lines)]: the [catch] logs a
    warning and the loop goes on. *)
Definition on_line (messageId : string) (st : Reader * Session) (line : string)
  : Reader * Session :=
  let data := parseStreamData line in
  if negb (truthy data) then st
  else
    let st1 := (record_event data (fst st), snd st) in
    match handle_event messageId data st1 with
    | Normal st' => st'
    | Throw _ => st1
    end.

(** One iteration of [while (true)] for a chunk that was read. *)
Definition on_chunk (messageId : string) (st : Reader * Session) (chunk : string)
  : Reader * Session :=
  let lines := split_newline (buffer (fst st) ++ chunk) in
  let st1 := (set_buffer (last lines "") (fst st), snd st) in
  fold_left (on_line messageId) (removelast lines) st1.

(** The [try] block that handles the buffer left when the reader is done. *)
Definition handle_last_buffer (messageId : string) (data : json) (st : Reader * Session)
  : completion (Reader * Session) :=
  let (r, s) := st in
  let type := get data "type" in
  if is_string type "message" && truthy_value (get data "message") then
    match final_text (default JNull (get data "message")) (currentText r) with
    | Normal finalText => Normal (r, updateAssistantMessage messageId finalText s)
    | Throw e => Throw e
    end
  else if is_string type "finish" then
    Normal (r, setStatus READY s)
  else Normal (r, s).

Definition on_last_buffer (messageId : string) (st : Reader * Session) : Reader * Session :=
  if String.eqb (trim (buffer (fst st))) "" then st
  else
    let data := parseStreamData (buffer (fst st)) in
    if negb (truthy data) then st
    else
      let st1 := (record_event data (fst st), snd st) in
      match handle_last_buffer messageId data st1 with
      | Normal st' => st'
      | Throw _ => st1
      end.

(** The state after the chunks read so far. *)
Definition read_chunks (messageId : string) (chunks : list string) (s : Session)
  : Reader * Session :=
  fold_left (on_chunk messageId) chunks (initial_reader, s).

(** [processStreamResponse(response, messageId)]: the session it leaves and
    the exception it throws, if any. *)
Definition processStreamResponse (messageId : string) (chunks : list string)
  (ending : ReadEnd) (s : Session) : Session * option Error :=
  let st := read_chunks messageId chunks s in
  match ending with
  | Done => (setStatus READY (snd (on_last_buffer messageId st)), None)
  | ReadRejected e => (snd st, Some e)
  | ReadCancelled => (abortRequest (snd st), Some AbortError)
  end.

(** The [catch] block of [sendMessage]; the delay of the timer it sets, if
    it sets one, is returned beside the session. *)
Definition on_catch (assistantMessageId messageContent : string) (err : Error)
  (s : Session) : Session * option Z :=
  if String.eqb (name err) "AbortError" then
    (setStatus READY s, None)
  else if Z.ltb (retryCountRef s) maxRetries then
    let s1 := set_retryCount (retryCountRef s + 1) s in
    let s2 := setMessages
                (filter (fun msg => negb (String.eqb (id msg) assistantMessageId))) s1 in
    let delay := (1000 * retryCountRef s2)%Z in
    (emit (SetTimeout messageContent delay) s2, Some delay)
  else
    let formattedError := formatError err in
    let s1 := setError (Some formattedError) s in
    let s2 := setStatus READY s1 in
    let s3 := emit (OnError formattedError) s2 in
    (setMessages
       (update_last (fun lastMsg =>
          if String.eqb (id lastMsg) assistantMessageId then
            {| id := id lastMsg; role := role lastMsg; timestamp := timestamp lastMsg;
               parts := [{| part_type := "text";
                            part_text := JStr ("抱歉，出现了错误: " ++ formattedError) |}];
               text := text lastMsg;
               error := Some formattedError |}
          else lastMsg))
       s3,
     None).

(** The part of [sendMessage] that runs before [fetch] is awaited, for an
    input that passed validation: both messages appended, the controller
    created, the request sent. *)
Definition begin_request (closure_messages : list Message) (messageContent : string)
  (fresh : Fresh) (s : Session) : Session :=
  let userMessage :=
    createMessage {| opt_id := None; opt_role := Some USER;
                     opt_content := Some messageContent;
                     opt_parts := None; opt_timestamp := None |}
                  (user_timestamp fresh) (user_id fresh) in
  let s1 := setMessages (fun prev => (prev ++ [userMessage])%list) s in
  let s2 := setStatus STREAMING s1 in
  let s3 := setError None s2 in
  let s4 := setInput "" s3 in
  let assistantMessage :=
    createMessage {| opt_id := Some (assistantMessageId fresh);
                     opt_role := Some ASSISTANT;
                     opt_content := Some "";
                     opt_parts := None; opt_timestamp := None |}
                  (placeholder_timestamp fresh) (placeholder_id fresh) in
  let s5 := setMessages (fun prev => (prev ++ [assistantMessage])%list) s4 in
  let s6 := set_abortController (Some false) s5 in
  emit (Fetch {| req_id := assistantMessageId fresh;
                 req_messages := closure_messages ++ [userMessage];
                 req_model := selectedModel;
                 req_trigger := "submit-message" |}) s6.

(** The [try] block from the awaited [fetch] on. *)
Definition await_response (fresh : Fresh) (net : FetchOutcome) (s : Session)
  : Session * option Error :=
  match net with
  | FetchRejected e => (s, Some e)
  | FetchCancelled => (abortRequest s, Some AbortError)
  | Responded ok http_status chunks ending =>
      if negb ok then
        (s, Some (mkError "Error" ("HTTP error! status: " ++ number_toString http_status)))
      else
        match processStreamResponse (assistantMessageId fresh) chunks ending s with
        | (s1, None) => (emit OnSuccess (set_retryCount 0 s1), None)
        | (s1, Some e) => (s1, Some e)
        end
  end.

(** [sendMessage(messageContent)] for a string, run to its end against what
    the network does.  [closure_messages] is the [messages] array the
    callback closed over.  Beside the session, the delay of the retry
    timer when one was set. *)
Definition sendMessage (closure_messages : list Message) (messageContent : string)
  (fresh : Fresh) (net : FetchOutcome) (s : Session) : Session * option Z :=
  match validateInput messageContent with
  | Invalid reason => (emit (OnError reason) (setError (Some reason) s), None)
  | Valid =>
      let s1 := begin_request closure_messages messageContent fresh s in
      let (s2, timer) :=
        match await_response fresh net s1 with
        | (s2, None) => (s2, None)
        | (s2, Some err) => on_catch (assistantMessageId fresh) messageContent err s2
        end in
      (set_abortController None s2, timer)
  end.

(** The session while the response is still being read, after [chunks]. *)
Definition in_flight (closure_messages : list Message) (messageContent : string)
  (fresh : Fresh) (chunks : list string) (s : Session) : Session :=
  snd (read_chunks (assistantMessageId fresh) chunks
         (begin_request closure_messages messageContent fresh s)).

(** One submit followed by the retries its timers start: each attempt
    draws its own identifiers and meets its own network outcome; the timer
    callback calls the same [sendMessage] with the same argument. *)
Fixpoint submit (closure_messages : list Message) (messageContent : string)
  (attempts : list (Fresh * FetchOutcome)) (s : Session) : Session :=
  match attempts with
  | [] => s
  | (fresh, net) :: rest =>
      match sendMessage closure_messages messageContent fresh net s with
      | (s', Some _) => submit closure_messages messageContent rest s'
      | (s', None) => s'
      end
  end.

(** [handleSubmit] of [InputArea], with the props [ChatContainer] passes:
    [isLoading] is [status === 'streaming'], [disabled] is
    [isLoading || connectionStatus === 'error'], [onSubmit] is
    [sendMessage]. *)
Definition handleSubmit (connection_error : bool) (closure_messages : list Message)
  (value : string) (fresh : Fresh) (net : FetchOutcome) (s : Session)
  : Session * option Z :=
  let isLoading := match status s with STREAMING => true | _ => false end in
  let disabled := isLoading || connection_error in
  if negb (String.eqb (trim value) "") && negb disabled && negb isLoading
  then sendMessage closure_messages (trim value) fresh net s
  else (s, None).

(** [sendMessage(messageContent)] for any value.  A string is the text
    itself.  For any other value the text is [messageContent.text]:
    reading it off [undefined] or [null] throws before anything is done,
    and so does [trim] on a text that is truthy and not a string; a
    falsy text is validated as the empty string. *)
Definition sendMessage_value (closure_messages : list Message) (messageContent : value)
  (fresh : Fresh) (net : FetchOutcome) (s : Session) : Session * option Z :=
  match messageContent with
  | Some (JStr content) => sendMessage closure_messages content fresh net s
  | None | Some JNull => (s, None)
  | Some other =>
      match get other "text" with
      | Some (JStr content) => sendMessage closure_messages content fresh net s
      | text =>
          if truthy_value text then (s, None)
          else sendMessage closure_messages "" fresh net s
      end
  end.

(** [messages.filter(msg => msg.role === 'user').pop()] *)
Definition lastUserMessage (msgs : list Message) : option Message :=
  last (map Some (filter (fun msg => Role_eqb (role msg) USER) msgs)) None.

(** [retryLastMessage()]: [sendMessage] with
    [lastUserMessage.parts?.[0]?.text || lastUserMessage.text], whatever
    the status. *)
Definition retryLastMessage (closure_messages : list Message) (fresh : Fresh)
  (net : FetchOutcome) (s : Session) : Session * option Z :=
  match lastUserMessage closure_messages with
  | Some lastMsg =>
      sendMessage_value closure_messages
        (or_else match parts lastMsg with
                 | p :: _ => Some (part_text p)
                 | [] => None
                 end
                 (text lastMsg))
        fresh net s
  | None => (s, None)
  end.

(** The states the hook can be in: the initial one, and what the calls
    of its methods make of one that it can be in.  A submit is observed
    after any number of its attempts, and a request also while its
    response is being read. *)
Inductive reachable : Session -> Prop :=
| reach_initial : reachable initial_session
| reach_submit (closure_messages : list Message) (messageContent : string)
    (attempts : list (Fresh * FetchOutcome)) (s : Session) :
    reachable s -> reachable (submit closure_messages messageContent attempts s)
| reach_in_flight (closure_messages : list Message) (messageContent : string)
    (fresh : Fresh) (chunks : list string) (s : Session) :
    reachable s ->
    reachable (in_flight closure_messages messageContent fresh chunks s)
| reach_abortRequest (s : Session) : reachable s -> reachable (abortRequest s)
| reach_clearMessages (s : Session) : reachable s -> reachable (clearMessages s)
| reach_setInput (v : string) (s : Session) : reachable s -> reachable (setInput v s).

End Hook.

(** *** Vocabulary of the statements *)

(** A line holds no newline. *)
Fixpoint no_newline (line : string) : bool :=
  match line with
  | EmptyString => true
  | String c rest => negb (Ascii.eqb c newline) && no_newline rest
  end.

(** The text of a sequence of lines, each terminated by a newline. *)
Definition unlines (lines : list string) : string :=
  concat_strings (map (fun line => line ++ String newline "") lines).

(** A line carries one of the three tags. *)
Definition tagged (line : string) : bool :=
  startsWith line "0:" || startsWith line "d:" || startsWith line "e:".

(** [data.type === t] *)
Definition event_type_is (t : string) (data : json) : bool :=
  is_string (get data "type") t.

(** The exception an attempt ends with when the transport fails: [fetch]
    rejects, the response is not ok, or a read rejects. *)
Definition failure_of (net : FetchOutcome) : option Error :=
  match net with
  | FetchRejected e => Some e
  | FetchCancelled => None
  | Responded false http_status _ _ =>
      Some (mkError "Error" ("HTTP error! status: " ++ number_toString http_status))
  | Responded true _ _ (ReadRejected e) => Some e
  | Responded true _ _ _ => None
  end.

(** The attempt fails with an exception that is not an [AbortError]. *)
Definition fails (net : FetchOutcome) : bool :=
  match failure_of net with
  | Some e => negb (String.eqb (name e) "AbortError")
  | None => false
  end.

(** The user cancels the request while it is in flight: the chunks that
    had been read by then. *)
Definition cancelled_after (net : FetchOutcome) : option (list string) :=
  match net with
  | FetchCancelled => Some []
  | Responded true _ chunks ReadCancelled => Some chunks
  | _ => None
  end.

(** The effect is [setStatus('error')]. *)
Definition sets_error_status (e : Effect) : bool :=
  match e with
  | SetStatus ERROR => true
  | _ => false
  end.

Definition is_timer (e : Effect) : bool :=
  match e with
  | SetTimeout _ _ => true
  | _ => false
  end.

Definition is_fetch (e : Effect) : bool :=
  match e with
  | Fetch _ => true
  | _ => false
  end.

(** [setStatus('error')] is not among the effects so far. *)
Definition never_error_status (s : Session) : Prop :=
  existsb sets_error_status (trace s) = false.

(** The state the stream handlers do not touch. *)
Definition same_refs (s s' : Session) : Prop :=
  lastError s' = lastError s /\ input s' = input s
  /\ retryCountRef s' = retryCountRef s
  /\ abortControllerRef s' = abortControllerRef s.

End Client.

(** ** A conversation for the concrete runs

    The hook with its default options ([API_CONFIG.MAX_RETRIES],
    [CHAT_CONFIG.DEFAULT_MODEL]) and the built-in parser, the identifiers
    four calls of [sendMessage] draw, and a few streams. *)
Module Scenario.
Import JS Client.

Definition maxRetries : Z := 3.
Definition selectedModel : string := "qwen-plus".

Abbreviation sendMessage := (Client.sendMessage JSON.parse maxRetries selectedModel).
Abbreviation submit := (Client.submit JSON.parse maxRetries selectedModel).
Abbreviation in_flight := (Client.in_flight JSON.parse selectedModel).
Abbreviation handleSubmit := (Client.handleSubmit JSON.parse maxRetries selectedModel).
Abbreviation processStreamResponse := (Client.processStreamResponse JSON.parse).
Abbreviation read_chunks := (Client.read_chunks JSON.parse).
Abbreviation retryLastMessage :=
  (Client.retryLastMessage JSON.parse maxRetries selectedModel).
Abbreviation reachable := (Client.reachable JSON.parse maxRetries selectedModel).

Definition fresh1 : Fresh :=
  {| user_timestamp := 1000; user_id := "user-1000-a1";
     assistantMessageId := "msg-1000-b1";
     placeholder_timestamp := 1000; placeholder_id := "msg-1000-c1" |}.

Definition fresh2 : Fresh :=
  {| user_timestamp := 2000; user_id := "user-2000-a2";
     assistantMessageId := "msg-2000-b2";
     placeholder_timestamp := 2000; placeholder_id := "msg-2000-c2" |}.

Definition fresh3 : Fresh :=
  {| user_timestamp := 4000; user_id := "user-4000-a3";
     assistantMessageId := "msg-4000-b3";
     placeholder_timestamp := 4000; placeholder_id := "msg-4000-c3" |}.

Definition fresh4 : Fresh :=
  {| user_timestamp := 7000; user_id := "user-7000-a4";
     assistantMessageId := "msg-7000-b4";
     placeholder_timestamp := 7000; placeholder_id := "msg-7000-c4" |}.

(** [fetch] rejects: the server cannot be reached. *)
Definition network_down : FetchOutcome :=
  FetchRejected (mkError "TypeError" "Failed to fetch").

Definition fragment (text : string) : Server.Chunk :=
  {| Server.choices := [{| Server.delta := Some {| Server.content := Some text |} |}] |}.

(** What the server writes when the provider gives "H", an empty fragment
    and "i", and is then exhausted. *)
Definition hi_frames : list string :=
  Server.written
    (Server.getHello JSON.stringify 17
       (Server.ServiceStream
          {| Server.chunks := [fragment "H"; fragment ""; fragment "i"];
             Server.ending := Server.Exhausted |})).

(** What the server writes when the provider gives "H" and then fails. *)
Definition failing_frames : list string :=
  Server.written
    (Server.getHello JSON.stringify 17
       (Server.ServiceStream
          {| Server.chunks := [fragment "H"];
             Server.ending := Server.Failed "Error: rate limit exceeded" |})).

(** A text-start frame and a text-delta frame for the part [t]; the
    second without its newline. *)
Definition text_start_frame : string :=
  Server.frame JSON.stringify "0" (Server.text_start "t").

Definition text_delta_unterminated : string :=
  "0:" ++ JSON.stringify (Server.text_delta "t" "Hi").

(** The lines of a short stream, and two ways of cutting its text. *)
Definition start_line : string := "0:" ++ JSON.stringify (JObj [("type", JStr "start")]).
Definition finish_line : string := "d:" ++ JSON.stringify (JObj [("type", JStr "finish")]).
Definition delta_line (text : string) : string :=
  "0:" ++ JSON.stringify (Server.text_delta "t" text).
Definition malformed_line : string := "0:{bad json".

Definition whole : list string :=
  [start_line ++ Server.nl ++ finish_line ++ Server.nl].

Definition pieces : list string :=
  ["0:{"; substring_from 3 start_line ++ Server.nl ++ "d:"; substring_from 2 finish_line;
   Server.nl].

End Scenario.

(** ** The server's reading of the request: [AppService.getHello] *)
Module Service.
Import JS Client.

(** The request body's JSON form of a message object, as [JSON.stringify]
    in [fetch] and the body parser of the server give it: the properties
    that are set, absent ones left out. *)
Definition role_name (r : Role) : string :=
  match r with
  | USER => "user"
  | ASSISTANT => "assistant"
  | SYSTEM => "system"
  end.

Definition part_json (p : Part) : json :=
  JObj [("type", JStr (part_type p)); ("text", part_text p)].

Definition message_json (m : Message) : json :=
  JObj ([("id", JStr (id m));
         ("role", JStr (role_name (role m)));
         ("timestamp", JNum (timestamp m));
         ("parts", JArr (map part_json (parts m)))]
        ++ match text m with Some t => [("text", t)] | None => [] end
        ++ match error m with Some e => [("error", JStr e)] | None => [] end).

(** [msg.parts.find(part => part.type === 'text')] *)
Fixpoint find_text_part (items : list json) : completion (option json) :=
  match items with
  | [] => Normal None
  | JNull :: _ => Throw (mkError "TypeError" "Cannot read properties of null")
  | part :: rest =>
      if is_string (get part "type") "text" then Normal (Some part)
      else find_text_part rest
  end.

(** [msg.role === 'user' ? 'user' : 'assistant'] *)
Definition role_of (msg : json) : string :=
  if is_string (get msg "role") "user" then "user" else "assistant".

(** The callback of [messages?.map]: one message of the body turned into
    the provider's [{ role, content }]. *)
Definition aiMessage (msg : json) : completion json :=
  match msg with
  | JNull => Throw (mkError "TypeError" "Cannot read properties of null")
  | _ =>
      match get msg "parts" with
      | Some (JArr items) =>
          match find_text_part items with
          | Normal textPart =>
              Normal (JObj [("role", JStr (role_of msg));
                            ("content",
                             default (JStr "")
                               (or_else
                                  match textPart with
                                  | Some part => get part "text"
                                  | None => None
                                  end
                                  (Some (JStr ""))))])
          | Throw e => Throw e
          end
      | _ =>
          Normal (JObj [("role", JStr (role_of msg));
                        ("content",
                         default (JStr "")
                           (or_else (get msg "text")
                              (or_else (get msg "content") (Some (JStr "")))))])
      end
  end.

Fixpoint aiMessages (messages : list json) : completion (list json) :=
  match messages with
  | [] => Normal []
  | msg :: rest =>
      match aiMessage msg with
      | Normal m =>
          match aiMessages rest with
          | Normal ms => Normal (m :: ms)
          | Throw e => Throw e
          end
      | Throw e => Throw e
      end
  end.

End Service.

(** ** [useChatHistory] of [hooks/useChat.js] *)
Module History.
Import JS Client.

Record ChatSession : Type := {
  session_id : string;
  session_timestamp : Z;
  session_messages : list Message;
  title : string
}.

(** [messages[0]?.parts?.[0]?.text?.substring(0, 50) || 'New Chat']: a
    text that is neither a string nor nullish has no [substring], and the
    call throws. *)
Definition title_of (msgs : list Message) : completion string :=
  match msgs with
  | [] => Normal "New Chat"
  | m :: _ =>
      match parts m with
      | [] => Normal "New Chat"
      | p :: _ =>
          match part_text p with
          | JNull => Normal "New Chat"
          | JStr s =>
              Normal (if String.eqb (slice0 50 s) "" then "New Chat"
                      else slice0 50 s)
          | _ => Throw (mkError "TypeError" "substring is not a function")
          end
      end
  end.

(** [saveToHistory(messages)]: the new session in front of the first nine
    of the old ones.  [generated_id] and [Date_now] are what
    [generateMessageId()] and [Date.now()] return. *)
Definition saveToHistory (msgs : list Message) (generated_id : string) (Date_now : Z)
  (history : list ChatSession) : completion (list ChatSession) :=
  match title_of msgs with
  | Normal t =>
      Normal ({| session_id := generated_id; session_timestamp := Date_now;
                 session_messages := msgs; title := t |} :: firstn 9 history)
  | Throw e => Throw e
  end.

Definition clearHistory (history : list ChatSession) : list ChatSession := [].

Definition deleteFromHistory (sessionId : string) (history : list ChatSession)
  : list ChatSession :=
  filter (fun session => negb (String.eqb (session_id session) sessionId)) history.

(** A call of one of the three methods; a [saveToHistory] that throws
    leaves the state as it was. *)
Inductive Call : Type :=
| Save (msgs : list Message) (generated_id : string) (Date_now : Z)
| Clear
| Delete (sessionId : string).

Definition call (history : list ChatSession) (c : Call) : list ChatSession :=
  match c with
  | Save msgs generated_id Date_now =>
      match saveToHistory msgs generated_id Date_now history with
      | Normal h => h
      | Throw _ => history
      end
  | Clear => clearHistory history
  | Delete sessionId => deleteFromHistory sessionId history
  end.

End History.

(** ** The [storage] helpers of [utils/index.js] *)
Module Storage.
Import JS.

(** [localStorage]: the items, the latest first. *)
Definition LocalStorage : Type := list (string * string).

Fixpoint getItem (key : string) (store : LocalStorage) : option string :=
  match store with
  | [] => None
  | (k, v) :: rest => if String.eqb key k then Some v else getItem key rest
  end.

Definition removeItem (key : string) (store : LocalStorage) : LocalStorage :=
  filter (fun kv => negb (String.eqb key (fst kv))) store.

Definition setItem (key item : string) (store : LocalStorage) : LocalStorage :=
  (key, item) :: removeItem key store.

Section Helpers.

Variable JSON_parse : string -> option json.
Variable JSON_stringify : json -> string.

(** [storage.get(key, defaultValue)] *)
Definition get (key : string) (defaultValue : json) (store : LocalStorage) : json :=
  match getItem key store with
  | Some item =>
      if String.eqb item "" then defaultValue
      else match JSON_parse item with
           | Some v => v
           | None => defaultValue
           end
  | None => defaultValue
  end.

(** [storage.set(key, value)]; [accepted] is whether [setItem] succeeds
    (it throws when the quota is exceeded, and the helper only warns). *)
Definition set (key : string) (v : json) (accepted : bool) (store : LocalStorage)
  : LocalStorage :=
  if accepted then setItem key (JSON_stringify v) store else store.

(** [storage.remove(key)] *)
Definition remove (key : string) (store : LocalStorage) : LocalStorage :=
  removeItem key store.

End Helpers.
End Storage.

(** ** The message view: [extractMessageText] and [TypewriterText] *)
Module View.
Import JS Client.

(** [part?.text ?? part?.content ?? ''] on a part of a message object,
    then the conversion [join] applies. *)
Definition part_display (p : Part) : string :=
  match part_text p with
  | JNull => ""
  | t => toString t
  end.

(** [extractMessageText(msg)] on a message of the hook: the parts when
    there are any; a message of the hook has no [content]. *)
Definition extractMessageText (msg : Message) : string :=
  match parts msg with
  | [] => ""
  | ps => concat_strings (map part_display ps)
  end.

(** The updater of the typewriter's interval:
    [nextLen = Math.min(prev.length + 1, target.length)], then
    [target.slice(0, nextLen)]. *)
Definition tick (target printed : string) : string :=
  slice0 (Nat.min (utf16_length printed + 1) (utf16_length target)) target.

(** One period of [speed] milliseconds under the props [text] and
    [active].  The first effect starts an interval only when
    [printed.length < text.length && active]; the updater changes
    [printed.length], which is among the effect's dependencies, so the
    effect runs again after every tick and tests anew.  Without an
    interval nothing is printed. *)
Definition fire (text : string) (active : bool) (printed : string) : string :=
  if Nat.ltb (utf16_length printed) (utf16_length text) && active
  then tick text printed
  else printed.

Fixpoint fires (n : nat) (text : string) (active : bool) (printed : string) : string :=
  match n with
  | O => printed
  | S n' => fires n' text active (fire text active printed)
  end.

(** The second effect: [if (!active && printed !== text) setPrinted(text)]. *)
Definition settle (text : string) (active : bool) (printed : string) : string :=
  if negb active && negb (String.eqb printed text) then text else printed.

End View.

(** ** [handleChange] of [InputArea] *)
Module Input.
Import JS.

(** [handleChange]: a new value longer than [maxLength] is not passed to
    [onChange]; the value stays. *)
Definition handleChange (maxLength : nat) (value newValue : string) : string :=
  if Nat.leb (utf16_length newValue) maxLength then newValue else value.

End Input.

(** ** Vocabulary of the further statements *)
Module Terms.
Import JS Client.

(** A text of white-space code points only. *)
Fixpoint all_space_from (fuel : nat) (s : string) : bool :=
  match s with
  | EmptyString => true
  | String _ _ =>
      match fuel with
      | O => false
      | S fuel' =>
          match strip_any white_space s with
          | Some rest => all_space_from fuel' rest
          | None => false
          end
      end
  end.

Definition all_space (s : string) : bool := all_space_from (String.length s) s.

(** A text that begins with none of the words [ws]. *)
Definition starts_clean (ws : list string) (s : string) : Prop :=
  strip_any ws s = None.

(** The messages after some handling are those before it, or those
    before it with one update of the last message. *)
Definition collapsed (s s' : Session) : Prop :=
  messages s' = messages s
  \/ exists t, messages s' = messages (updateAssistantMessage "" t s).

(** No request and no timer was added between two states. *)
Definition quiet_since (s s' : Session) : Prop :=
  flat_map (fun e => match e with Fetch body => [body] | _ => [] end) (trace s')
  = flat_map (fun e => match e with Fetch body => [body] | _ => [] end) (trace s)
  /\ flat_map (fun e => match e with SetTimeout _ delay => [delay] | _ => [] end)
       (trace s')
     = flat_map (fun e => match e with SetTimeout _ delay => [delay] | _ => [] end)
         (trace s).

(** A message that stands for none. *)
Definition no_message : Message :=
  {| id := ""; role := USER; timestamp := 0; parts := []; text := None; error := None |}.

(** The delays of the timers set, and the requests sent, in order. *)
Definition timer_delays (t : list Effect) : list Z :=
  flat_map (fun e => match e with SetTimeout _ delay => [delay] | _ => [] end) t.

Definition requests (t : list Effect) : list Request :=
  flat_map (fun e => match e with Fetch body => [body] | _ => [] end) t.

(** The user message and the request of one call of [sendMessage]. *)
Definition userMessage (content : string) (fresh : Fresh) : Message :=
  createMessage {| opt_id := None; opt_role := Some USER; opt_content := Some content;
                   opt_parts := None; opt_timestamp := None |}
                (user_timestamp fresh) (user_id fresh).

Definition request_of (selectedModel : string) (closure : list Message)
  (content : string) (fresh : Fresh) : Request :=
  {| req_id := assistantMessageId fresh;
     req_messages := closure ++ [userMessage content fresh];
     req_model := selectedModel;
     req_trigger := "submit-message" |}.

(** The placeholder once the stream has put [answer] into it. *)
Definition answered (answer : json) (fresh : Fresh) : Message :=
  {| id := placeholder_id fresh; role := ASSISTANT;
     timestamp := placeholder_timestamp fresh;
     parts := [{| part_type := "text"; part_text := answer |}];
     text := Some answer;
     error := None |}.

(** The parsed data is a text-delta event for the part [i] with the
    text [d]. *)
Definition is_delta (data : json) (i d : string) : Prop :=
  get data "type" = Some (JStr "text-delta")
  /\ get data "id" = Some (JStr i)
  /\ get data "delta" = Some (JStr d).

(** The payloads the framer hands to [JSON.stringify] for a stream that
    is exhausted. *)
Definition payloads (messageId : string) (stream : Server.Stream) : list json :=
  [Server.initialMessage messageId; Server.text_start ("text-" ++ messageId)]
  ++ map (Server.text_delta ("text-" ++ messageId)) (Server.fragments stream)
  ++ [Server.text_end ("text-" ++ messageId);
      Server.finalMessage messageId (concat_strings (Server.fragments stream))].

(** The texts after the tags of the two frames the server writes as
    literals. *)
Definition start_payload : string := "{" ++ quoted "type" ++ ":" ++ quoted "start" ++ "}".
Definition finish_payload : string := "{" ++ quoted "type" ++ ":" ++ quoted "finish" ++ "}".

(** The lines of the response to a stream that is exhausted, without
    their newlines. *)
Definition wire_lines (JSON_stringify : json -> string) (messageId : string)
  (stream : Server.Stream) : list string :=
  ("0:" ++ start_payload)
  :: app (map (fun p => "0:" ++ JSON_stringify p) (payloads messageId stream))
       ["d:" ++ finish_payload].

(** The payloads and the lines of the response to a stream that fails
    with [error] after its fragments. *)
Definition failure_payloads (messageId : string) (stream : Server.Stream)
  (error : string) : list json :=
  [Server.initialMessage messageId; Server.text_start ("text-" ++ messageId)]
  ++ map (Server.text_delta ("text-" ++ messageId)) (Server.fragments stream)
  ++ [Server.error_data error].

Definition failure_lines (JSON_stringify : json -> string) (messageId : string)
  (stream : Server.Stream) (error : string) : list string :=
  ("0:" ++ start_payload)
  :: app (map (fun p => "0:" ++ JSON_stringify p)
            ([Server.initialMessage messageId; Server.text_start ("text-" ++ messageId)]
             ++ map (Server.text_delta ("text-" ++ messageId)) (Server.fragments stream)))
       ["e:" ++ JSON_stringify (Server.error_data error)].

(** What the provider is to receive for a message of the hook: user or
    assistant, and the text of the first part of type text when that
    text is truthy. *)
Definition provider_message (m : Message) : json :=
  JObj [("role", JStr (if Role_eqb (role m) USER then "user" else "assistant"));
        ("content",
         match find (fun p => String.eqb (part_type p) "text") (parts m) with
         | Some p => if truthy (part_text p) then part_text p else JStr ""
         | None => JStr ""
         end)].

(** The attempt succeeds: the response is ok and its body is read to the
    end. *)
Definition succeeds (net : FetchOutcome) : bool :=
  match net with
  | Responded true _ _ Done => true
  | _ => false
  end.

(** The ids of the two messages an attempt appends, and the id and
    error marker of each message of a list. *)
Definition attempt_ids (a : Fresh * FetchOutcome) : list string :=
  [user_id (fst a); placeholder_id (fst a)].

Definition labels (l : list Message) : list (string * option string) :=
  map (fun m => (id m, error m)) l.

(** The request id drawn for each attempt is the id of no message in the
    list at that time: those [known] before, and the two of each attempt
    up to it. *)
Fixpoint unused (known : list string) (attempts : list (Fresh * FetchOutcome)) : bool :=
  match attempts with
  | [] => true
  | a :: rest =>
      forallb (fun i => negb (String.eqb i (assistantMessageId (fst a))))
        (known ++ attempt_ids a)
      && unused (known ++ attempt_ids a) rest
  end.

End Terms.

(** ** Further concrete runs *)
Module Cases.
Import JS Client.

(** The provider gives "H", an empty fragment and "i", and is then
    exhausted. *)
Definition hi_stream : Server.Stream :=
  {| Server.chunks := [Scenario.fragment "H"; Scenario.fragment ""; Scenario.fragment "i"];
     Server.ending := Server.Exhausted |}.

(** The body of the response, and the body cut in the middle of a
    frame. *)
Definition hi_text : string :=
  concat_strings
    (Server.written (Server.getHello JSON.stringify 17 (Server.ServiceStream hi_stream))).

Definition hi_chunks : list string :=
  [substring 0 25 hi_text; substring_from 25 hi_text].

(** A reader in the middle of the text part [t]. *)
Definition reader_in_part : Reader :=
  {| buffer := ""; currentText := ""; textPartId := Some (JStr "t"); events := [] |}.

(** A response that is read to its end. *)
Definition answer : FetchOutcome := Responded true 200 Scenario.whole Done.

Definition preferences : json := JObj [("theme", JStr "dark"); ("fontSize", JNum 14)].

(** The double quote and the line feed as texts. *)
Definition q : string := String (ascii_of_nat 34) "".
Definition lf : string := String (ascii_of_nat 10) "".

(** A text with each apostrophe read as a double quote. *)
Fixpoint sq (s : string) : string :=
  match s with
  | EmptyString => EmptyString
  | String c rest =>
      String (if Ascii.eqb c (ascii_of_nat 39) then ascii_of_nat 34 else c) (sq rest)
  end.

(** The identifiers of a fifth call. *)
Definition fresh5 : Fresh :=
  {| user_timestamp := 60000; user_id := "user-60000-a5";
     assistantMessageId := "msg-60000-b5";
     placeholder_timestamp := 60000; placeholder_id := "msg-60000-c5" |}.

(** U+3000, the ideographic space; U+4E2D, a character of three bytes
    and one code unit; a text repeated. *)
Definition ideographic_space : string := utf8 [227; 128; 128].
Definition zhong : string := utf8 [228; 184; 173].

Fixpoint repeated (n : nat) (s : string) : string :=
  match n with
  | O => ""
  | S n' => s ++ repeated n' s
  end.

(** A history of ten sessions, the newest first. *)
Definition session (n : Z) : History.ChatSession :=
  {| History.session_id := "msg-" ++ number_toString n;
     History.session_timestamp := n;
     History.session_messages := [];
     History.title := "New Chat" |}.

Definition full_history : list History.ChatSession :=
  map session [10; 9; 8; 7; 6; 5; 4; 3; 2; 1]%Z.

(** The provider gives "H" and then fails. *)
Definition failing_stream : Server.Stream :=
  {| Server.chunks := [Scenario.fragment "H"];
     Server.ending := Server.Failed "Error: rate limit exceeded" |}.

End Cases.

(** * Properties *)

(** ** Strings and lines *)
Section Strings.
Import JS.

Lemma append_nil_r (s : string) : s ++ "" = s.
Proof. induction s as [|c s IH]; simpl; [reflexivity | now rewrite IH]. Qed.

Lemma append_assoc (a b c : string) : (a ++ b) ++ c = a ++ (b ++ c).
Proof. induction a as [|x a IH]; simpl; [reflexivity | now rewrite IH]. Qed.

Lemma concat_strings_app (l1 l2 : list string) :
  concat_strings (l1 ++ l2) = concat_strings l1 ++ concat_strings l2.
Proof.
  induction l1 as [|x l1 IH]; simpl; [reflexivity|].
  now rewrite IH, append_assoc.
Qed.

Lemma last_app {A : Type} (l1 l2 : list A) (d : A) :
  l2 <> [] -> last (l1 ++ l2) d = last l2 d.
Proof.
  intros H. induction l1 as [|x l1 IH]; [reflexivity|].
  cbn [app]. destruct (l1 ++ l2)%list eqn:E.
  - apply app_eq_nil in E. destruct E. contradiction.
  - cbn [last]. exact IH.
Qed.

End Strings.

(** ** The framer *)
Section FramerFacts.
Import JS Server.

Variable JSON_stringify : json -> string.

Local Abbreviation frame := (Server.frame JSON_stringify).
Local Abbreviation on_chunk := (Server.on_chunk JSON_stringify).

(** The [for await] loop in closed form: the accumulator grows by the
    non-empty fragments, and one delta frame is written for each. *)
Lemma framer_loop (textPartId : string) (cs : list Chunk) (st : Framer) :
  let deltas := filter (fun d => negb (String.eqb d "")) (map chunk_delta cs) in
  fold_left (on_chunk textPartId) cs st =
  {| fullText := fullText st ++ concat_strings deltas;
     chunkCount := chunkCount st + List.length cs;
     res := {| statusCode := statusCode (res st);
               headers := headers (res st);
               written := (written (res st)
                           ++ map (fun d => frame "0" (text_delta textPartId d)) deltas)%list;
               ended := ended (res st) |} |}.
Proof.
  revert st. induction cs as [|c cs IH]; intros [ft n [sc hs w e]]; simpl.
  - now rewrite append_nil_r, Nat.add_0_r, app_nil_r.
  - rewrite IH. unfold Server.on_chunk.
    destruct (String.eqb (chunk_delta c) "") eqn:E; simpl.
    + f_equal. lia.
    + rewrite append_assoc, <- app_assoc. f_equal. lia.
Qed.

Lemma written_write (data : string) (r : Response) :
  written (write data r) = (written r ++ [data])%list.
Proof. reflexivity. Qed.

Lemma written_end (r : Response) : written (end_ r) = written r.
Proof. reflexivity. Qed.

Lemma written_stream_headers (r : Response) : written (stream_headers r) = written r.
Proof. reflexivity. Qed.

(** The non-empty fragments, read off the chunks directly: the content of
    the first choice's delta when it is a string that is not empty. *)
Lemma fragments_contents (cs : list Chunk) (e : StreamEnd) :
  fragments {| chunks := cs; ending := e |}
  = flat_map (fun c => match choices c with
                       | {| delta := Some {| content := Some (String a t) |} |} :: _ =>
                           [String a t]
                       | _ => []
                       end) cs.
Proof.
  unfold fragments. cbn [chunks].
  induction cs as [|c cs IH]; [reflexivity|].
  cbn [map filter flat_map]. rewrite <- IH. unfold chunk_delta.
  destruct c as [chs]. cbn [choices].
  destruct chs as [|[d] rest]; [reflexivity|]. cbn [delta].
  destruct d as [[cont]|]; [|reflexivity]. cbn [content].
  destruct cont as [[|a t]|]; reflexivity.
Qed.

(** C3. A stream that is exhausted without a failure is framed as: start,
    the snapshot with empty parts, text-start, one text-delta per non-empty
    fragment in emission order, text-end, the snapshot whose single text
    part is the concatenation of the deltas, finish; and the response is
    ended.  Every delta written is non-empty.  The frames are spelled out:
    each is its tag, a colon, the serialized object and a newline, and the
    deltas are the contents of the provider's chunks that are strings and
    not empty. *)
Theorem framer_canonical_order (Date_now : Z) (cs : list Chunk) :
  let messageId := "msg_" ++ number_toString Date_now in
  let textPartId := "text-" ++ messageId in
  let deltas :=
    flat_map (fun c => match choices c with
                       | {| delta := Some {| content := Some (String a t) |} |} :: _ =>
                           [String a t]
                       | _ => []
                       end) cs in
  let line := fun (tag : string) (payload : json) =>
    tag ++ ":" ++ JSON_stringify payload ++ String newline "" in
  let start := "0:{" ++ quoted "type" ++ ":" ++ quoted "start" ++ "}" ++ String newline "" in
  let finish := "d:{" ++ quoted "type" ++ ":" ++ quoted "finish" ++ "}" ++ String newline "" in
  let response :=
    getHello JSON_stringify Date_now
      (ServiceStream {| chunks := cs; ending := Exhausted |}) in
  written response =
    ([start;
      line "0" (JObj [("type", JStr "message");
                      ("message", JObj [("id", JStr messageId);
                                        ("role", JStr "assistant");
                                        ("parts", JArr [])])]);
      line "0" (JObj [("type", JStr "text-start"); ("id", JStr textPartId)])]
     ++ map (fun d => line "0" (JObj [("type", JStr "text-delta");
                                      ("id", JStr textPartId);
                                      ("delta", JStr d)])) deltas
     ++ [line "0" (JObj [("type", JStr "text-end"); ("id", JStr textPartId)]);
         line "0" (JObj [("type", JStr "message");
                         ("message",
                          JObj [("id", JStr messageId);
                                ("role", JStr "assistant");
                                ("parts",
                                 JArr [JObj [("type", JStr "text");
                                             ("text", JStr (concat_strings deltas))]])])]);
         finish])%list
  /\ Forall (fun d => d <> "") deltas
  /\ ended response = true.
Proof.
  cbv zeta. rewrite <- (fragments_contents cs Exhausted).
  unfold getHello, stream_frames. cbn [chunks ending].
  rewrite framer_loop. cbn [fullText res].
  repeat split.
  - rewrite written_end, !written_write. cbn [written].
    rewrite written_stream_headers.
    unfold fragments. cbn [written initial_response chunks append].
    now rewrite <- !app_assoc.
  - unfold fragments. apply Forall_forall. intros d Hd.
    apply filter_In in Hd. destruct Hd as [_ Hd].
    intros ->. discriminate Hd.
Qed.

End FramerFacts.

(** ** The decoder: buffering and line parsing *)

(** Case analysis on the tests of an event handler. *)
Ltac split_tests :=
  repeat match goal with
         | |- context [if ?c then _ else _] => destruct c
         | |- context [match Client.final_text ?m ?t with _ => _ end] =>
             destruct (Client.final_text m t)
         end.

Section DecoderFacts.
Import JS Client.

Variable JSON_parse : string -> option json.

Local Abbreviation parseStreamData := (Client.parseStreamData JSON_parse).
Local Abbreviation on_line := (Client.on_line JSON_parse).
Local Abbreviation on_chunk := (Client.on_chunk JSON_parse).
Local Abbreviation read_chunks := (Client.read_chunks JSON_parse).
Local Abbreviation processStreamResponse := (Client.processStreamResponse JSON_parse).

Lemma split_newline_nonempty (s : string) : split_newline s <> [].
Proof.
  destruct s as [|c s]; simpl; [discriminate|].
  destruct (Ascii.eqb c newline); [discriminate|].
  destruct (split_newline s); discriminate.
Qed.

(** Splitting a concatenation: the complete lines of the first text stay,
    and its unfinished last segment is continued by the second text. *)
Lemma split_newline_app (a b : string) :
  split_newline (a ++ b) =
  (removelast (split_newline a) ++ split_newline (last (split_newline a) "" ++ b))%list.
Proof.
  induction a as [|c a IH]; [reflexivity|].
  cbn [append split_newline].
  pose proof (split_newline_nonempty a) as Ha.
  destruct (Ascii.eqb c newline) eqn:E.
  - rewrite IH. destruct (split_newline a) as [|h t]; [contradiction|reflexivity].
  - rewrite IH. destruct (split_newline a) as [|h t]; [contradiction|].
    destruct t as [|h' t]; [|reflexivity].
    cbn [removelast last app append split_newline]. now rewrite E.
Qed.

(** The handlers neither read nor write the pending buffer. *)
Lemma handle_event_set_buffer (messageId : string) (data : json) (b : string)
  (r : Reader) (s : Session) :
  handle_event messageId data (set_buffer b r, s) =
  match handle_event messageId data (r, s) with
  | Normal st' => Normal (set_buffer b (fst st'), snd st')
  | Throw e => Throw e
  end.
Proof.
  unfold handle_event, set_buffer. destruct r as [b0 ct tp ev].
  cbn [buffer currentText textPartId events].
  split_tests; reflexivity.
Qed.

Lemma on_line_set_buffer (messageId : string) (b : string) (st : Reader * Session)
  (line : string) :
  on_line messageId (set_buffer b (fst st), snd st) line =
  (set_buffer b (fst (on_line messageId st line)), snd (on_line messageId st line)).
Proof.
  destruct st as [r s]. unfold Client.on_line. cbn [fst snd].
  destruct (negb (truthy (parseStreamData line))); [reflexivity|].
  change (record_event (parseStreamData line) (set_buffer b r))
    with (set_buffer b (record_event (parseStreamData line) r)).
  rewrite handle_event_set_buffer.
  destruct (handle_event messageId (parseStreamData line)
              (record_event (parseStreamData line) r, s)) as [[r' s']|e];
    reflexivity.
Qed.

Lemma fold_on_line_set_buffer (messageId : string) (b : string) (lines : list string)
  (st : Reader * Session) :
  fold_left (on_line messageId) lines (set_buffer b (fst st), snd st) =
  (set_buffer b (fst (fold_left (on_line messageId) lines st)),
   snd (fold_left (on_line messageId) lines st)).
Proof.
  revert st. induction lines as [|line lines IH]; intros st; [reflexivity|].
  cbn [fold_left]. rewrite on_line_set_buffer. apply IH.
Qed.

(** Reading a chunk and then another is reading their concatenation. *)
Lemma on_chunk_app (messageId : string) (st : Reader * Session) (c t : string) :
  on_chunk messageId (on_chunk messageId st c) t = on_chunk messageId st (c ++ t).
Proof.
  unfold Client.on_chunk.
  rewrite fold_on_line_set_buffer. cbn [fst snd set_buffer buffer].
  rewrite <- append_assoc, (split_newline_app (buffer (fst st) ++ c) t).
  pose proof (split_newline_nonempty
                (last (split_newline (buffer (fst st) ++ c)) "" ++ t)) as Hne.
  rewrite removelast_app, last_app, fold_left_app by exact Hne.
  rewrite !fold_on_line_set_buffer. reflexivity.
Qed.

Lemma fold_on_chunk_cons (messageId : string) (cs : list string) (c : string)
  (st : Reader * Session) :
  fold_left (on_chunk messageId) (c :: cs) st =
  on_chunk messageId st (concat_strings (c :: cs)).
Proof.
  revert c st. induction cs as [|c' cs IH]; intros c st.
  - cbn [fold_left concat_strings]. now rewrite append_nil_r.
  - change (fold_left (on_chunk messageId) (c :: c' :: cs) st)
      with (fold_left (on_chunk messageId) (c' :: cs) (on_chunk messageId st c)).
    rewrite IH, on_chunk_app. reflexivity.
Qed.

(** The loop over any chunks is the loop over their concatenation
    delivered as one chunk. *)
Lemma read_chunks_concat (messageId : string) (cs : list string) (s : Session) :
  read_chunks messageId cs s = read_chunks messageId [concat_strings cs] s.
Proof.
  unfold Client.read_chunks. destruct cs as [|c cs]; [reflexivity|].
  rewrite fold_on_chunk_cons. reflexivity.
Qed.

Lemma split_newline_line (line rest : string) :
  no_newline line = true ->
  split_newline (line ++ String newline rest) = line :: split_newline rest.
Proof.
  induction line as [|c line IH]; intros H.
  - cbn [append split_newline]. now rewrite Ascii.eqb_refl.
  - cbn [no_newline] in H. apply andb_true_iff in H. destruct H as [Hc H].
    cbn [append split_newline].
    destruct (Ascii.eqb c newline); [discriminate Hc|].
    now rewrite IH.
Qed.

(** The complete lines of a newline-terminated text are its lines, and
    nothing is left pending. *)
Lemma split_newline_unlines (lines : list string) :
  forallb no_newline lines = true ->
  split_newline (unlines lines) = (lines ++ [""])%list.
Proof.
  unfold unlines. induction lines as [|line lines IH]; intros H; [reflexivity|].
  cbn [forallb] in H. apply andb_true_iff in H. destruct H as [Hl H].
  cbn [map concat_strings app]. rewrite append_assoc. cbn [append].
  rewrite split_newline_line by exact Hl. now rewrite IH.
Qed.

(** An event handler leaves the ghost record alone. *)
Lemma handle_event_events (messageId : string) (data : json) (st st' : Reader * Session) :
  handle_event messageId data st = Normal st' -> events (fst st') = events (fst st).
Proof.
  destruct st as [r s]. unfold handle_event.
  split_tests; intros H; inversion H; reflexivity.
Qed.

Lemma on_line_events (messageId : string) (st : Reader * Session) (line : string) :
  events (fst (on_line messageId st line)) =
  (events (fst st) ++ filter truthy [parseStreamData line])%list.
Proof.
  unfold Client.on_line. cbn [filter].
  destruct (truthy (parseStreamData line)); cbn [negb].
  - destruct (handle_event messageId (parseStreamData line)
                (record_event (parseStreamData line) (fst st), snd st)) eqn:E.
    + apply handle_event_events in E. rewrite E. reflexivity.
    + reflexivity.
  - now rewrite app_nil_r.
Qed.

Lemma fold_on_line_events (messageId : string) (lines : list string)
  (st : Reader * Session) :
  events (fst (fold_left (on_line messageId) lines st)) =
  (events (fst st) ++ filter truthy (map parseStreamData lines))%list.
Proof.
  revert st. induction lines as [|line lines IH]; intros st.
  - cbn. now rewrite app_nil_r.
  - cbn [fold_left map]. rewrite IH, on_line_events. cbn [filter].
    destruct (truthy (parseStreamData line)); now rewrite <- app_assoc.
Qed.

(** The loop over any chunking of newline-terminated lines handles the
    lines one by one and ends with an empty buffer. *)
Lemma read_chunks_unlines (messageId : string) (lines cs : list string) (s : Session) :
  forallb no_newline lines = true ->
  concat_strings cs = unlines lines ->
  read_chunks messageId cs s = fold_left (on_line messageId) lines (initial_reader, s).
Proof.
  intros Hl Hcs. rewrite read_chunks_concat, Hcs.
  unfold Client.read_chunks, Client.on_chunk. cbn [fold_left fst snd buffer initial_reader append].
  rewrite split_newline_unlines by exact Hl.
  rewrite removelast_last, last_last. reflexivity.
Qed.

(** C2. Split-invariance: however the text of a sequence of
    newline-terminated lines is cut into chunks, the reading loop ends in
    the same state, the state of handling the lines one after the other;
    the events it has handled are the non-null results of
    [parseStreamData] on the lines, in order; and the whole of
    [processStreamResponse] does the same for either chunking. *)
Theorem split_invariance (messageId : string) (lines cs1 cs2 : list string)
  (s : Session) :
  forallb no_newline lines = true ->
  concat_strings cs1 = unlines lines ->
  concat_strings cs2 = unlines lines ->
  read_chunks messageId cs1 s = read_chunks messageId cs2 s
  /\ read_chunks messageId cs1 s = fold_left (on_line messageId) lines (initial_reader, s)
  /\ events (fst (read_chunks messageId cs1 s)) = filter truthy (map parseStreamData lines)
  /\ (forall ending,
        processStreamResponse messageId cs1 ending s =
        processStreamResponse messageId cs2 ending s).
Proof.
  intros Hl H1 H2.
  pose proof (read_chunks_unlines messageId lines cs1 s Hl H1) as E1.
  pose proof (read_chunks_unlines messageId lines cs2 s Hl H2) as E2.
  repeat split.
  - now rewrite E1, E2.
  - exact E1.
  - rewrite E1, fold_on_line_events. reflexivity.
  - intros ending. unfold Client.processStreamResponse. now rewrite E1, E2.
Qed.

(** A line without a tag, or whose payload does not parse, gives [null]. *)
Lemma parseStreamData_malformed (line : string) :
  tagged line = false \/ JSON_parse (substring_from 2 line) = None ->
  parseStreamData line = JNull.
Proof.
  unfold Client.parseStreamData, tagged.
  intros [H|H]; destruct (String.eqb (trim line) ""); try reflexivity.
  - now rewrite H.
  - rewrite H. now destruct (_ || _).
Qed.

(** C6. Fault isolation: a line that carries none of the tags [0:], [d:],
    [e:], or whose text after the tag is not valid JSON, yields no event,
    and the line loop steps over it with its state unchanged.  A stream in
    which such a line stands among other lines is read, under any
    chunking, to the same state as the stream without it, and the events
    handled are those of the other lines: the lines after it are handled
    as if it had not been there. *)
Theorem fault_isolation (messageId line : string) (before after cs cs' : list string)
  (s : Session) :
  tagged line = false \/ JSON_parse (substring_from 2 line) = None ->
  no_newline line = true ->
  forallb no_newline before = true ->
  forallb no_newline after = true ->
  concat_strings cs = unlines (before ++ line :: after) ->
  concat_strings cs' = unlines (before ++ after) ->
  parseStreamData line = JNull
  /\ (forall st, on_line messageId st line = st)
  /\ read_chunks messageId cs s = read_chunks messageId cs' s
  /\ events (fst (read_chunks messageId cs s)) =
     filter truthy (map parseStreamData (before ++ after)).
Proof.
  intros H Hline Hb Ha Hcs Hcs'.
  pose proof (parseStreamData_malformed line H) as Hnull.
  assert (Hskip : forall st, on_line messageId st line = st).
  { intros st. unfold Client.on_line. now rewrite Hnull. }
  split; [exact Hnull|]. split; [exact Hskip|].
  assert (Hall : forallb no_newline (before ++ line :: after) = true).
  { rewrite forallb_app. cbn [forallb]. now rewrite Hline, Hb, Ha. }
  assert (Hrest : forallb no_newline (before ++ after) = true).
  { rewrite forallb_app. now rewrite Hb, Ha. }
  rewrite (read_chunks_unlines messageId _ cs s Hall Hcs),
    (read_chunks_unlines messageId _ cs' s Hrest Hcs').
  split.
  - rewrite !fold_left_app. cbn [fold_left]. now rewrite Hskip.
  - rewrite fold_on_line_events. cbn [events initial_reader fst app].
    rewrite !map_app, !filter_app. cbn [map filter]. now rewrite Hnull.
Qed.

End DecoderFacts.

(** ** The session: what the stream handlers leave alone *)
Section HandlerFacts.
Import JS Client.

Variable JSON_parse : string -> option json.

Local Abbreviation on_line := (Client.on_line JSON_parse).
Local Abbreviation on_chunk := (Client.on_chunk JSON_parse).
Local Abbreviation on_last_buffer := (Client.on_last_buffer JSON_parse).
Local Abbreviation read_chunks := (Client.read_chunks JSON_parse).

Lemma same_refs_refl (s : Session) : same_refs s s.
Proof. repeat split. Qed.

Lemma same_refs_trans (s1 s2 s3 : Session) :
  same_refs s1 s2 -> same_refs s2 s3 -> same_refs s1 s3.
Proof.
  unfold same_refs. intros (A1 & A2 & A3 & A4) (B1 & B2 & B3 & B4).
  repeat split; congruence.
Qed.

Lemma handle_event_refs (messageId : string) (data : json) (st st' : Reader * Session) :
  handle_event messageId data st = Normal st' -> same_refs (snd st) (snd st').
Proof.
  destruct st as [r s]. unfold handle_event.
  split_tests; intros H; inversion H; repeat split.
Qed.

Lemma handle_last_buffer_refs (messageId : string) (data : json)
  (st st' : Reader * Session) :
  handle_last_buffer messageId data st = Normal st' -> same_refs (snd st) (snd st').
Proof.
  destruct st as [r s]. unfold handle_last_buffer.
  split_tests; intros H; inversion H; repeat split.
Qed.

Lemma on_line_refs (messageId : string) (st : Reader * Session) (line : string) :
  same_refs (snd st) (snd (on_line messageId st line)).
Proof.
  unfold Client.on_line.
  destruct (negb _); [apply same_refs_refl|].
  destruct (handle_event _ _ _) eqn:E; [|apply same_refs_refl].
  apply handle_event_refs in E. exact E.
Qed.

Lemma fold_on_line_refs (messageId : string) (lines : list string)
  (st : Reader * Session) :
  same_refs (snd st) (snd (fold_left (on_line messageId) lines st)).
Proof.
  revert st. induction lines as [|line lines IH]; intros st; [apply same_refs_refl|].
  cbn [fold_left]. eapply same_refs_trans; [apply on_line_refs | apply IH].
Qed.

Lemma on_chunk_refs (messageId : string) (st : Reader * Session) (chunk : string) :
  same_refs (snd st) (snd (on_chunk messageId st chunk)).
Proof.
  unfold Client.on_chunk.
  exact (fold_on_line_refs messageId _ (set_buffer _ (fst st), snd st)).
Qed.

Lemma read_chunks_refs (messageId : string) (chunks : list string) (s : Session) :
  same_refs s (snd (read_chunks messageId chunks s)).
Proof.
  unfold Client.read_chunks.
  change s with (snd (initial_reader, s)) at 1.
  generalize (initial_reader, s). induction chunks as [|c cs IH]; intros st.
  - apply same_refs_refl.
  - cbn [fold_left]. eapply same_refs_trans; [apply on_chunk_refs | apply IH].
Qed.

Lemma on_last_buffer_refs (messageId : string) (st : Reader * Session) :
  same_refs (snd st) (snd (on_last_buffer messageId st)).
Proof.
  unfold Client.on_last_buffer.
  destruct (String.eqb _ _); [apply same_refs_refl|].
  destruct (negb _); [apply same_refs_refl|].
  destruct (handle_last_buffer _ _ _) eqn:E; [|apply same_refs_refl].
  apply handle_last_buffer_refs in E. exact E.
Qed.

(** *** The handlers keep the identifiers of the messages *)

Lemma update_last_ids (f : Message -> Message) (l : list Message) :
  (forall m, id (f m) = id m) -> map id (update_last f l) = map id l.
Proof.
  intros Hf. induction l as [|m l IH]; [reflexivity|].
  destruct l as [|m' l]; cbn [update_last map] in *.
  - now rewrite Hf.
  - now rewrite IH.
Qed.

Lemma updateAssistantMessage_ids (messageId : string) (new_text : json) (s : Session) :
  map id (messages (updateAssistantMessage messageId new_text s)) = map id (messages s).
Proof.
  unfold updateAssistantMessage, setMessages. cbn [messages].
  apply update_last_ids. intros m. now destruct (Role_eqb (role m) ASSISTANT).
Qed.

Lemma handle_event_ids (messageId : string) (data : json) (st st' : Reader * Session) :
  handle_event messageId data st = Normal st' ->
  map id (messages (snd st')) = map id (messages (snd st)).
Proof.
  destruct st as [r s]. unfold handle_event.
  split_tests; intros H; inversion H; cbn [snd];
    try reflexivity; apply updateAssistantMessage_ids.
Qed.

Lemma on_line_ids (messageId : string) (st : Reader * Session) (line : string) :
  map id (messages (snd (on_line messageId st line))) = map id (messages (snd st)).
Proof.
  unfold Client.on_line.
  destruct (negb _); [reflexivity|].
  destruct (handle_event _ _ _) eqn:E; [|reflexivity].
  apply handle_event_ids in E. exact E.
Qed.

Lemma fold_on_line_ids (messageId : string) (lines : list string)
  (st : Reader * Session) :
  map id (messages (snd (fold_left (on_line messageId) lines st)))
  = map id (messages (snd st)).
Proof.
  revert st. induction lines as [|line lines IH]; intros st; [reflexivity|].
  cbn [fold_left]. now rewrite IH, on_line_ids.
Qed.

Lemma read_chunks_ids (messageId : string) (chunks : list string) (s : Session) :
  map id (messages (snd (read_chunks messageId chunks s))) = map id (messages s).
Proof.
  unfold Client.read_chunks.
  change s with (snd (initial_reader, s)) at 2.
  generalize (initial_reader, s). induction chunks as [|c cs IH]; intros st.
  - reflexivity.
  - cbn [fold_left]. rewrite IH. unfold Client.on_chunk.
    exact (fold_on_line_ids messageId _ (set_buffer _ (fst st), snd st)).
Qed.

(** *** No handler sets the status to error *)

Lemma never_error_status_emit (e : Effect) (s : Session) :
  sets_error_status e = false -> never_error_status s -> never_error_status (emit e s).
Proof.
  unfold never_error_status. cbn [emit trace]. intros He Hs.
  rewrite existsb_app, Hs. cbn. now rewrite He.
Qed.

Lemma never_error_status_setStatus (st : Status) (s : Session) :
  st <> ERROR -> never_error_status s -> never_error_status (setStatus st s).
Proof.
  intros Hst Hs. unfold setStatus. apply never_error_status_emit; [|exact Hs].
  destruct st; try reflexivity. contradiction.
Qed.

Lemma handle_event_never_error (messageId : string) (data : json)
  (st st' : Reader * Session) :
  handle_event messageId data st = Normal st' ->
  never_error_status (snd st) -> never_error_status (snd st').
Proof.
  destruct st as [r s]. unfold handle_event.
  split_tests; intros H Hs; inversion H; cbn [snd] in *;
    try exact Hs; apply never_error_status_setStatus; try exact Hs; discriminate.
Qed.

Lemma handle_last_buffer_never_error (messageId : string) (data : json)
  (st st' : Reader * Session) :
  handle_last_buffer messageId data st = Normal st' ->
  never_error_status (snd st) -> never_error_status (snd st').
Proof.
  destruct st as [r s]. unfold handle_last_buffer.
  split_tests; intros H Hs; inversion H; cbn [snd] in *;
    try exact Hs; apply never_error_status_setStatus; try exact Hs; discriminate.
Qed.

Lemma on_line_never_error (messageId : string) (st : Reader * Session) (line : string) :
  never_error_status (snd st) -> never_error_status (snd (on_line messageId st line)).
Proof.
  intros Hs. unfold Client.on_line.
  destruct (negb _); [exact Hs|].
  destruct (handle_event _ _ _) eqn:E; [|exact Hs].
  apply handle_event_never_error in E; assumption.
Qed.

Lemma fold_on_line_never_error (messageId : string) (lines : list string)
  (st : Reader * Session) :
  never_error_status (snd st) ->
  never_error_status (snd (fold_left (on_line messageId) lines st)).
Proof.
  revert st. induction lines as [|line lines IH]; intros st Hs; [exact Hs|].
  cbn [fold_left]. apply IH, on_line_never_error, Hs.
Qed.

Lemma read_chunks_never_error (messageId : string) (chunks : list string) (s : Session) :
  never_error_status s -> never_error_status (snd (read_chunks messageId chunks s)).
Proof.
  unfold Client.read_chunks.
  change s with (snd (initial_reader, s)) at 1.
  generalize (initial_reader, s). induction chunks as [|c cs IH]; intros st Hs.
  - exact Hs.
  - cbn [fold_left]. apply IH. unfold Client.on_chunk.
    apply (fold_on_line_never_error messageId _ (set_buffer _ (fst st), snd st)), Hs.
Qed.

Lemma on_last_buffer_never_error (messageId : string) (st : Reader * Session) :
  never_error_status (snd st) -> never_error_status (snd (on_last_buffer messageId st)).
Proof.
  intros Hs. unfold Client.on_last_buffer.
  destruct (String.eqb _ _); [exact Hs|].
  destruct (negb _); [exact Hs|].
  destruct (handle_last_buffer _ _ _) eqn:E; [|exact Hs].
  apply handle_last_buffer_never_error in E; assumption.
Qed.

End HandlerFacts.

(** ** The hook: [sendMessage], cancellation and retries *)
Section HookFacts.
Import JS Client.

Variable JSON_parse : string -> option json.
Variable maxRetries : Z.
Variable selectedModel : string.

Local Abbreviation parseStreamData := (Client.parseStreamData JSON_parse).
Local Abbreviation on_line := (Client.on_line JSON_parse).
Local Abbreviation on_last_buffer := (Client.on_last_buffer JSON_parse).
Local Abbreviation read_chunks := (Client.read_chunks JSON_parse).
Local Abbreviation processStreamResponse := (Client.processStreamResponse JSON_parse).
Local Abbreviation on_catch := (Client.on_catch maxRetries).
Local Abbreviation begin_request := (Client.begin_request selectedModel).
Local Abbreviation sendMessage := (Client.sendMessage JSON_parse maxRetries selectedModel).
Local Abbreviation in_flight := (Client.in_flight JSON_parse selectedModel).
Local Abbreviation submit := (Client.submit JSON_parse maxRetries selectedModel).
Local Abbreviation handleSubmit := (Client.handleSubmit JSON_parse maxRetries selectedModel).

(** An error event in a line is handled by throwing, and the [catch] of
    the line loop takes the exception: the session is as it was. *)
Lemma error_event_is_caught (messageId : string) (st : Reader * Session)
  (line : string) :
  event_type_is "error" (parseStreamData line) = true ->
  snd (on_line messageId st line) = snd st.
Proof.
  intros H. unfold Client.on_line.
  destruct (negb (truthy (parseStreamData line))); [reflexivity|].
  unfold handle_event, event_type_is, is_string in *.
  destruct (get (parseStreamData line) "type") as [[| | |t| |]|]; try discriminate.
  apply String.eqb_eq in H. subst t. destruct st; reflexivity.
Qed.

(** [sendMessage] against a response that is read to its end. *)
Lemma sendMessage_done (closure : list Message) (content : string) (fresh : Fresh)
  (http_status : Z) (chunks : list string) (s : Session) :
  validateInput content = Valid ->
  sendMessage closure content fresh (Responded true http_status chunks Done) s =
  (set_abortController None
     (emit OnSuccess
        (set_retryCount 0
           (setStatus READY
              (snd (on_last_buffer (assistantMessageId fresh)
                      (read_chunks (assistantMessageId fresh) chunks
                         (begin_request closure content fresh s))))))),
   None).
Proof.
  intros H. unfold Client.sendMessage, await_response, Client.processStreamResponse.
  rewrite H. reflexivity.
Qed.

(** C10. When the reader reports [done] and neither a finish nor an error
    event was among the data handled, [processStreamResponse] returns
    normally and [sendMessage] ends as a success: status ready, retry
    counter 0, no error recorded, no retry timer, [onSuccess] called last. *)
Theorem truncated_stream_is_success (closure : list Message) (content : string)
  (fresh : Fresh) (http_status : Z) (chunks : list string) (s : Session) :
  validateInput content = Valid ->
  forallb (fun d => negb (event_type_is "finish" d) && negb (event_type_is "error" d))
          (events (fst (on_last_buffer (assistantMessageId fresh)
                          (read_chunks (assistantMessageId fresh) chunks
                             (begin_request closure content fresh s)))))
    = true ->
  snd (processStreamResponse (assistantMessageId fresh) chunks Done
         (begin_request closure content fresh s)) = None
  /\ status (fst (sendMessage closure content fresh
                    (Responded true http_status chunks Done) s)) = READY
  /\ retryCountRef (fst (sendMessage closure content fresh
                           (Responded true http_status chunks Done) s)) = 0%Z
  /\ lastError (fst (sendMessage closure content fresh
                       (Responded true http_status chunks Done) s)) = None
  /\ snd (sendMessage closure content fresh
            (Responded true http_status chunks Done) s) = None
  /\ last (trace (fst (sendMessage closure content fresh
                         (Responded true http_status chunks Done) s)))
          (SetStatus ERROR) = OnSuccess.
Proof.
  intros Hvalid _. split; [reflexivity|].
  rewrite sendMessage_done by exact Hvalid. cbn [fst snd].
  repeat split.
  - cbn [set_abortController emit set_retryCount setStatus lastError].
    destruct (on_last_buffer_refs JSON_parse (assistantMessageId fresh)
                (read_chunks (assistantMessageId fresh) chunks
                   (begin_request closure content fresh s))) as (E & _).
    destruct (read_chunks_refs JSON_parse (assistantMessageId fresh) chunks
                (begin_request closure content fresh s)) as (E' & _).
    rewrite E, E'. reflexivity.
  - cbn [set_abortController emit trace]. apply last_last.
Qed.

(** [sendMessage] against a request the user cancels while it is in
    flight. *)
Lemma sendMessage_cancelled (closure : list Message) (content : string) (fresh : Fresh)
  (net : FetchOutcome) (chunks : list string) (s : Session) :
  validateInput content = Valid ->
  cancelled_after net = Some chunks ->
  sendMessage closure content fresh net s =
  (set_abortController None
     (setStatus READY (abortRequest (in_flight closure content fresh chunks s))),
   None).
Proof.
  intros H Hc. unfold Client.sendMessage, await_response, Client.processStreamResponse.
  rewrite H.
  destruct net as [e| |[|] http_status cs [|e|]]; try discriminate Hc;
    inversion Hc; subst; reflexivity.
Qed.

Lemma in_flight_refs (closure : list Message) (content : string) (fresh : Fresh)
  (chunks : list string) (s : Session) :
  same_refs (begin_request closure content fresh s)
            (in_flight closure content fresh chunks s).
Proof. apply read_chunks_refs. Qed.

(** C8. Cancelling a request in flight, before the response or while its
    body is being read: status becomes ready, no error is set, no retry
    timer is set and the retry counter is untouched; the messages are
    those of the moment of the cancellation, with the text accumulated so
    far; the only effects after that moment are the two
    [setStatus('ready')], of [abortRequest] and of the [AbortError]
    handler. *)
Theorem cancel_keeps_text (closure : list Message) (content : string)
  (fresh : Fresh) (net : FetchOutcome) (chunks : list string) (s : Session) :
  validateInput content = Valid ->
  cancelled_after net = Some chunks ->
  status (fst (sendMessage closure content fresh net s)) = READY
  /\ lastError (fst (sendMessage closure content fresh net s)) = None
  /\ snd (sendMessage closure content fresh net s) = None
  /\ retryCountRef (fst (sendMessage closure content fresh net s)) = retryCountRef s
  /\ messages (fst (sendMessage closure content fresh net s))
     = messages (in_flight closure content fresh chunks s)
  /\ trace (fst (sendMessage closure content fresh net s))
     = (trace (in_flight closure content fresh chunks s)
        ++ [SetStatus READY; SetStatus READY])%list.
Proof.
  intros Hvalid Hc. rewrite (sendMessage_cancelled _ _ _ _ chunks) by assumption.
  cbn [fst snd].
  destruct (in_flight_refs closure content fresh chunks s) as (E1 & _ & E3 & E4).
  unfold abortRequest. rewrite E4. cbn [begin_request Client.begin_request
    abortControllerRef emit set_abortController].
  repeat split.
  - cbn. rewrite E1. reflexivity.
  - cbn. rewrite E3. reflexivity.
  - cbn. now rewrite <- app_assoc.
Qed.

(** The input area has a guard of its own: while the status is
    streaming, [handleSubmit] does not call [sendMessage]; the session is
    unchanged, so no message is appended and no request is sent, and no
    timer is set. *)
Theorem input_guard_while_streaming (connection_error : bool) (closure : list Message)
  (value : string) (fresh : Fresh) (net : FetchOutcome) (s : Session) :
  status s = STREAMING ->
  handleSubmit connection_error closure value fresh net s = (s, None).
Proof.
  intros H. unfold Client.handleSubmit. rewrite H. cbn.
  now rewrite andb_false_r.
Qed.

(** The buffer held back after a chunk has no newline in it. *)
Lemma last_split_no_newline (t : string) :
  no_newline (last (split_newline t) "") = true.
Proof.
  induction t as [|c t IH]; [reflexivity|].
  cbn [split_newline]. pose proof (split_newline_nonempty t) as Hne.
  destruct (Ascii.eqb c newline) eqn:E.
  - destruct (split_newline t) as [|h l]; [contradiction|exact IH].
  - destruct (split_newline t) as [|h l]; [contradiction|].
    destruct l as [|h' l]; [|exact IH].
    cbn [last no_newline] in *. now rewrite E, IH.
Qed.

Lemma read_chunks_buffer (messageId : string) (cs : list string) (s : Session) :
  buffer (fst (read_chunks messageId cs s)) = last (split_newline (concat_strings cs)) "".
Proof.
  rewrite read_chunks_concat. unfold Client.read_chunks, Client.on_chunk.
  cbn [fold_left]. rewrite fold_on_line_set_buffer. reflexivity.
Qed.

(** On a message or finish event the two handlers agree. *)
Lemma handle_last_buffer_agrees (messageId : string) (data : json)
  (st : Reader * Session) :
  event_type_is "message" data || event_type_is "finish" data = true ->
  handle_last_buffer messageId data st = handle_event messageId data st.
Proof.
  destruct st as [r s]. unfold event_type_is, handle_last_buffer, handle_event, is_string.
  destruct (get data "type") as [[| | |t| |]|]; try discriminate.
  intros H. apply orb_true_iff in H.
  destruct H as [H|H]; apply String.eqb_eq in H; subst t; reflexivity.
Qed.

(** Any other event leaves the session as it is when it comes last. *)
Lemma handle_last_buffer_ignores (messageId : string) (data : json)
  (st : Reader * Session) :
  event_type_is "message" data || event_type_is "finish" data = false ->
  handle_last_buffer messageId data st = Normal st.
Proof.
  destruct st as [r s]. unfold event_type_is, handle_last_buffer.
  intros H. apply orb_false_iff in H. destruct H as [H1 H2].
  now rewrite H1, H2.
Qed.

(** The loop fed one more chunk that is a single newline: the pending
    buffer becomes a line. *)
Lemma read_chunks_newline (messageId : string) (cs : list string) (s : Session) :
  read_chunks messageId (cs ++ [String newline ""]) s =
  (set_buffer "" (fst (on_line messageId (read_chunks messageId cs s)
                         (buffer (fst (read_chunks messageId cs s))))),
   snd (on_line messageId (read_chunks messageId cs s)
          (buffer (fst (read_chunks messageId cs s))))).
Proof.
  unfold Client.read_chunks at 1. rewrite fold_left_app. cbn [fold_left].
  fold (read_chunks messageId cs s). unfold Client.on_chunk.
  rewrite split_newline_line.
  - cbn [split_newline removelast last fold_left]. apply on_line_set_buffer.
  - rewrite read_chunks_buffer. apply last_split_no_newline.
Qed.

(** C9 (as amended). When the reader is done, the pending buffer is parsed
    as a line would be, and a message or a finish event in it has the
    effect it would have had in a newline-terminated line: the session is
    the one that results when a newline follows.  An event of any other
    type (start, text-start, text-delta, error) has no effect there: the
    session is that of the chunks read, with status ready. *)
Theorem last_buffer_message_or_finish (messageId : string) (cs : list string)
  (s : Session) :
  fst (processStreamResponse messageId cs Done s) =
  if event_type_is "message"
       (parseStreamData (buffer (fst (read_chunks messageId cs s))))
     || event_type_is "finish"
          (parseStreamData (buffer (fst (read_chunks messageId cs s))))
  then fst (processStreamResponse messageId (cs ++ [String newline ""]) Done s)
  else setStatus READY (snd (read_chunks messageId cs s)).
Proof.
  unfold Client.processStreamResponse. cbn [fst].
  set (st := read_chunks messageId cs s).
  set (data := parseStreamData (buffer (fst st))).
  destruct (event_type_is "message" data || event_type_is "finish" data) eqn:E.
  - f_equal. rewrite read_chunks_newline. fold st. fold data.
    unfold Client.on_last_buffer at 2. cbn [fst snd set_buffer buffer trim].
    change (String.eqb (trim "") "") with true. cbn iota. cbn [snd].
    unfold Client.on_last_buffer, Client.on_line. fold data.
    destruct (String.eqb (trim (buffer (fst st))) "") eqn:Eb.
    + assert (Hn : data = JNull).
      { unfold data, Client.parseStreamData. now rewrite Eb. }
      now rewrite Hn.
    + destruct (negb (truthy data)); [reflexivity|].
      now rewrite handle_last_buffer_agrees by exact E.
  - f_equal. unfold Client.on_last_buffer. fold data.
    destruct (String.eqb (trim (buffer (fst st))) ""); [reflexivity|].
    destruct (negb (truthy data)); [reflexivity|].
    now rewrite handle_last_buffer_ignores by exact E.
Qed.

(** A finish event in a line sets the status to ready and nothing else. *)
Lemma finish_event_sets_ready (messageId : string) (st : Reader * Session)
  (line : string) :
  event_type_is "finish" (parseStreamData line) = true ->
  snd (on_line messageId st line) = setStatus READY (snd st).
Proof.
  intros H. unfold Client.on_line.
  assert (T : truthy (parseStreamData line) = true).
  { unfold event_type_is, get in H. now destruct (parseStreamData line). }
  rewrite T. cbn [negb].
  unfold handle_event, event_type_is, is_string in *.
  destruct (get (parseStreamData line) "type") as [[| | |t| |]|]; try discriminate.
  apply String.eqb_eq in H. subst t. destruct st; reflexivity.
Qed.

(** At the level of the session a stream that stops is the same stream
    ended by a finish frame: a run over lines and the run over the same
    lines followed by a finish line leave the same messages, status,
    error and counter, and neither sets a timer. *)
Lemma truncated_like_finished (closure : list Message) (content : string)
  (fresh : Fresh) (http_status : Z) (lines : list string) (finish : string)
  (cs cs' : list string) (s : Session) :
  validateInput content = Valid ->
  forallb no_newline lines = true ->
  no_newline finish = true ->
  event_type_is "finish" (parseStreamData finish) = true ->
  concat_strings cs = unlines lines ->
  concat_strings cs' = unlines (lines ++ [finish]) ->
  messages (fst (sendMessage closure content fresh (Responded true http_status cs Done) s))
  = messages (fst (sendMessage closure content fresh
                     (Responded true http_status cs' Done) s))
  /\ status (fst (sendMessage closure content fresh (Responded true http_status cs Done) s))
     = status (fst (sendMessage closure content fresh
                      (Responded true http_status cs' Done) s))
  /\ lastError (fst (sendMessage closure content fresh
                       (Responded true http_status cs Done) s))
     = lastError (fst (sendMessage closure content fresh
                         (Responded true http_status cs' Done) s))
  /\ retryCountRef (fst (sendMessage closure content fresh
                           (Responded true http_status cs Done) s))
     = retryCountRef (fst (sendMessage closure content fresh
                             (Responded true http_status cs' Done) s))
  /\ snd (sendMessage closure content fresh (Responded true http_status cs Done) s)
     = snd (sendMessage closure content fresh (Responded true http_status cs' Done) s).
Proof.
  intros Hv Hl Hf He Hcs Hcs'.
  rewrite !sendMessage_done by exact Hv. cbn [fst snd].
  set (s1 := begin_request closure content fresh s).
  set (m := assistantMessageId fresh).
  assert (Hl' : forallb no_newline (lines ++ [finish]) = true).
  { rewrite forallb_app. cbn [forallb]. now rewrite Hl, Hf. }
  assert (B : forall xs ys, forallb no_newline ys = true ->
              concat_strings xs = unlines ys ->
              on_last_buffer m (read_chunks m xs s1) = read_chunks m xs s1).
  { intros xs ys Hys Hxs. unfold Client.on_last_buffer.
    rewrite read_chunks_buffer, Hxs, split_newline_unlines, last_last by exact Hys.
    reflexivity. }
  rewrite (B cs lines Hl Hcs), (B cs' _ Hl' Hcs').
  rewrite (read_chunks_unlines JSON_parse m lines cs s1 Hl Hcs),
    (read_chunks_unlines JSON_parse m _ cs' s1 Hl' Hcs').
  rewrite fold_left_app. cbn [fold_left].
  rewrite finish_event_sets_ready by exact He.
  repeat split.
Qed.

(** *** Retries *)

Lemma begin_request_refs (closure : list Message) (content : string) (fresh : Fresh)
  (s : Session) :
  retryCountRef (begin_request closure content fresh s) = retryCountRef s
  /\ lastError (begin_request closure content fresh s) = None
  /\ abortControllerRef (begin_request closure content fresh s) = Some false.
Proof. repeat split. Qed.

Lemma begin_request_never_error (closure : list Message) (content : string)
  (fresh : Fresh) (s : Session) :
  never_error_status s -> never_error_status (begin_request closure content fresh s).
Proof.
  intros Hs. unfold Client.begin_request.
  apply never_error_status_emit; [reflexivity|].
  unfold never_error_status in *. cbn. rewrite existsb_app, Hs. reflexivity.
Qed.

Lemma abortRequest_never_error (s : Session) :
  never_error_status s -> never_error_status (abortRequest s).
Proof.
  intros Hs. unfold abortRequest. destruct (abortControllerRef s); [|exact Hs].
  apply never_error_status_setStatus; [discriminate|exact Hs].
Qed.

(** What the [try] block leaves: on success the counter is reset, on an
    exception it is untouched; the status is never set to error. *)
Lemma await_response_spec (fresh : Fresh) (net : FetchOutcome) (s : Session) :
  (never_error_status s ->
   never_error_status (fst (await_response JSON_parse fresh net s)))
  /\ match snd (await_response JSON_parse fresh net s) with
     | None => retryCountRef (fst (await_response JSON_parse fresh net s)) = 0%Z
     | Some e =>
         retryCountRef (fst (await_response JSON_parse fresh net s)) = retryCountRef s
         /\ (fails net = true -> failure_of net = Some e)
     end.
Proof.
  destruct net as [e| |ok http_status chunks ending]; cbn [await_response fst snd].
  - repeat split; auto.
  - split; [apply abortRequest_never_error|]. split; [|discriminate].
    unfold abortRequest. now destruct (abortControllerRef s).
  - destruct ok; cbn [negb]; [|repeat split; auto].
    pose proof (read_chunks_refs JSON_parse (assistantMessageId fresh) chunks s)
      as (_ & _ & E & _).
    pose proof (read_chunks_never_error JSON_parse (assistantMessageId fresh) chunks s)
      as Q.
    unfold Client.processStreamResponse.
    destruct ending as [|e|]; cbn [fst snd].
    + split; [|reflexivity]. intros Hs.
      apply never_error_status_emit; [reflexivity|].
      change (never_error_status
                (setStatus READY
                   (snd (on_last_buffer (assistantMessageId fresh)
                           (read_chunks (assistantMessageId fresh) chunks s))))).
      apply never_error_status_setStatus; [discriminate|].
      apply on_last_buffer_never_error, Q, Hs.
    + repeat split; auto.
    + split; [intros Hs; apply abortRequest_never_error, Q, Hs|].
      split; [|discriminate].
      unfold abortRequest. destruct (abortControllerRef _); [|exact E]. exact E.
Qed.

(** The [catch] block when the exception is not an [AbortError] and the
    counter is below [maxRetries]: the counter grows by one and the timer
    is set to 1000 times the new count. *)
Lemma on_catch_retry (assistantMessageId content : string) (err : Error) (s : Session) :
  String.eqb (name err) "AbortError" = false ->
  (retryCountRef s < maxRetries)%Z ->
  on_catch assistantMessageId content err s =
  (emit (SetTimeout content (1000 * (retryCountRef s + 1)))
     (setMessages (filter (fun msg => negb (String.eqb (id msg) assistantMessageId)))
        (set_retryCount (retryCountRef s + 1) s)),
   Some (1000 * (retryCountRef s + 1))%Z).
Proof.
  intros Hn Hlt. unfold Client.on_catch. rewrite Hn.
  apply Z.ltb_lt in Hlt. rewrite Hlt. reflexivity.
Qed.

(** The [catch] block when the counter has reached [maxRetries]: the
    error is recorded, the status set to ready, [onError] called, and no
    timer set. *)
Lemma on_catch_exhausted (assistantMessageId content : string) (err : Error)
  (s : Session) :
  String.eqb (name err) "AbortError" = false ->
  (maxRetries <= retryCountRef s)%Z ->
  snd (on_catch assistantMessageId content err s) = None
  /\ lastError (fst (on_catch assistantMessageId content err s)) = Some (message err)
  /\ status (fst (on_catch assistantMessageId content err s)) = READY
  /\ retryCountRef (fst (on_catch assistantMessageId content err s)) = retryCountRef s
  /\ trace (fst (on_catch assistantMessageId content err s)) =
     (trace s ++ [SetStatus READY; OnError (message err)])%list.
Proof.
  intros Hn Hle. unfold Client.on_catch. rewrite Hn.
  apply Z.ltb_ge in Hle. rewrite Hle. cbn. repeat split.
  now rewrite <- app_assoc.
Qed.

Lemma on_catch_spec (assistantMessageId content : string) (err : Error) (s : Session) :
  (0 <= retryCountRef s <= maxRetries)%Z ->
  (0 <= retryCountRef (fst (on_catch assistantMessageId content err s)) <= maxRetries)%Z
  /\ (never_error_status s ->
      never_error_status (fst (on_catch assistantMessageId content err s))).
Proof.
  intros Hb. unfold Client.on_catch.
  destruct (String.eqb (name err) "AbortError").
  - cbn [fst]. split; [exact Hb|].
    apply never_error_status_setStatus. discriminate.
  - destruct (Z.ltb (retryCountRef s) maxRetries) eqn:E; cbn [fst].
    + apply Z.ltb_lt in E. split; [cbn; lia|].
      intros Hs. apply never_error_status_emit; [reflexivity|exact Hs].
    + split; [exact Hb|]. intros Hs.
      change (never_error_status
                (emit (OnError (formatError err))
                   (setStatus READY (setError (Some (formatError err)) s)))).
      apply never_error_status_emit; [reflexivity|].
      apply never_error_status_setStatus; [discriminate|exact Hs].
Qed.

(** One call of [sendMessage] keeps the counter within its bounds and
    never sets the status to error. *)
Lemma sendMessage_spec (closure : list Message) (content : string) (fresh : Fresh)
  (net : FetchOutcome) (s : Session) :
  (0 <= maxRetries)%Z ->
  (0 <= retryCountRef s <= maxRetries)%Z ->
  (0 <= retryCountRef (fst (sendMessage closure content fresh net s)) <= maxRetries)%Z
  /\ (never_error_status s ->
      never_error_status (fst (sendMessage closure content fresh net s))).
Proof.
  intros Hm Hb. unfold Client.sendMessage.
  destruct (validateInput content).
  2:{ cbn [fst]. split; [exact Hb|]. intros Hs.
      apply never_error_status_emit; [reflexivity|exact Hs]. }
  pose proof (await_response_spec fresh net (begin_request closure content fresh s))
    as [Q R].
  destruct (await_response JSON_parse fresh net (begin_request closure content fresh s))
    as [s2 [err|]]; cbn [fst snd] in *.
  - destruct R as [R _].
    assert (Hb2 : (0 <= retryCountRef s2 <= maxRetries)%Z).
    { rewrite R. exact Hb. }
    pose proof (on_catch_spec (assistantMessageId fresh) content err s2 Hb2) as [B N].
    destruct (Client.on_catch maxRetries (assistantMessageId fresh) content err s2)
      as [s3 timer]; cbn [fst] in *.
    split; [exact B|]. intros Hs.
    apply N, Q, begin_request_never_error, Hs.
  - split; [cbn; lia|]. intros Hs.
    apply Q, begin_request_never_error, Hs.
Qed.

Lemma submit_spec (closure : list Message) (content : string)
  (attempts : list (Fresh * FetchOutcome)) (s : Session) :
  (0 <= maxRetries)%Z ->
  (0 <= retryCountRef s <= maxRetries)%Z ->
  (0 <= retryCountRef (submit closure content attempts s) <= maxRetries)%Z
  /\ (never_error_status s -> never_error_status (submit closure content attempts s)).
Proof.
  intros Hm. revert s. induction attempts as [|[fresh net] rest IH]; intros s Hb.
  - cbn. auto.
  - cbn [Client.submit].
    pose proof (sendMessage_spec closure content fresh net s Hm Hb) as [B N].
    destruct (sendMessage closure content fresh net s) as [s' [delay|]]; cbn [fst] in *.
    + destruct (IH s' B) as [B' N']. auto.
    + auto.
Qed.

(** A failing attempt reaches the [catch] block with its exception and
    with the counter untouched. *)
Lemma await_response_fails (fresh : Fresh) (net : FetchOutcome) (s : Session) :
  fails net = true ->
  exists err,
    failure_of net = Some err
    /\ String.eqb (name err) "AbortError" = false
    /\ snd (await_response JSON_parse fresh net s) = Some err
    /\ retryCountRef (fst (await_response JSON_parse fresh net s)) = retryCountRef s.
Proof.
  intros Hf.
  pose proof (await_response_spec fresh net s) as [_ R].
  unfold fails in Hf. destruct (failure_of net) as [err|] eqn:Ef; [|discriminate].
  exists err. apply negb_true_iff in Hf.
  assert (E : snd (await_response JSON_parse fresh net s) = Some err).
  { destruct net as [e| |[|] http_status chunks [|e|]]; cbn in Ef; try discriminate;
      inversion Ef; subst; reflexivity. }
  rewrite E in R. destruct R as [R _]. repeat split; assumption.
Qed.

(** A failing attempt below the bound sets the retry timer. *)
Lemma sendMessage_retries (closure : list Message) (content : string) (fresh : Fresh)
  (net : FetchOutcome) (s : Session) :
  validateInput content = Valid ->
  fails net = true ->
  (retryCountRef s < maxRetries)%Z ->
  snd (sendMessage closure content fresh net s) = Some (1000 * (retryCountRef s + 1))%Z
  /\ retryCountRef (fst (sendMessage closure content fresh net s)) = (retryCountRef s + 1)%Z.
Proof.
  intros Hv Hf Hlt. unfold Client.sendMessage. rewrite Hv.
  destruct (await_response_fails fresh net (begin_request closure content fresh s) Hf)
    as (err & _ & Hn & E & R).
  destruct (await_response JSON_parse fresh net (begin_request closure content fresh s))
    as [s2 thrown]; cbn [fst snd] in *. subst thrown.
  change (retryCountRef (begin_request closure content fresh s))
    with (retryCountRef s) in R.
  rewrite on_catch_retry by (rewrite ?R; assumption).
  cbn. rewrite R. split; reflexivity.
Qed.

(** A failing attempt at the bound gives up. *)
Lemma sendMessage_gives_up (closure : list Message) (content : string) (fresh : Fresh)
  (net : FetchOutcome) (s : Session) :
  validateInput content = Valid ->
  fails net = true ->
  (maxRetries <= retryCountRef s)%Z ->
  snd (sendMessage closure content fresh net s) = None
  /\ retryCountRef (fst (sendMessage closure content fresh net s)) = retryCountRef s
  /\ status (fst (sendMessage closure content fresh net s)) = READY
  /\ lastError (fst (sendMessage closure content fresh net s)) =
     option_map message (failure_of net).
Proof.
  intros Hv Hf Hle. unfold Client.sendMessage. rewrite Hv.
  destruct (await_response_fails fresh net (begin_request closure content fresh s) Hf)
    as (err & Ef & Hn & E & R).
  destruct (await_response JSON_parse fresh net (begin_request closure content fresh s))
    as [s2 thrown]; cbn [fst snd] in *. subst thrown.
  change (retryCountRef (begin_request closure content fresh s))
    with (retryCountRef s) in R.
  assert (Hle2 : (maxRetries <= retryCountRef s2)%Z) by (rewrite R; exact Hle).
  destruct (on_catch_exhausted (assistantMessageId fresh) content err s2 Hn Hle2)
    as (T & L & S & C & _).
  destruct (Client.on_catch maxRetries (assistantMessageId fresh) content err s2)
    as [s3 timer]; cbn [fst snd] in *.
  rewrite Ef. cbn. repeat split; congruence.
Qed.

(** What a failing attempt below the bound leaves in the list: the
    messages that were there, the user message and the placeholder it
    appended, less those whose id is [assistantMessageId]. *)
Lemma failed_attempt_messages (closure : list Message) (content : string)
  (fresh : Fresh) (net : FetchOutcome) (s : Session) :
  validateInput content = Valid ->
  fails net = true ->
  (retryCountRef s < maxRetries)%Z ->
  map id (messages (fst (sendMessage closure content fresh net s))) =
  filter (fun i => negb (String.eqb i (assistantMessageId fresh)))
         (map id (messages s) ++ [user_id fresh; placeholder_id fresh]).
Proof.
  intros Hv Hf Hlt. unfold Client.sendMessage. rewrite Hv.
  destruct (await_response_fails fresh net (begin_request closure content fresh s) Hf)
    as (err & _ & Hn & E & R).
  assert (I : map id (messages (fst (await_response JSON_parse fresh net
                                       (begin_request closure content fresh s))))
              = (map id (messages s) ++ [user_id fresh; placeholder_id fresh])%list).
  { destruct net as [e| |[|] http_status chunks [|e|]]; try discriminate Hf;
      cbn [await_response negb fst Client.processStreamResponse];
      rewrite ?read_chunks_ids; cbn; rewrite !map_app, <- app_assoc; reflexivity. }
  destruct (await_response JSON_parse fresh net (begin_request closure content fresh s))
    as [s2 thrown]; cbn [fst snd] in *. subst thrown.
  change (retryCountRef (begin_request closure content fresh s))
    with (retryCountRef s) in R.
  rewrite on_catch_retry by (rewrite ?R; assumption).
  cbn [fst set_abortController emit setMessages set_retryCount messages].
  rewrite <- I. clear. induction (messages s2) as [|m l IH]; [reflexivity|].
  cbn [filter map]. destruct (negb (String.eqb (id m) (assistantMessageId fresh)));
    cbn [map]; now rewrite IH.
Qed.

(** The run of one submit whose attempts all fail, from any counter value
    within the bound: it stops at the attempt that finds the counter at
    [maxRetries]. *)
Lemma submit_exhausts (closure : list Message) (content : string)
  (attempts : list (Fresh * FetchOutcome)) (a0 : Fresh * FetchOutcome) (s : Session) :
  validateInput content = Valid ->
  forallb (fun a => fails (snd a)) attempts = true ->
  (retryCountRef s <= maxRetries)%Z ->
  List.length attempts = S (Z.to_nat (maxRetries - retryCountRef s)) ->
  retryCountRef (submit closure content attempts s) = maxRetries
  /\ status (submit closure content attempts s) = READY
  /\ lastError (submit closure content attempts s) =
     option_map message (failure_of (snd (last attempts a0)))
  /\ forall more,
       submit closure content (attempts ++ more) s = submit closure content attempts s.
Proof.
  intros Hv. revert s. induction attempts as [|[fresh net] rest IH]; intros s Hall Hb Hlen.
  - discriminate Hlen.
  - cbn [forallb snd] in Hall. apply andb_true_iff in Hall. destruct Hall as [Hf Hall].
    cbn [List.length] in Hlen. injection Hlen as Hlen.
    destruct (Z.ltb (retryCountRef s) maxRetries) eqn:E.
    + apply Z.ltb_lt in E.
      destruct (sendMessage_retries closure content fresh net s Hv Hf E) as [T C].
      assert (Hlen' : List.length rest
                      = S (Z.to_nat (maxRetries
                             - retryCountRef
                                 (fst (sendMessage closure content fresh net s))))).
      { rewrite C, Hlen. rewrite <- Z2Nat.inj_succ by lia. f_equal. lia. }
      assert (Hb' : (retryCountRef (fst (sendMessage closure content fresh net s))
                     <= maxRetries)%Z) by (rewrite C; lia).
      specialize (IH _ Hall Hb' Hlen').
      cbn [Client.submit app].
      destruct (sendMessage closure content fresh net s) as [s' timer];
        cbn [fst snd] in *. subst timer.
      destruct rest as [|a rest]; [discriminate Hlen'|].
      exact IH.
    + apply Z.ltb_ge in E.
      assert (Hz : Z.to_nat (maxRetries - retryCountRef s) = 0%nat) by lia.
      rewrite Hz in Hlen. destruct rest; [|discriminate Hlen].
      destruct (sendMessage_gives_up closure content fresh net s Hv Hf E)
        as (T & C & S' & L).
      cbn [Client.submit app last snd].
      destruct (sendMessage closure content fresh net s) as [s' timer];
        cbn [fst snd] in *. subst timer.
      repeat split; try assumption. lia.
Qed.

(** Every state the hook can reach has its retry counter between 0 and
    [maxRetries], and no [setStatus('error')] among its effects. *)
Lemma reachable_spec (s : Session) :
  (0 <= maxRetries)%Z ->
  Client.reachable JSON_parse maxRetries selectedModel s ->
  (0 <= retryCountRef s <= maxRetries)%Z /\ never_error_status s.
Proof.
  intros Hm R.
  induction R as [|closure content attempts s R [B N]
                  |closure content fresh chunks s R [B N]
                  |s R [B N]|s R [B N]|v s R [B N]].
  - split; [cbn; lia|reflexivity].
  - destruct (submit_spec closure content attempts s Hm B) as [B' N'].
    split; [exact B'|exact (N' N)].
  - split.
    + destruct (in_flight_refs closure content fresh chunks s) as (_ & _ & E & _).
      rewrite E. exact B.
    + unfold Client.in_flight. apply read_chunks_never_error.
      now apply begin_request_never_error.
  - split; [|now apply abortRequest_never_error].
    unfold abortRequest. now destruct (abortControllerRef s).
  - split; [exact B|]. unfold clearMessages.
    apply never_error_status_setStatus; [discriminate|exact N].
  - split; [exact B|exact N].
Qed.

(** C7 (as amended). In every state the hook can reach, the retry counter
    is at most [maxRetries] and the status has never been set to error.
    From any such state, when an attempt of a submit and the retries that
    follow it all fail, the submit stops at the failure that finds the
    counter at [maxRetries], which is after [maxRetries] minus the
    counter's value at the start retries (the counter is reset only by a
    success): no further attempt is made, the counter stands at
    [maxRetries], the error of the last failure is recorded in the
    session, and the status is ready. *)
Theorem retries_exhausted :
  (0 <= maxRetries)%Z ->
  (forall s,
     Client.reachable JSON_parse maxRetries selectedModel s ->
     (0 <= retryCountRef s <= maxRetries)%Z /\ never_error_status s)
  /\ (forall (closure : list Message) (content : string)
        (retried : list (Fresh * FetchOutcome)) (final : Fresh * FetchOutcome)
        (s : Session),
        Client.reachable JSON_parse maxRetries selectedModel s ->
        validateInput content = Valid ->
        List.length retried = Z.to_nat (maxRetries - retryCountRef s) ->
        forallb (fun a => fails (snd a)) (retried ++ [final]) = true ->
        retryCountRef (submit closure content (retried ++ [final]) s) = maxRetries
        /\ status (submit closure content (retried ++ [final]) s) = READY
        /\ lastError (submit closure content (retried ++ [final]) s) =
           option_map message (failure_of (snd final))
        /\ (forall more,
              submit closure content ((retried ++ [final]) ++ more) s =
              submit closure content (retried ++ [final]) s)).
Proof.
  intros Hm. split.
  - intros s R. now apply reachable_spec.
  - intros closure content retried final s R Hv Hlen Hall.
    destruct (reachable_spec s Hm R) as [B _].
    destruct (submit_exhausts closure content (retried ++ [final]) final s Hv Hall)
      as (C & S' & L & M).
    + lia.
    + rewrite length_app, Hlen. cbn. lia.
    + rewrite last_last in L. repeat split; assumption.
Qed.

End HookFacts.

(** ** Concrete runs *)
Section Runs.
Import JS Client Scenario.

(** C1. The server frames a provider failure as an [e:error] line, and the
    client reads that stream to its end: the error event is parsed and
    handled, the exception it raises is caught inside the line loop, and
    [sendMessage] ends as a success: no error recorded, no retry timer,
    counter 0, status ready, [onSuccess] called; the text before the
    failure stays in the placeholder. *)
Lemma error_frame_is_swallowed :
  last failing_frames "" =
    Server.frame JSON.stringify "e" (Server.error_data "Error: rate limit exceeded")
  /\ last (events (fst (read_chunks "msg-1000-b1" failing_frames initial_session))) JNull =
     JObj [("type", JStr "error"); ("error", JStr "Error: rate limit exceeded")]
  /\ snd (sendMessage [] "Hello" fresh1 (Responded true 200 failing_frames Done)
            initial_session) = None
  /\ lastError (fst (sendMessage [] "Hello" fresh1 (Responded true 200 failing_frames Done)
                       initial_session)) = None
  /\ retryCountRef (fst (sendMessage [] "Hello" fresh1
                           (Responded true 200 failing_frames Done)
                           initial_session)) = 0%Z
  /\ status (fst (sendMessage [] "Hello" fresh1 (Responded true 200 failing_frames Done)
                    initial_session)) = READY
  /\ flat_map (fun e => match e with
                        | SetStatus _ => []
                        | Fetch _ => []
                        | other => [other]
                        end)
       (trace (fst (sendMessage [] "Hello" fresh1 (Responded true 200 failing_frames Done)
                      initial_session))) = [OnSuccess]
  /\ map text (messages (fst (sendMessage [] "Hello" fresh1
                                (Responded true 200 failing_frames Done)
                                initial_session)))
     = [Some (JStr "Hello"); Some (JStr "H")].
Proof. vm_compute. repeat split. Qed.

(** C4. A first attempt that fails sets the timer to 1000 and raises the
    counter to 1, but the placeholder stays in the list: its id is the one
    [createMessage] generated, not [assistantMessageId], so the filter
    removes nothing.  The retry runs [sendMessage] again, which appends a
    second user message beside a second placeholder; the request it sends
    carries the history the callback closed over and one user message. *)
Lemma retry_keeps_placeholder_and_repeats_user :
  snd (sendMessage [] "Hello" fresh1 network_down initial_session) = Some 1000%Z
  /\ retryCountRef (fst (sendMessage [] "Hello" fresh1 network_down initial_session)) = 1%Z
  /\ map id (messages (fst (sendMessage [] "Hello" fresh1 network_down initial_session)))
     = ["user-1000-a1"; "msg-1000-c1"]
  /\ map (fun m => (id m, role m, text m))
       (messages (submit [] "Hello"
                    [(fresh1, network_down); (fresh2, Responded true 200 hi_frames Done)]
                    initial_session))
     = [("user-1000-a1", USER, Some (JStr "Hello"));
        ("msg-1000-c1", ASSISTANT, None);
        ("user-2000-a2", USER, Some (JStr "Hello"));
        ("msg-2000-c2", ASSISTANT, Some (JStr "Hi"))]
  /\ map (fun b => map id (req_messages b))
       (flat_map (fun e => match e with Fetch b => [b] | _ => [] end)
          (trace (submit [] "Hello"
                    [(fresh1, network_down); (fresh2, Responded true 200 hi_frames Done)]
                    initial_session)))
     = [["user-1000-a1"]; ["user-2000-a2"]].
Proof. vm_compute. repeat split. Qed.

(** [sendMessage] itself is not a no-op while the status is streaming:
    called then, it appends a user message and a placeholder and sends a
    second request. *)
Lemma sendMessage_while_streaming :
  status (in_flight [] "Hello" fresh1 (firstn 4 hi_frames) initial_session) = STREAMING
  /\ List.length
       (messages (in_flight [] "Hello" fresh1 (firstn 4 hi_frames) initial_session)) = 2
  /\ List.length
       (messages
          (fst (sendMessage
                  (messages (in_flight [] "Hello" fresh1 (firstn 4 hi_frames)
                               initial_session))
                  "Again" fresh2 (Responded true 200 hi_frames Done)
                  (in_flight [] "Hello" fresh1 (firstn 4 hi_frames) initial_session)))) = 4
  /\ List.length
       (filter is_fetch
          (trace
             (fst (sendMessage
                     (messages (in_flight [] "Hello" fresh1 (firstn 4 hi_frames)
                                  initial_session))
                     "Again" fresh2 (Responded true 200 hi_frames Done)
                     (in_flight [] "Hello" fresh1 (firstn 4 hi_frames)
                        initial_session))))) = 2.
Proof. vm_compute. repeat split. Qed.

(** C7. The status never passes through error: with [maxRetries] 3, after
    three attempts that failed the status is still streaming and no error
    is recorded (the third retry is pending); after the fourth, the
    statuses set are streaming four times and then ready, never error; and
    no message carries the error that the session records. *)
Lemma exhausted_retries_set_no_error_status :
  status (submit [] "Hello"
            [(fresh1, network_down); (fresh2, network_down); (fresh3, network_down)]
            initial_session) = STREAMING
  /\ lastError (submit [] "Hello"
                  [(fresh1, network_down); (fresh2, network_down);
                   (fresh3, network_down)] initial_session) = None
  /\ flat_map (fun e => match e with SetStatus st => [st] | _ => [] end)
    (trace (submit [] "Hello"
              [(fresh1, network_down); (fresh2, network_down);
               (fresh3, network_down); (fresh4, network_down)] initial_session))
  = [STREAMING; STREAMING; STREAMING; STREAMING; READY]
  /\ lastError (submit [] "Hello"
                  [(fresh1, network_down); (fresh2, network_down);
                   (fresh3, network_down); (fresh4, network_down)] initial_session)
     = Some "Failed to fetch"
  /\ filter (fun m => match error m with Some _ => true | None => false end)
       (messages (submit [] "Hello"
                    [(fresh1, network_down); (fresh2, network_down);
                     (fresh3, network_down); (fresh4, network_down)] initial_session))
     = [].
Proof. vm_compute. repeat split. Qed.

(** C9. The last buffer is not handled as a line in every case: a
    text-delta that arrives as the unterminated last buffer is dropped,
    while the same line followed by a newline puts its text into the
    placeholder. *)
Lemma unterminated_text_delta_is_dropped :
  map text
    (messages (fst (processStreamResponse "msg-1000-b1"
                      [text_start_frame; text_delta_unterminated] Done
                      (begin_request selectedModel [] "Hello" fresh1 initial_session))))
  = [Some (JStr "Hello"); None]
  /\ map text
       (messages (fst (processStreamResponse "msg-1000-b1"
                         [text_start_frame; text_delta_unterminated; Server.nl] Done
                         (begin_request selectedModel [] "Hello" fresh1 initial_session))))
     = [Some (JStr "Hello"); Some (JStr "Hi")].
Proof. vm_compute. repeat split. Qed.

(** *** The theorems at work on the conversation *)

(** C2 at work: the stream [start], [finish] delivered whole and in four
    pieces cut inside the frames. *)
Lemma split_invariance_witness :
  forallb no_newline [start_line; finish_line] = true
  /\ concat_strings whole = unlines [start_line; finish_line]
  /\ concat_strings pieces = unlines [start_line; finish_line]
  /\ read_chunks "m" whole initial_session = read_chunks "m" pieces initial_session
  /\ read_chunks "m" whole initial_session =
     fold_left (on_line JSON.parse "m") [start_line; finish_line]
       (initial_reader, initial_session)
  /\ events (fst (read_chunks "m" whole initial_session)) =
     filter truthy (map (parseStreamData JSON.parse) [start_line; finish_line])
  /\ (forall ending,
        processStreamResponse "m" whole ending initial_session =
        processStreamResponse "m" pieces ending initial_session).
Proof.
  split; [reflexivity|]. split; [reflexivity|]. split; [reflexivity|].
  apply (split_invariance JSON.parse "m" [start_line; finish_line] whole pieces
           initial_session); reflexivity.
Defined.

(** C6 at work: a line whose payload is not JSON, between two deltas. *)
Lemma fault_isolation_witness :
  (tagged malformed_line = false
   \/ JSON.parse (substring_from 2 malformed_line) = None)
  /\ parseStreamData JSON.parse malformed_line = JNull
  /\ (forall st, on_line JSON.parse "m" st malformed_line = st)
  /\ read_chunks "m"
       [delta_line "a" ++ Server.nl ++ malformed_line ++ Server.nl
        ++ delta_line "b" ++ Server.nl] initial_session
     = read_chunks "m" [delta_line "a" ++ Server.nl; delta_line "b" ++ Server.nl]
         initial_session
  /\ events (fst (read_chunks "m"
                    [delta_line "a" ++ Server.nl ++ malformed_line ++ Server.nl
                     ++ delta_line "b" ++ Server.nl] initial_session))
     = filter truthy (map (parseStreamData JSON.parse)
                        ([delta_line "a"] ++ [delta_line "b"])).
Proof.
  assert (H : tagged malformed_line = false
              \/ JSON.parse (substring_from 2 malformed_line) = None)
    by (right; reflexivity).
  split; [exact H|].
  apply (fault_isolation JSON.parse "m" malformed_line [delta_line "a"] [delta_line "b"]
           [delta_line "a" ++ Server.nl ++ malformed_line ++ Server.nl
            ++ delta_line "b" ++ Server.nl]
           [delta_line "a" ++ Server.nl; delta_line "b" ++ Server.nl]
           initial_session H); reflexivity.
Defined.

(** C10 at work: the stream stops after the first delta, with no finish
    and no error frame. *)
Lemma truncated_stream_witness :
  validateInput "Hello" = Valid
  /\ status (fst (sendMessage [] "Hello" fresh1
                    (Responded true 200 (firstn 4 hi_frames) Done) initial_session))
     = READY
  /\ retryCountRef (fst (sendMessage [] "Hello" fresh1
                           (Responded true 200 (firstn 4 hi_frames) Done)
                           initial_session)) = 0%Z
  /\ lastError (fst (sendMessage [] "Hello" fresh1
                       (Responded true 200 (firstn 4 hi_frames) Done)
                       initial_session)) = None
  /\ snd (sendMessage [] "Hello" fresh1
            (Responded true 200 (firstn 4 hi_frames) Done) initial_session) = None.
Proof.
  split; [reflexivity|].
  destruct (truncated_stream_is_success JSON.parse maxRetries selectedModel
              [] "Hello" fresh1 200 (firstn 4 hi_frames) initial_session)
    as (_ & S & C & L & T & _).
  - reflexivity.
  - vm_compute. reflexivity.
  - split; [exact S|]. split; [exact C|]. split; [exact L|exact T].
Defined.

(** C8 at work: the user cancels after the first delta. *)
Lemma cancel_keeps_text_witness :
  validateInput "Hello" = Valid
  /\ status (fst (sendMessage [] "Hello" fresh1
                    (Responded true 200 (firstn 4 hi_frames) ReadCancelled)
                    initial_session)) = READY
  /\ lastError (fst (sendMessage [] "Hello" fresh1
                       (Responded true 200 (firstn 4 hi_frames) ReadCancelled)
                       initial_session)) = None
  /\ snd (sendMessage [] "Hello" fresh1
            (Responded true 200 (firstn 4 hi_frames) ReadCancelled)
            initial_session) = None
  /\ messages (fst (sendMessage [] "Hello" fresh1
                      (Responded true 200 (firstn 4 hi_frames) ReadCancelled)
                      initial_session))
     = messages (in_flight [] "Hello" fresh1 (firstn 4 hi_frames) initial_session).
Proof.
  split; [reflexivity|].
  destruct (cancel_keeps_text JSON.parse maxRetries selectedModel
              [] "Hello" fresh1
              (Responded true 200 (firstn 4 hi_frames) ReadCancelled)
              (firstn 4 hi_frames) initial_session)
    as (S & L & T & _ & M & _).
  - reflexivity.
  - reflexivity.
  - split; [exact S|]. split; [exact L|]. split; [exact T|exact M].
Defined.

(** C5 at work: a submit from the input area while the first answer is
    streaming. *)
Lemma input_guard_witness :
  status (in_flight [] "Hello" fresh1 (firstn 4 hi_frames) initial_session) = STREAMING
  /\ handleSubmit false
       (messages (in_flight [] "Hello" fresh1 (firstn 4 hi_frames) initial_session))
       "Again" fresh2 (Responded true 200 hi_frames Done)
       (in_flight [] "Hello" fresh1 (firstn 4 hi_frames) initial_session)
     = (in_flight [] "Hello" fresh1 (firstn 4 hi_frames) initial_session, None).
Proof.
  split; [reflexivity|].
  apply (input_guard_while_streaming JSON.parse maxRetries selectedModel). reflexivity.
Defined.

(** C7 at work: the default three retries, the server unreachable.  A
    first submit is retried three times and given up; the counter stays
    at three, so the next submit is given up at its first failure. *)
Lemma retries_exhausted_witness :
  (0 <= maxRetries)%Z
  /\ retryCountRef
       (submit [] "Hello"
          ([(fresh1, network_down); (fresh2, network_down); (fresh3, network_down)]
           ++ [(fresh4, network_down)]) initial_session) = maxRetries
  /\ status
       (submit [] "Hello"
          ([(fresh1, network_down); (fresh2, network_down); (fresh3, network_down)]
           ++ [(fresh4, network_down)]) initial_session) = READY
  /\ lastError
       (submit [] "Hello"
          ([(fresh1, network_down); (fresh2, network_down); (fresh3, network_down)]
           ++ [(fresh4, network_down)]) initial_session)
     = Some "Failed to fetch"
  /\ retryCountRef
       (submit [] "Again" ([] ++ [(Cases.fresh5, network_down)])
          (submit [] "Hello"
             [(fresh1, network_down); (fresh2, network_down); (fresh3, network_down);
              (fresh4, network_down)] initial_session)) = maxRetries
  /\ status
       (submit [] "Again" ([] ++ [(Cases.fresh5, network_down)])
          (submit [] "Hello"
             [(fresh1, network_down); (fresh2, network_down); (fresh3, network_down);
              (fresh4, network_down)] initial_session)) = READY
  /\ (forall attempts,
        (0 <= retryCountRef (submit [] "Hello" attempts initial_session) <= maxRetries)%Z
        /\ never_error_status (submit [] "Hello" attempts initial_session)).
Proof.
  split; [discriminate|].
  destruct (retries_exhausted JSON.parse maxRetries selectedModel) as [A B];
    [discriminate|].
  destruct (B [] "Hello"
              [(fresh1, network_down); (fresh2, network_down); (fresh3, network_down)]
              (fresh4, network_down) initial_session)
    as (C & S & L & _).
  - apply reach_initial.
  - reflexivity.
  - reflexivity.
  - reflexivity.
  - destruct (B [] "Again" [] (Cases.fresh5, network_down)
                (submit [] "Hello"
                   [(fresh1, network_down); (fresh2, network_down);
                    (fresh3, network_down); (fresh4, network_down)] initial_session))
      as (C' & S' & _).
    + apply reach_submit, reach_initial.
    + reflexivity.
    + reflexivity.
    + reflexivity.
    + split; [exact C|]. split; [exact S|]. split; [exact L|].
      split; [exact C'|]. split; [exact S'|].
      intros attempts. apply A. apply reach_submit, reach_initial.
Defined.

End Runs.

(** * Further properties *)

(** ** The framer when the provider fails *)
Section FramerFailure.
Import JS Server.

Variable JSON_stringify : json -> string.

Local Abbreviation frame := (Server.frame JSON_stringify).

Lemma frame_not_finish (tag_rest : string) (c : ascii) (payload : json) :
  c <> "d"%char ->
  Server.frame JSON_stringify (String c tag_rest) payload <> finish_frame.
Proof.
  intros Hc H. unfold Server.frame, finish_frame in H. cbn [append] in H.
  injection H as H _. contradiction.
Qed.

(** X1. When the provider's stream throws, the response holds the start
    frame, the empty snapshot, the text-start, one delta frame per
    non-empty fragment received before the failure, and then exactly one
    error frame, which is last and carries the text of the error; no
    text-end, no final snapshot and no finish frame is written, and the
    response is ended with status 200.  The frames are spelled out as in
    the exhausted case. *)
Theorem framer_failure (Date_now : Z) (cs : list Chunk) (error : string) :
  let messageId := "msg_" ++ number_toString Date_now in
  let textPartId := "text-" ++ messageId in
  let deltas :=
    flat_map (fun c => match choices c with
                       | {| delta := Some {| content := Some (String a t) |} |} :: _ =>
                           [String a t]
                       | _ => []
                       end) cs in
  let line := fun (tag : string) (payload : json) =>
    tag ++ ":" ++ JSON_stringify payload ++ String newline "" in
  let start := "0:{" ++ quoted "type" ++ ":" ++ quoted "start" ++ "}" ++ String newline "" in
  let finish := "d:{" ++ quoted "type" ++ ":" ++ quoted "finish" ++ "}" ++ String newline "" in
  let response :=
    getHello JSON_stringify Date_now
      (ServiceStream {| chunks := cs; ending := Failed error |}) in
  written response =
    ([start;
      line "0" (JObj [("type", JStr "message");
                      ("message", JObj [("id", JStr messageId);
                                        ("role", JStr "assistant");
                                        ("parts", JArr [])])]);
      line "0" (JObj [("type", JStr "text-start"); ("id", JStr textPartId)])]
     ++ map (fun d => line "0" (JObj [("type", JStr "text-delta");
                                      ("id", JStr textPartId);
                                      ("delta", JStr d)])) deltas
     ++ [line "e" (JObj [("type", JStr "error"); ("error", JStr error)])])%list
  /\ ~ In finish (written response)
  /\ ended response = true
  /\ statusCode response = 200%Z.
Proof.
  cbv zeta. rewrite <- (fragments_contents cs (Failed error)).
  assert (W : written (getHello JSON_stringify Date_now
                         (ServiceStream {| chunks := cs; ending := Failed error |})) =
              ([start_frame;
                frame "0" (initialMessage ("msg_" ++ number_toString Date_now));
                frame "0" (text_start ("text-" ++ "msg_" ++ number_toString Date_now))]
               ++ map (fun d => frame "0"
                                  (text_delta ("text-" ++ "msg_" ++ number_toString Date_now) d))
                    (fragments {| chunks := cs; ending := Failed error |})
               ++ [frame "e" (error_data error)])%list).
  { unfold getHello, stream_frames. cbn [chunks ending].
    rewrite framer_loop. cbn [fullText res].
    rewrite written_end, !written_write. cbn [written].
    rewrite written_stream_headers.
    unfold fragments. cbn [written initial_response chunks append].
    now rewrite <- !app_assoc. }
  split; [exact W|]. split; [|split].
  - rewrite W. intros H. apply in_app_or in H. destruct H as [H|H].
    + cbn [In] in H. destruct H as [H|[H|[H|[]]]].
      * unfold start_frame in H. cbn [append] in H. discriminate H.
      * revert H. apply frame_not_finish. discriminate.
      * revert H. apply frame_not_finish. discriminate.
    + apply in_app_or in H. destruct H as [H|H].
      * apply in_map_iff in H. destruct H as (d & H & _).
        revert H. apply frame_not_finish. discriminate.
      * cbn [In] in H. destruct H as [H|[]].
        revert H. apply frame_not_finish. discriminate.
  - unfold getHello, stream_frames. cbn [chunks ending]. reflexivity.
  - unfold getHello, stream_frames. cbn [chunks ending].
    rewrite framer_loop. reflexivity.
Qed.

End FramerFailure.

(** ** [trim], [validateInput] and the input area *)
Section TrimFacts.
Import JS Client Terms.

Lemma rev_string_acc (s acc : string) : rev_string acc s = rev_string "" s ++ acc.
Proof.
  revert acc. induction s as [|c s IH]; intros acc; [reflexivity|].
  cbn [rev_string]. rewrite (IH (String c acc)), (IH (String c "")).
  now rewrite append_assoc.
Qed.

Lemma rev_string_app (a b : string) :
  rev_string "" (a ++ b) = rev_string "" b ++ rev_string "" a.
Proof.
  induction a as [|c a IH]; cbn [append rev_string].
  - now rewrite append_nil_r.
  - rewrite (rev_string_acc (a ++ b) (String c "")), IH,
      (rev_string_acc a (String c "")).
    now rewrite append_assoc.
Qed.

Lemma rev_string_involutive (s : string) : rev_string "" (rev_string "" s) = s.
Proof.
  induction s as [|c s IH]; [reflexivity|].
  cbn [rev_string]. rewrite (rev_string_acc s (String c "")), rev_string_app, IH.
  reflexivity.
Qed.

Lemma append_length (a b : string) :
  String.length (a ++ b) = String.length a + String.length b.
Proof. induction a as [|c a IH]; cbn; [reflexivity | now rewrite IH]. Qed.

Lemma rev_string_length (s : string) :
  String.length (rev_string "" s) = String.length s.
Proof.
  induction s as [|c s IH]; [reflexivity|].
  cbn [rev_string]. rewrite (rev_string_acc s (String c "")), append_length, IH.
  cbn. lia.
Qed.

Lemma rev_string_concat (l : list string) :
  rev_string "" (concat_strings l)
  = concat_strings (map (rev_string "") (rev l)).
Proof.
  induction l as [|x l IH]; [reflexivity|].
  cbn [concat_strings rev]. rewrite rev_string_app, IH, map_app, concat_strings_app.
  cbn [map concat_strings]. now rewrite append_nil_r.
Qed.

Lemma utf16_length_app (a b : string) :
  utf16_length (a ++ b) = utf16_length a + utf16_length b.
Proof.
  induction a as [|c a IH]; cbn [append utf16_length]; [reflexivity|].
  rewrite IH. lia.
Qed.

(** *** Prefixes *)

Lemma drop_prefix_some (p s r : string) : drop_prefix p s = Some r -> s = p ++ r.
Proof.
  revert s. induction p as [|a p IH]; intros s H.
  - cbn in H. injection H as <-. reflexivity.
  - destruct s as [|b s]; [discriminate H|]. cbn [drop_prefix] in H.
    destruct (Ascii.eqb a b) eqn:E; [|discriminate H].
    apply Ascii.eqb_eq in E. subst b. cbn [append]. f_equal. now apply IH.
Qed.

Lemma drop_prefix_app (p r : string) : drop_prefix p (p ++ r) = Some r.
Proof.
  induction p as [|a p IH]; [reflexivity|].
  cbn [append drop_prefix]. now rewrite Ascii.eqb_refl.
Qed.

Lemma strip_any_some (ws : list string) (s r : string) :
  strip_any ws s = Some r -> exists w, In w ws /\ s = w ++ r.
Proof.
  induction ws as [|w ws IH]; [discriminate|]. cbn [strip_any].
  destruct (drop_prefix w s) as [r'|] eqn:E.
  - intros H. injection H as <-. exists w. split; [now left|].
    now apply drop_prefix_some.
  - intros H. destruct (IH H) as (w' & Hin & Hs). exists w'. split; [now right|exact Hs].
Qed.

Lemma strip_any_in (ws : list string) (w r : string) :
  In w ws -> strip_any ws (w ++ r) <> None.
Proof.
  induction ws as [|w' ws IH]; intros Hin; [contradiction|]. cbn [strip_any].
  destruct (drop_prefix w' (w ++ r)) eqn:E; [discriminate|].
  destruct Hin as [->|Hin]; [|now apply IH].
  rewrite drop_prefix_app in E. discriminate E.
Qed.

(** What begins with none of the words keeps doing so when it is cut
    short. *)
Lemma starts_clean_prefix (ws : list string) (t q : string) :
  starts_clean ws (t ++ q) -> starts_clean ws t.
Proof.
  unfold starts_clean. intros H.
  destruct (strip_any ws t) as [r|] eqn:E; [|reflexivity].
  destruct (strip_any_some _ _ _ E) as (w & Hin & ->).
  rewrite append_assoc in H. now apply strip_any_in in H.
Qed.

Lemma strip_all_clean (ws : list string) (fuel : nat) (s : string) :
  starts_clean ws s -> strip_all ws fuel s = s.
Proof.
  unfold starts_clean. intros H. destruct fuel; [reflexivity|].
  cbn [strip_all]. now rewrite H.
Qed.

(** Stripping removes words from the front until none is left there. *)
Lemma strip_all_spec (ws : list string) (fuel : nat) (s : string) :
  Forall (fun w => w <> "") ws ->
  String.length s <= fuel ->
  exists l, Forall (fun w => In w ws) l
            /\ s = concat_strings l ++ strip_all ws fuel s
            /\ starts_clean ws (strip_all ws fuel s).
Proof.
  intros Hne. revert s. induction fuel as [|fuel IH]; intros s Hlen.
  - destruct s as [|c s]; [|cbn in Hlen; lia].
    exists []. repeat split; [constructor|].
    unfold starts_clean. cbn [strip_all].
    destruct (strip_any ws "") as [r|] eqn:E; [|reflexivity].
    destruct (strip_any_some _ _ _ E) as (w & Hin & Hs).
    rewrite Forall_forall in Hne. specialize (Hne w Hin).
    destruct w; [contradiction|discriminate Hs].
  - cbn [strip_all]. destruct (strip_any ws s) as [r|] eqn:E.
    + destruct (strip_any_some _ _ _ E) as (w & Hin & Hs).
      assert (Hw : w <> "") by (rewrite Forall_forall in Hne; now apply Hne).
      destruct (IH r) as (l & Hl & Hr & Hc).
      { subst s. rewrite append_length in Hlen.
        destruct w; [contradiction|]. cbn in Hlen. lia. }
      exists (w :: l). split; [now constructor|]. split; [|exact Hc].
      cbn [concat_strings]. rewrite append_assoc, <- Hr. exact Hs.
    + exists []. repeat split; [constructor|exact E].
Qed.

(** A text made of words and beginning with none is empty. *)
Lemma words_clean_nil (ws : list string) (l : list string) :
  Forall (fun w => w <> "") ws ->
  Forall (fun w => In w ws) l ->
  starts_clean ws (concat_strings l) ->
  concat_strings l = "".
Proof.
  intros Hne Hl Hc. destruct l as [|w l]; [reflexivity|].
  inversion Hl as [|? ? Hin _]; subst. cbn [concat_strings] in Hc.
  now apply strip_any_in in Hc.
Qed.

(** *** [trim] *)

Lemma white_space_nonempty : Forall (fun w => w <> "") white_space.
Proof. repeat constructor; discriminate. Qed.

Lemma white_space_rev_nonempty :
  Forall (fun w => w <> "") (map (rev_string "") white_space).
Proof. repeat constructor; discriminate. Qed.

Lemma trim_start_spec (s : string) :
  exists l, Forall (fun w => In w white_space) l
            /\ s = concat_strings l ++ trim_start s
            /\ starts_clean white_space (trim_start s).
Proof. apply strip_all_spec; [apply white_space_nonempty|apply Nat.le_refl]. Qed.

Lemma trim_end_spec (t : string) :
  exists l, Forall (fun w => In w white_space) l
            /\ t = trim_end t ++ concat_strings l
            /\ starts_clean (map (rev_string "") white_space)
                 (rev_string "" (trim_end t)).
Proof.
  destruct (strip_all_spec (map (rev_string "") white_space) (String.length t)
              (rev_string "" t) white_space_rev_nonempty) as (l & Hl & Hs & Hc).
  { rewrite rev_string_length. apply Nat.le_refl. }
  exists (map (rev_string "") (rev l)). split; [|split].
  - apply Forall_forall. intros w Hw. apply in_map_iff in Hw.
    destruct Hw as (x & <- & Hx). apply in_rev in Hx.
    rewrite Forall_forall in Hl. specialize (Hl x Hx). apply in_map_iff in Hl.
    destruct Hl as (y & <- & Hy). now rewrite rev_string_involutive.
  - unfold trim_end. rewrite <- rev_string_concat, <- rev_string_app, <- Hs.
    now rewrite rev_string_involutive.
  - unfold trim_end. now rewrite rev_string_involutive.
Qed.

Lemma trim_start_unchanged (s : string) :
  starts_clean white_space s -> trim_start s = s.
Proof. apply strip_all_clean. Qed.

Lemma trim_end_unchanged (t : string) :
  starts_clean (map (rev_string "") white_space) (rev_string "" t) -> trim_end t = t.
Proof.
  intros H. unfold trim_end. rewrite strip_all_clean by exact H.
  apply rev_string_involutive.
Qed.

Lemma trim_idempotent (s : string) : trim (trim s) = trim s.
Proof.
  unfold trim.
  destruct (trim_start_spec s) as (_ & _ & _ & Hc).
  destruct (trim_end_spec (trim_start s)) as (l & _ & Ht & Hr).
  rewrite trim_start_unchanged.
  - now apply trim_end_unchanged.
  - rewrite Ht in Hc. now apply starts_clean_prefix in Hc.
Qed.

Lemma trim_length (s : string) : utf16_length (trim s) <= utf16_length s.
Proof.
  unfold trim.
  destruct (trim_start_spec s) as (l & _ & Hs & _).
  destruct (trim_end_spec (trim_start s)) as (l' & _ & Ht & _).
  rewrite Hs at 2. rewrite Ht at 2. rewrite !utf16_length_app. lia.
Qed.

Lemma all_space_trim_start (s : string) :
  all_space s = true <-> trim_start s = "".
Proof.
  unfold all_space, trim_start. generalize (String.length s) as fuel.
  intros fuel. revert s. induction fuel as [|fuel IH]; intros s.
  - destruct s; cbn; split; (reflexivity || discriminate).
  - destruct s as [|c s].
    + cbn [all_space_from strip_all].
      destruct (strip_any white_space "") as [r|] eqn:E; [|split; reflexivity].
      destruct (strip_any_some _ _ _ E) as (w & Hin & Hs).
      pose proof white_space_nonempty as Hne. rewrite Forall_forall in Hne.
      specialize (Hne w Hin). destruct w; [contradiction|discriminate Hs].
    + cbn [all_space_from strip_all].
      destruct (strip_any white_space (String c s)) as [r|]; [apply IH|].
      split; discriminate.
Qed.

Lemma trim_empty_iff (s : string) : trim s = "" <-> all_space s = true.
Proof.
  rewrite all_space_trim_start. unfold trim. split.
  - intros E.
    destruct (trim_start_spec s) as (_ & _ & _ & Hc).
    destruct (trim_end_spec (trim_start s)) as (l & Hl & Ht & _).
    rewrite E in Ht. cbn [append] in Ht. rewrite Ht in *.
    apply (words_clean_nil white_space l white_space_nonempty Hl Hc).
  - intros ->. reflexivity.
Qed.

(** A text that begins with a character of no white-space code point is
    not blank. *)
Lemma all_space_first (c : ascii) (rest : string) :
  forallb (fun w => match w with
                    | String a _ => negb (Ascii.eqb a c)
                    | EmptyString => false
                    end) white_space = true ->
  all_space (String c rest) = false.
Proof.
  intros H. unfold all_space. cbn [String.length all_space_from].
  destruct (strip_any white_space (String c rest)) as [r|] eqn:E; [|reflexivity].
  destruct (strip_any_some _ _ _ E) as (w & Hin & Hs).
  rewrite forallb_forall in H. specialize (H w Hin).
  destruct w as [|a w]; [discriminate H|].
  cbn [append] in Hs. injection Hs as <- _. now rewrite Ascii.eqb_refl in H.
Qed.

End TrimFacts.

Section InputFacts.
Import JS Client Terms.

Variable JSON_parse : string -> option json.
Variable maxRetries : Z.
Variable selectedModel : string.

Local Abbreviation parseStreamData := (Client.parseStreamData JSON_parse).
Local Abbreviation sendMessage := (Client.sendMessage JSON_parse maxRetries selectedModel).
Local Abbreviation submit := (Client.submit JSON_parse maxRetries selectedModel).
Local Abbreviation handleSubmit := (Client.handleSubmit JSON_parse maxRetries selectedModel).

Lemma tagged_not_blank (line : string) :
  tagged line = true -> String.eqb (trim line) "" = false.
Proof.
  intros H. apply String.eqb_neq. intros E. apply trim_empty_iff in E.
  unfold tagged, startsWith in H.
  destruct line as [|c line]; [discriminate H|].
  cbn [String.prefix] in H.
  destruct (Ascii.ascii_dec "0" c) as [<-|_];
    [now rewrite all_space_first in E by reflexivity|].
  destruct (Ascii.ascii_dec "d" c) as [<-|_];
    [now rewrite all_space_first in E by reflexivity|].
  destruct (Ascii.ascii_dec "e" c) as [<-|_];
    [now rewrite all_space_first in E by reflexivity|].
  discriminate H.
Qed.

(** X2. The result of [parseStreamData] is decided by the tag and the
    parser alone: a line that carries none of the three tags gives
    [null], and a tagged line gives what [JSON.parse] makes of the text
    after the tag ([null] when it throws); the test for a blank line
    changes nothing.  Which of the tags a line carries makes no
    difference to the data: the same payload parses the same under [0:],
    [d:] and [e:]. *)
Theorem parseStreamData_by_tag (line payload : string) :
  parseStreamData line =
    (if tagged line
     then match JSON_parse (substring_from 2 line) with
          | Some data => data
          | None => JNull
          end
     else JNull)
  /\ parseStreamData ("d:" ++ payload) = parseStreamData ("0:" ++ payload)
  /\ parseStreamData ("e:" ++ payload) = parseStreamData ("0:" ++ payload).
Proof.
  assert (G : forall l, parseStreamData l =
                        if tagged l
                        then match JSON_parse (substring_from 2 l) with
                             | Some data => data
                             | None => JNull
                             end
                        else JNull).
  { intros l. unfold Client.parseStreamData. fold (tagged l).
    destruct (tagged l) eqn:T.
    - now rewrite (tagged_not_blank l T).
    - now destruct (String.eqb (trim l) ""). }
  split; [apply G|]. rewrite !G. destruct payload; split; reflexivity.
Qed.

Lemma validateInput_trim (input : string) :
  validateInput (trim input) = validateInput input.
Proof. unfold validateInput. now rewrite trim_idempotent. Qed.

Lemma validateInput_by_length (input : string) :
  validateInput input =
  (if all_space input then Invalid "Input cannot be empty"
   else if Nat.leb (utf16_length (trim input)) 4000 then Valid
        else Invalid "Input too long (max 4000 characters)").
Proof.
  unfold validateInput.
  destruct (all_space input) eqn:A.
  - apply trim_empty_iff in A. now rewrite A.
  - destruct (String.eqb (trim input) "") eqn:E.
    + apply String.eqb_eq, trim_empty_iff in E. congruence.
    + destruct (Nat.ltb 4000 (utf16_length (trim input))) eqn:L.
      * apply Nat.ltb_lt in L.
        destruct (Nat.leb (utf16_length (trim input)) 4000) eqn:L'; [|reflexivity].
        apply Nat.leb_le in L'. lia.
      * apply Nat.ltb_ge in L.
        destruct (Nat.leb (utf16_length (trim input)) 4000) eqn:L'; [reflexivity|].
        apply Nat.leb_gt in L'. lia.
Qed.

(** X3. [validateInput] looks at the trimmed text only: a text and its
    trimmed form are judged alike.  A text of white-space code points
    only (those of Unicode that [trim] removes, not only the ASCII ones)
    is refused as empty; otherwise it is accepted exactly when the
    trimmed text has at most 4000 UTF-16 code units, 4000 included. *)
Theorem validateInput_trimmed (input : string) :
  validateInput (trim input) = validateInput input
  /\ validateInput input =
     (if all_space input then Invalid "Input cannot be empty"
      else if Nat.leb (utf16_length (trim input)) 4000 then Valid
           else Invalid "Input too long (max 4000 characters)").
Proof.
  split; [apply validateInput_trim | apply validateInput_by_length].
Qed.

(** X4. [sendMessage] on a text that is white space only, or longer than
    4000 UTF-16 code units once trimmed: the error is recorded and [onError]
    called, and nothing else happens.  No message is appended, no request
    is sent, no timer is set, and the status, the input, the retry
    counter and the abort controller are as they were; a submit makes
    this one call and stops. *)
Theorem invalid_input_sends_nothing (closure : list Message) (content : string)
  (fresh : Fresh) (net : FetchOutcome) (rest : list (Fresh * FetchOutcome))
  (s : Session) :
  all_space content = true \/ 4000 < utf16_length (trim content) ->
  exists reason,
    validateInput content = Invalid reason
    /\ sendMessage closure content fresh net s =
       (emit (OnError reason) (setError (Some reason) s), None)
    /\ messages (fst (sendMessage closure content fresh net s)) = messages s
    /\ status (fst (sendMessage closure content fresh net s)) = status s
    /\ retryCountRef (fst (sendMessage closure content fresh net s)) = retryCountRef s
    /\ requests (trace (fst (sendMessage closure content fresh net s)))
       = requests (trace s)
    /\ timer_delays (trace (fst (sendMessage closure content fresh net s)))
       = timer_delays (trace s)
    /\ lastError (fst (sendMessage closure content fresh net s)) = Some reason
    /\ submit closure content ((fresh, net) :: rest) s
       = fst (sendMessage closure content fresh net s).
Proof.
  intros H.
  assert (V : exists reason, validateInput content = Invalid reason).
  { rewrite (validateInput_by_length content).
    destruct H as [H|H].
    - rewrite H. eauto.
    - destruct (all_space content); [eauto|].
      destruct (Nat.leb (utf16_length (trim content)) 4000) eqn:L; [|eauto].
      apply Nat.leb_le in L. lia. }
  destruct V as [reason V]. exists reason.
  assert (E : sendMessage closure content fresh net s =
              (emit (OnError reason) (setError (Some reason) s), None)).
  { unfold Client.sendMessage. now rewrite V. }
  split; [exact V|]. split; [exact E|].
  cbn [Client.submit]. rewrite E. cbn [fst snd emit setError messages status
    retryCountRef trace lastError].
  unfold requests, timer_delays. rewrite !flat_map_app. cbn [flat_map].
  rewrite !app_nil_r. repeat split.
Qed.

(** The value of the input area never exceeds [maxLength], whatever is
    typed. *)
Lemma handleChange_bound (maxLength : nat) (typed : list string) (value : string) :
  utf16_length value <= maxLength ->
  utf16_length (fold_left (Input.handleChange maxLength) typed value) <= maxLength.
Proof.
  revert value. induction typed as [|v typed IH]; intros value H; [exact H|].
  cbn [fold_left]. apply IH. unfold Input.handleChange.
  destruct (Nat.leb (utf16_length v) maxLength) eqn:E; [|exact H].
  now apply Nat.leb_le.
Qed.

(** X5. Whatever is typed into the input area (each change passing
    through [handleChange] with the default limit of 4000), a submit from
    it never meets a validation error: [handleSubmit] either does
    nothing, or calls [sendMessage] with the trimmed value, and that
    value passes [validateInput]. *)
Theorem input_area_never_invalid (typed : list string) (connection_error : bool)
  (closure : list Message) (fresh : Fresh) (net : FetchOutcome) (s : Session) :
  handleSubmit connection_error closure
    (fold_left (Input.handleChange 4000) typed "") fresh net s = (s, None)
  \/ (validateInput (trim (fold_left (Input.handleChange 4000) typed "")) = Valid
      /\ handleSubmit connection_error closure
           (fold_left (Input.handleChange 4000) typed "") fresh net s
         = sendMessage closure (trim (fold_left (Input.handleChange 4000) typed ""))
             fresh net s).
Proof.
  set (value := fold_left (Input.handleChange 4000) typed "").
  assert (B : utf16_length value <= 4000).
  { apply handleChange_bound. cbn. lia. }
  unfold Client.handleSubmit.
  destruct (negb (String.eqb (trim value) "")
            && negb ((match status s with STREAMING => true | _ => false end)
                     || connection_error)
            && negb (match status s with STREAMING => true | _ => false end)) eqn:G;
    [right|left; reflexivity].
  split; [|reflexivity].
  apply andb_true_iff in G. destruct G as [G _].
  apply andb_true_iff in G. destruct G as [G _].
  apply negb_true_iff, String.eqb_neq in G.
  rewrite validateInput_trim, validateInput_by_length.
  destruct (all_space value) eqn:A.
  - apply trim_empty_iff in A. contradiction.
  - pose proof (trim_length value) as L.
    destruct (Nat.leb (utf16_length (trim value)) 4000) eqn:L'; [reflexivity|].
    apply Nat.leb_gt in L'. lia.
Qed.

End InputFacts.

(** ** What the stream handlers do to the message list *)
Section MessageListFacts.
Import JS Client Terms.

Variable JSON_parse : string -> option json.

Local Abbreviation parseStreamData := (Client.parseStreamData JSON_parse).
Local Abbreviation on_line := (Client.on_line JSON_parse).
Local Abbreviation on_chunk := (Client.on_chunk JSON_parse).
Local Abbreviation on_last_buffer := (Client.on_last_buffer JSON_parse).
Local Abbreviation read_chunks := (Client.read_chunks JSON_parse).
Local Abbreviation processStreamResponse := (Client.processStreamResponse JSON_parse).

Lemma update_last_ext (f g : Message -> Message) (l : list Message) :
  (forall m, f m = g m) -> update_last f l = update_last g l.
Proof.
  intros H. induction l as [|m l IH]; [reflexivity|].
  destruct l as [|m' l]; cbn [update_last] in *; [now rewrite H | now rewrite IH].
Qed.

Lemma update_last_compose (f g : Message -> Message) (l : list Message) :
  update_last g (update_last f l) = update_last (fun m => g (f m)) l.
Proof.
  induction l as [|m l IH]; [reflexivity|].
  destruct l as [|m' l]; [reflexivity|].
  change (update_last f (m :: m' :: l)) with (m :: update_last f (m' :: l)).
  change (update_last (fun x => g (f x)) (m :: m' :: l))
    with (m :: update_last (fun x => g (f x)) (m' :: l)).
  rewrite <- IH.
  destruct (update_last f (m' :: l)) eqn:E; [|reflexivity].
  destruct l; discriminate E.
Qed.

Lemma update_last_length (f : Message -> Message) (l : list Message) :
  List.length (update_last f l) = List.length l.
Proof.
  induction l as [|m l IH]; [reflexivity|].
  destruct l as [|m' l]; [reflexivity|].
  change (update_last f (m :: m' :: l)) with (m :: update_last f (m' :: l)).
  cbn [List.length] in *. now rewrite IH.
Qed.

Lemma update_last_removelast (f : Message -> Message) (l : list Message) :
  removelast (update_last f l) = removelast l.
Proof.
  induction l as [|m l IH]; [reflexivity|].
  destruct l as [|m' l]; [reflexivity|].
  change (update_last f (m :: m' :: l)) with (m :: update_last f (m' :: l)).
  pose proof (update_last_length f (m' :: l)) as L.
  destruct (update_last f (m' :: l)) eqn:E; [discriminate L|].
  cbn [removelast] in *. now rewrite IH.
Qed.

Lemma update_last_fixed (f : Message -> Message) (l : list Message) (d : Message) :
  f (last l d) = last l d -> update_last f l = l.
Proof.
  induction l as [|m l IH]; intros H; [reflexivity|].
  destruct l as [|m' l].
  - cbn [update_last last] in *. now rewrite H.
  - change (update_last f (m :: m' :: l)) with (m :: update_last f (m' :: l)).
    rewrite IH; [reflexivity|]. exact H.
Qed.

(** A later update of the last message overwrites an earlier one. *)
Lemma updateAssistantMessage_overwrites (m1 m2 : string) (t1 t2 : json) (s : Session) :
  messages (updateAssistantMessage m2 t2 (updateAssistantMessage m1 t1 s))
  = messages (updateAssistantMessage m2 t2 s).
Proof.
  unfold updateAssistantMessage, setMessages. cbn [messages].
  rewrite update_last_compose. apply update_last_ext. intros m.
  destruct (Role_eqb (role m) ASSISTANT) eqn:E; cbn [role]; now rewrite E.
Qed.

Lemma collapsed_refl (s : Session) : collapsed s s.
Proof. now left. Qed.

Lemma collapsed_update (messageId : string) (t : json) (s : Session) :
  collapsed s (updateAssistantMessage messageId t s).
Proof. right. now exists t. Qed.

Lemma collapsed_trans (s1 s2 s3 : Session) :
  collapsed s1 s2 -> collapsed s2 s3 -> collapsed s1 s3.
Proof.
  assert (U : forall u x y, messages x = messages y ->
              messages (updateAssistantMessage "" u x)
              = messages (updateAssistantMessage "" u y)).
  { intros u x y H. unfold updateAssistantMessage, setMessages. cbn [messages].
    now rewrite H. }
  intros [A|[t A]] [B|[u B]].
  - left. congruence.
  - right. exists u. rewrite B. now apply U.
  - right. exists t. congruence.
  - right. exists u. rewrite B, (U u _ _ A).
    apply updateAssistantMessage_overwrites.
Qed.

Lemma handle_event_collapsed (messageId : string) (data : json)
  (st st' : Reader * Session) :
  handle_event messageId data st = Normal st' -> collapsed (snd st) (snd st').
Proof.
  destruct st as [r s]. unfold handle_event.
  split_tests; intros H; inversion H; cbn [snd];
    first [apply collapsed_refl | apply collapsed_update | now left].
Qed.

Lemma handle_last_buffer_collapsed (messageId : string) (data : json)
  (st st' : Reader * Session) :
  handle_last_buffer messageId data st = Normal st' -> collapsed (snd st) (snd st').
Proof.
  destruct st as [r s]. unfold handle_last_buffer.
  split_tests; intros H; inversion H; cbn [snd];
    first [apply collapsed_refl | apply collapsed_update | now left].
Qed.

Lemma on_line_collapsed (messageId : string) (st : Reader * Session) (line : string) :
  collapsed (snd st) (snd (on_line messageId st line)).
Proof.
  unfold Client.on_line.
  destruct (negb _); [apply collapsed_refl|].
  destruct (handle_event _ _ _) eqn:E; [|apply collapsed_refl].
  apply handle_event_collapsed in E. exact E.
Qed.

Lemma fold_on_line_collapsed (messageId : string) (lines : list string)
  (st : Reader * Session) :
  collapsed (snd st) (snd (fold_left (on_line messageId) lines st)).
Proof.
  revert st. induction lines as [|line lines IH]; intros st; [apply collapsed_refl|].
  cbn [fold_left]. eapply collapsed_trans; [apply on_line_collapsed | apply IH].
Qed.

Lemma read_chunks_collapsed (messageId : string) (chunks : list string) (s : Session) :
  collapsed s (snd (read_chunks messageId chunks s)).
Proof.
  unfold Client.read_chunks.
  change s with (snd (initial_reader, s)) at 1.
  generalize (initial_reader, s). induction chunks as [|c cs IH]; intros st.
  - apply collapsed_refl.
  - cbn [fold_left]. eapply collapsed_trans; [|apply IH].
    unfold Client.on_chunk.
    exact (fold_on_line_collapsed messageId _ (set_buffer _ (fst st), snd st)).
Qed.

Lemma on_last_buffer_collapsed (messageId : string) (st : Reader * Session) :
  collapsed (snd st) (snd (on_last_buffer messageId st)).
Proof.
  unfold Client.on_last_buffer.
  destruct (String.eqb _ _); [apply collapsed_refl|].
  destruct (negb _); [apply collapsed_refl|].
  destruct (handle_last_buffer _ _ _) eqn:E; [|apply collapsed_refl].
  apply handle_last_buffer_collapsed in E. exact E.
Qed.

Lemma processStreamResponse_collapsed (messageId : string) (chunks : list string)
  (ending : ReadEnd) (s : Session) :
  collapsed s (fst (processStreamResponse messageId chunks ending s)).
Proof.
  pose proof (read_chunks_collapsed messageId chunks s) as C.
  unfold Client.processStreamResponse. destruct ending as [|e|]; cbn [fst].
  - apply (collapsed_trans _ _ _ C).
    apply (collapsed_trans _ _ _
             (on_last_buffer_collapsed messageId (read_chunks messageId chunks s))).
    left. reflexivity.
  - exact C.
  - apply (collapsed_trans _ _ _ C). left.
    unfold abortRequest. now destruct (abortControllerRef _).
Qed.

(** X6. Whatever a response body holds and however it ends,
    [processStreamResponse] changes the message list by at most one
    rewriting of its last element: the list has the same length, every
    message but the last is the same, and every message keeps its id,
    role, timestamp and error marker; the last message changes only when
    its role is assistant. *)
Theorem stream_touches_last_only (messageId : string) (chunks : list string)
  (ending : ReadEnd) (s : Session) :
  List.length (messages (fst (processStreamResponse messageId chunks ending s)))
  = List.length (messages s)
  /\ removelast (messages (fst (processStreamResponse messageId chunks ending s)))
     = removelast (messages s)
  /\ map (fun m => (id m, role m, timestamp m, error m))
       (messages (fst (processStreamResponse messageId chunks ending s)))
     = map (fun m => (id m, role m, timestamp m, error m)) (messages s)
  /\ (Role_eqb (role (last (messages s) no_message)) ASSISTANT = true
      \/ messages (fst (processStreamResponse messageId chunks ending s)) = messages s).
Proof.
  destruct (processStreamResponse_collapsed messageId chunks ending s) as [E|[t E]];
    rewrite E.
  - repeat split. now right.
  - unfold updateAssistantMessage, setMessages. cbn [messages].
    split; [apply update_last_length|]. split; [apply update_last_removelast|].
    split.
    + induction (messages s) as [|m l IH]; [reflexivity|].
      destruct l as [|m' l].
      * cbn. now destruct (Role_eqb (role m) ASSISTANT).
      * match goal with
        | |- map ?p (update_last ?f _) = _ =>
            change (map p (update_last f (m :: m' :: l)))
              with (p m :: map p (update_last f (m' :: l)))
        end.
        now rewrite IH.
    + destruct (Role_eqb (role (last (messages s) no_message)) ASSISTANT) eqn:R;
        [now left|right].
      apply (update_last_fixed _ _ no_message). now rewrite R.
Qed.

End MessageListFacts.

(** ** Deltas are concatenated in the order of arrival *)
Section DeltaFacts.
Import JS Client Terms.

Variable JSON_parse : string -> option json.

Local Abbreviation parseStreamData := (Client.parseStreamData JSON_parse).
Local Abbreviation on_line := (Client.on_line JSON_parse).

(** One text-delta line: the text grows when the id is that of the open
    part and the delta is not empty, and nothing happens otherwise. *)
Lemma on_line_delta (messageId line i d : string) (r : Reader) (s : Session)
  (pid : string) :
  is_delta (parseStreamData line) i d ->
  textPartId r = Some (JStr pid) ->
  on_line messageId (r, s) line =
  if String.eqb i pid && negb (String.eqb d "")
  then ({| buffer := buffer r; currentText := currentText r ++ d;
           textPartId := textPartId r;
           events := events r ++ [parseStreamData line] |},
        updateAssistantMessage messageId (JStr (currentText r ++ d)) s)
  else (record_event (parseStreamData line) r, s).
Proof.
  intros (Ht & Hi & Hd) Hp. unfold Client.on_line.
  assert (T : truthy (parseStreamData line) = true).
  { unfold get in Ht. now destruct (parseStreamData line). }
  rewrite T. cbn [negb fst snd]. unfold handle_event.
  rewrite Ht, Hi, Hd. cbn [is_string String.eqb Ascii.eqb Bool.eqb].
  cbn [record_event textPartId currentText buffer events]. rewrite Hp.
  cbn [strict_eq truthy_value truthy default toString].
  destruct (String.eqb i pid && negb (String.eqb d "")); reflexivity.
Qed.

(** X7. Order preservation: after a text part [pid] is open, a run of
    text-delta lines leaves as accumulated text the text before it
    followed by the deltas addressed to [pid], in the order of arrival;
    deltas addressed to another part are discarded.  The last message
    holds exactly that text once a non-empty delta for [pid] has come,
    and is untouched before that. *)
Theorem deltas_concatenate (messageId pid : string) (lines : list string)
  (deltas : list (string * string)) (r : Reader) (s : Session) :
  Forall2 (fun line p => is_delta (parseStreamData line) (fst p) (snd p)) lines deltas ->
  textPartId r = Some (JStr pid) ->
  currentText (fst (fold_left (on_line messageId) lines (r, s)))
  = currentText r
    ++ concat_strings (map snd (filter (fun p => String.eqb (fst p) pid) deltas))
  /\ textPartId (fst (fold_left (on_line messageId) lines (r, s))) = Some (JStr pid)
  /\ messages (snd (fold_left (on_line messageId) lines (r, s)))
     = if String.eqb
            (concat_strings (map snd (filter (fun p => String.eqb (fst p) pid) deltas)))
            ""
       then messages s
       else messages
              (updateAssistantMessage messageId
                 (JStr (currentText r
                        ++ concat_strings
                             (map snd (filter (fun p => String.eqb (fst p) pid) deltas))))
                 s).
Proof.
  intros H. revert r s. induction H as [|line [i d] lines deltas Hd _ IH]; intros r s Hp.
  - cbn. rewrite append_nil_r. repeat split. exact Hp.
  - cbn [fold_left fst snd] in *. rewrite (on_line_delta _ _ i d r s pid Hd Hp).
    cbn [filter fst]. destruct (String.eqb i pid) eqn:Ei; cbn [andb].
    + destruct (String.eqb d "") eqn:Ed; cbn [negb map snd concat_strings].
      * apply String.eqb_eq in Ed. subst d. cbn [append].
        apply (IH (record_event (parseStreamData line) r) s Hp).
      * specialize (IH {| buffer := buffer r; currentText := currentText r ++ d;
                          textPartId := textPartId r;
                          events := events r ++ [parseStreamData line] |}
                       (updateAssistantMessage messageId (JStr (currentText r ++ d)) s)
                       Hp).
        cbn [currentText] in IH. destruct IH as (C & P & M).
        rewrite append_assoc in C, M.
        split; [exact C|]. split; [exact P|]. rewrite M.
        assert (N : String.eqb
                      (d ++ concat_strings
                              (map snd (filter (fun p => String.eqb (fst p) pid) deltas)))
                      "" = false).
        { destruct d; [discriminate Ed | reflexivity]. }
        rewrite N.
        destruct (String.eqb
                    (concat_strings
                       (map snd (filter (fun p => String.eqb (fst p) pid) deltas))) "")
          eqn:K.
        -- apply String.eqb_eq in K. rewrite K. now rewrite append_nil_r.
        -- apply updateAssistantMessage_overwrites.
    + apply (IH (record_event (parseStreamData line) r) s Hp).
Qed.

End DeltaFacts.

(** ** Requests, timers and the error marker *)
Section AccountingFacts.
Import JS Client Terms.

Variable JSON_parse : string -> option json.
Variable maxRetries : Z.
Variable selectedModel : string.

Local Abbreviation on_line := (Client.on_line JSON_parse).
Local Abbreviation on_last_buffer := (Client.on_last_buffer JSON_parse).
Local Abbreviation read_chunks := (Client.read_chunks JSON_parse).
Local Abbreviation processStreamResponse := (Client.processStreamResponse JSON_parse).
Local Abbreviation on_catch := (Client.on_catch maxRetries).
Local Abbreviation begin_request := (Client.begin_request selectedModel).
Local Abbreviation await_response := (Client.await_response JSON_parse).
Local Abbreviation sendMessage := (Client.sendMessage JSON_parse maxRetries selectedModel).
Local Abbreviation submit := (Client.submit JSON_parse maxRetries selectedModel).

Lemma quiet_since_refl (s : Session) : quiet_since s s.
Proof. split; reflexivity. Qed.

Lemma quiet_since_trans (s1 s2 s3 : Session) :
  quiet_since s1 s2 -> quiet_since s2 s3 -> quiet_since s1 s3.
Proof. intros [A1 A2] [B1 B2]. split; congruence. Qed.

Lemma quiet_since_setStatus (st : Status) (s : Session) : quiet_since s (setStatus st s).
Proof.
  split; cbn [setStatus emit trace]; rewrite flat_map_app; cbn [flat_map];
    now rewrite app_nil_r.
Qed.

Lemma quiet_since_same_trace (s s' : Session) : trace s' = trace s -> quiet_since s s'.
Proof. intros H. unfold quiet_since. now rewrite H. Qed.

Lemma handle_event_quiet (messageId : string) (data : json) (st st' : Reader * Session) :
  handle_event messageId data st = Normal st' -> quiet_since (snd st) (snd st').
Proof.
  destruct st as [r s]. unfold handle_event.
  split_tests; intros H; inversion H; cbn [snd];
    first [apply quiet_since_refl | apply quiet_since_setStatus
          | now apply quiet_since_same_trace].
Qed.

Lemma handle_last_buffer_quiet (messageId : string) (data : json)
  (st st' : Reader * Session) :
  handle_last_buffer messageId data st = Normal st' -> quiet_since (snd st) (snd st').
Proof.
  destruct st as [r s]. unfold handle_last_buffer.
  split_tests; intros H; inversion H; cbn [snd];
    first [apply quiet_since_refl | apply quiet_since_setStatus
          | now apply quiet_since_same_trace].
Qed.

Lemma on_line_quiet (messageId : string) (st : Reader * Session) (line : string) :
  quiet_since (snd st) (snd (on_line messageId st line)).
Proof.
  unfold Client.on_line.
  destruct (negb _); [apply quiet_since_refl|].
  destruct (handle_event _ _ _) eqn:E; [|apply quiet_since_refl].
  apply handle_event_quiet in E. exact E.
Qed.

Lemma fold_on_line_quiet (messageId : string) (lines : list string)
  (st : Reader * Session) :
  quiet_since (snd st) (snd (fold_left (on_line messageId) lines st)).
Proof.
  revert st. induction lines as [|line lines IH]; intros st; [apply quiet_since_refl|].
  cbn [fold_left]. eapply quiet_since_trans; [apply on_line_quiet | apply IH].
Qed.

Lemma read_chunks_quiet (messageId : string) (chunks : list string) (s : Session) :
  quiet_since s (snd (read_chunks messageId chunks s)).
Proof.
  unfold Client.read_chunks.
  change s with (snd (initial_reader, s)) at 1.
  generalize (initial_reader, s). induction chunks as [|c cs IH]; intros st.
  - apply quiet_since_refl.
  - cbn [fold_left]. eapply quiet_since_trans; [|apply IH].
    unfold Client.on_chunk.
    exact (fold_on_line_quiet messageId _ (set_buffer _ (fst st), snd st)).
Qed.

Lemma abortRequest_quiet (s : Session) : quiet_since s (abortRequest s).
Proof.
  unfold abortRequest. destruct (abortControllerRef s); [|apply quiet_since_refl].
  apply (quiet_since_trans _ (set_abortController (Some true) s));
    [now apply quiet_since_same_trace | apply quiet_since_setStatus].
Qed.

Lemma processStreamResponse_quiet (messageId : string) (chunks : list string)
  (ending : ReadEnd) (s : Session) :
  quiet_since s (fst (processStreamResponse messageId chunks ending s)).
Proof.
  pose proof (read_chunks_quiet messageId chunks s) as Q.
  unfold Client.processStreamResponse. destruct ending as [|e|]; cbn [fst].
  - apply (quiet_since_trans _ _ _ Q).
    apply (quiet_since_trans _ (snd (on_last_buffer messageId
                                       (read_chunks messageId chunks s)))).
    + unfold Client.on_last_buffer.
      destruct (String.eqb _ _); [apply quiet_since_refl|].
      destruct (negb _); [apply quiet_since_refl|].
      destruct (handle_last_buffer _ _ _) eqn:E; [|apply quiet_since_refl].
      apply handle_last_buffer_quiet in E. exact E.
    + apply quiet_since_setStatus.
  - exact Q.
  - apply (quiet_since_trans _ _ _ Q). apply abortRequest_quiet.
Qed.

(** The [try] block sends nothing and sets no timer. *)
Lemma await_response_quiet (fresh : Fresh) (net : FetchOutcome) (s : Session) :
  quiet_since s (fst (await_response fresh net s)).
Proof.
  destruct net as [e| |[|] http_status chunks ending]; cbn [Client.await_response negb fst].
  - apply quiet_since_refl.
  - apply abortRequest_quiet.
  - pose proof (processStreamResponse_quiet (assistantMessageId fresh) chunks ending s)
      as Q.
    destruct (processStreamResponse (assistantMessageId fresh) chunks ending s)
      as [s1 [e|]]; cbn [fst] in *; [exact Q|].
    apply (quiet_since_trans _ _ _ Q). split; cbn [emit set_retryCount trace];
      rewrite flat_map_app; cbn [flat_map]; now rewrite app_nil_r.
  - apply quiet_since_refl.
Qed.

Lemma begin_request_accounting (closure : list Message) (content : string)
  (fresh : Fresh) (s : Session) :
  requests (trace (begin_request closure content fresh s))
  = (requests (trace s) ++ [request_of selectedModel closure content fresh])%list
  /\ timer_delays (trace (begin_request closure content fresh s))
     = timer_delays (trace s).
Proof.
  unfold requests, timer_delays, Client.begin_request.
  cbn [emit set_abortController setMessages setInput setError setStatus trace].
  rewrite !flat_map_app. cbn [flat_map]. rewrite !app_nil_r. split; reflexivity.
Qed.

(** A failing attempt below the bound: one request, one timer. *)
Lemma sendMessage_retry_accounting (closure : list Message) (content : string)
  (fresh : Fresh) (net : FetchOutcome) (s : Session) :
  validateInput content = Valid ->
  fails net = true ->
  (retryCountRef s < maxRetries)%Z ->
  requests (trace (fst (sendMessage closure content fresh net s)))
  = (requests (trace s) ++ [request_of selectedModel closure content fresh])%list
  /\ timer_delays (trace (fst (sendMessage closure content fresh net s)))
     = (timer_delays (trace s) ++ [1000 * (retryCountRef s + 1)]%Z)%list
  /\ abortControllerRef (fst (sendMessage closure content fresh net s)) = None.
Proof.
  intros Hv Hf Hlt. unfold Client.sendMessage. rewrite Hv.
  destruct (await_response_fails JSON_parse fresh net
              (begin_request closure content fresh s) Hf) as (err & _ & Hn & E & R).
  destruct (await_response_quiet fresh net (begin_request closure content fresh s))
    as [Q1 Q2].
  destruct (begin_request_accounting closure content fresh s) as [B1 B2].
  destruct (await_response fresh net (begin_request closure content fresh s))
    as [s2 thrown]; cbn [fst snd] in *. subst thrown.
  change (retryCountRef (begin_request closure content fresh s))
    with (retryCountRef s) in R.
  rewrite (on_catch_retry maxRetries) by (rewrite ?R; assumption).
  cbn [fst set_abortController emit setMessages set_retryCount trace abortControllerRef].
  unfold requests, timer_delays in *. rewrite !flat_map_app. cbn [flat_map].
  rewrite Q1, Q2, B1, B2, R, app_nil_r. repeat split.
Qed.

(** A failing attempt at the bound: one request, no timer. *)
Lemma sendMessage_give_up_accounting (closure : list Message) (content : string)
  (fresh : Fresh) (net : FetchOutcome) (s : Session) :
  validateInput content = Valid ->
  fails net = true ->
  (maxRetries <= retryCountRef s)%Z ->
  requests (trace (fst (sendMessage closure content fresh net s)))
  = (requests (trace s) ++ [request_of selectedModel closure content fresh])%list
  /\ timer_delays (trace (fst (sendMessage closure content fresh net s)))
     = timer_delays (trace s).
Proof.
  intros Hv Hf Hle. unfold Client.sendMessage. rewrite Hv.
  destruct (await_response_fails JSON_parse fresh net
              (begin_request closure content fresh s) Hf) as (err & _ & Hn & E & R).
  destruct (await_response_quiet fresh net (begin_request closure content fresh s))
    as [Q1 Q2].
  destruct (begin_request_accounting closure content fresh s) as [B1 B2].
  destruct (await_response fresh net (begin_request closure content fresh s))
    as [s2 thrown]; cbn [fst snd] in *. subst thrown.
  change (retryCountRef (begin_request closure content fresh s))
    with (retryCountRef s) in R.
  assert (Hle2 : (maxRetries <= retryCountRef s2)%Z) by (rewrite R; exact Hle).
  destruct (on_catch_exhausted maxRetries (assistantMessageId fresh) content err s2
              Hn Hle2) as (_ & _ & _ & _ & T).
  destruct (on_catch (assistantMessageId fresh) content err s2) as [s3 timer];
    cbn [fst snd set_abortController trace] in *.
  unfold requests, timer_delays in *. rewrite T, !flat_map_app. cbn [flat_map].
  rewrite Q1, Q2, B1, B2, !app_nil_r. split; reflexivity.
Qed.

(** An attempt whose response is read to the end: one request, no timer,
    and the session of a success. *)
Lemma sendMessage_success_accounting (closure : list Message) (content : string)
  (fresh : Fresh) (net : FetchOutcome) (s : Session) :
  validateInput content = Valid ->
  succeeds net = true ->
  snd (sendMessage closure content fresh net s) = None
  /\ retryCountRef (fst (sendMessage closure content fresh net s)) = 0%Z
  /\ status (fst (sendMessage closure content fresh net s)) = READY
  /\ lastError (fst (sendMessage closure content fresh net s)) = None
  /\ requests (trace (fst (sendMessage closure content fresh net s)))
     = (requests (trace s) ++ [request_of selectedModel closure content fresh])%list
  /\ timer_delays (trace (fst (sendMessage closure content fresh net s)))
     = timer_delays (trace s).
Proof.
  intros Hv Hs.
  destruct net as [e| |[|] http_status chunks [|e|]]; try discriminate Hs.
  rewrite (sendMessage_done JSON_parse maxRetries selectedModel) by exact Hv.
  cbn [fst snd].
  set (s1 := begin_request closure content fresh s).
  set (st := read_chunks (assistantMessageId fresh) chunks s1).
  pose proof (processStreamResponse_quiet (assistantMessageId fresh) chunks Done s1)
    as [Q1 Q2].
  unfold Client.processStreamResponse in Q1, Q2. cbn [fst] in Q1, Q2. fold st in Q1, Q2.
  destruct (begin_request_accounting closure content fresh s) as [B1 B2]. fold s1 in B1, B2.
  destruct (on_last_buffer_refs JSON_parse (assistantMessageId fresh) st) as (E & _).
  destruct (read_chunks_refs JSON_parse (assistantMessageId fresh) chunks s1) as (E' & _).
  fold st in E'.
  split; [reflexivity|]. split; [reflexivity|]. split; [reflexivity|].
  split.
  - cbn [set_abortController emit set_retryCount setStatus lastError].
    rewrite E, E'. reflexivity.
  - unfold requests, timer_delays in *.
    cbn [set_abortController emit set_retryCount trace].
    rewrite !flat_map_app. cbn [flat_map]. rewrite !app_nil_r.
    rewrite Q1, Q2, B1, B2. split; reflexivity.
Qed.

Lemma seq_shift_map (c : Z) (start n : nat) :
  map (fun k => (1000 * (c + 1 + Z.of_nat k))%Z) (seq start n)
  = map (fun k => (1000 * (c + Z.of_nat k))%Z) (seq (S start) n).
Proof.
  rewrite <- seq_shift, map_map. apply map_ext. intros k. f_equal. lia.
Qed.

(** A run of attempts that fail while the counter is below the bound:
    each sends its request and sets its timer, the delays growing by
    1000 each time, and the submit goes on with what follows. *)
Lemma submit_failing_prefix (closure : list Message) (content : string)
  (failing rest : list (Fresh * FetchOutcome)) (s : Session) :
  validateInput content = Valid ->
  forallb (fun a => fails (snd a)) failing = true ->
  (Z.of_nat (List.length failing) <= maxRetries - retryCountRef s)%Z ->
  submit closure content (failing ++ rest) s
  = submit closure content rest (submit closure content failing s)
  /\ retryCountRef (submit closure content failing s)
     = (retryCountRef s + Z.of_nat (List.length failing))%Z
  /\ requests (trace (submit closure content failing s))
     = (requests (trace s)
        ++ map (fun a => request_of selectedModel closure content (fst a)) failing)%list
  /\ timer_delays (trace (submit closure content failing s))
     = (timer_delays (trace s)
        ++ map (fun k => (1000 * (retryCountRef s + Z.of_nat k))%Z)
             (seq 1 (List.length failing)))%list
  /\ (failing <> [] -> abortControllerRef (submit closure content failing s) = None).
Proof.
  intros Hv. revert s. induction failing as [|[fresh net] failing IH]; intros s Hall Hlen.
  - cbn. rewrite Z.add_0_r, !app_nil_r. repeat split. intros H. contradiction.
  - cbn [forallb snd] in Hall. apply andb_true_iff in Hall. destruct Hall as [Hf Hall].
    cbn [List.length] in Hlen.
    assert (Hlt : (retryCountRef s < maxRetries)%Z) by lia.
    destruct (sendMessage_retries JSON_parse maxRetries selectedModel
                closure content fresh net s Hv Hf Hlt) as [T C].
    destruct (sendMessage_retry_accounting closure content fresh net s Hv Hf Hlt)
      as (Rq & Tm & Ab).
    cbn [Client.submit app].
    destruct (sendMessage closure content fresh net s) as [s' timer];
      cbn [fst snd] in *. subst timer.
    assert (Hlen' : (Z.of_nat (List.length failing) <= maxRetries - retryCountRef s')%Z)
      by (rewrite C; lia).
    destruct (IH s' Hall Hlen') as (E & C' & Rq' & Tm' & Ab').
    split; [exact E|]. split; [rewrite C', C; cbn [List.length]; lia|].
    split; [rewrite Rq', Rq; cbn [map fst]; now rewrite <- app_assoc|].
    split.
    + rewrite Tm', Tm, C. cbn [List.length seq map].
      rewrite <- app_assoc, seq_shift_map. cbn [app].
      reflexivity || (repeat f_equal; lia).
    + intros _. destruct failing as [|a failing]; [exact Ab|].
      apply Ab'. discriminate.
Qed.

(** X8. Linear backoff and the requests of a submit that never succeeds:
    when the first attempt and the [maxRetries] retries all fail, the
    timers set have the delays 1000, 2000, ..., 1000 * [maxRetries], in
    that order, and exactly [maxRetries] + 1 requests are sent, one per
    attempt, each carrying the history the callback closed over followed
    by one user message with the text submitted. *)
Theorem backoff_schedule (closure : list Message) (content : string)
  (retried : list (Fresh * FetchOutcome)) (final : Fresh * FetchOutcome) (s : Session) :
  (0 <= maxRetries)%Z ->
  validateInput content = Valid ->
  retryCountRef s = 0%Z ->
  List.length retried = Z.to_nat maxRetries ->
  forallb (fun a => fails (snd a)) (retried ++ [final]) = true ->
  timer_delays (trace (submit closure content (retried ++ [final]) s))
  = (timer_delays (trace s)
     ++ map (fun k => (1000 * Z.of_nat k)%Z) (seq 1 (Z.to_nat maxRetries)))%list
  /\ requests (trace (submit closure content (retried ++ [final]) s))
     = (requests (trace s)
        ++ map (fun a => request_of selectedModel closure content (fst a))
             (retried ++ [final]))%list.
Proof.
  intros Hm Hv H0 Hlen Hall.
  rewrite forallb_app in Hall. apply andb_true_iff in Hall. destruct Hall as [Hr Hf].
  cbn [forallb] in Hf. rewrite andb_true_r in Hf.
  destruct (submit_failing_prefix closure content retried [final] s Hv Hr)
    as (E & C & Rq & Tm & _); [rewrite Hlen, H0; lia|].
  rewrite E. destruct final as [fresh net]. cbn [Client.submit snd fst] in *.
  assert (Hle : (maxRetries <= retryCountRef (submit closure content retried s))%Z)
    by (rewrite C, Hlen, H0; lia).
  destruct (sendMessage_gives_up JSON_parse maxRetries selectedModel closure content
              fresh net _ Hv Hf Hle) as (T & _).
  destruct (sendMessage_give_up_accounting closure content fresh net _ Hv Hf Hle)
    as (Rq' & Tm').
  destruct (sendMessage closure content fresh net (submit closure content retried s))
    as [s' timer]; cbn [fst snd] in *. subst timer.
  rewrite Tm', Tm, Rq', Rq, Hlen, H0, map_app. cbn [map fst].
  rewrite <- app_assoc. split; reflexivity.
Qed.

(** X9. A success after failures: when some attempts fail while the
    counter is below [maxRetries] and the next one is read to its end,
    the submit stops there with the retry counter back at 0, the status
    ready and no error recorded; it has sent one request per attempt and
    set one timer per failure. *)
Theorem success_after_failures (closure : list Message) (content : string)
  (failing : list (Fresh * FetchOutcome)) (fresh : Fresh) (net : FetchOutcome)
  (more : list (Fresh * FetchOutcome)) (s : Session) :
  validateInput content = Valid ->
  forallb (fun a => fails (snd a)) failing = true ->
  (Z.of_nat (List.length failing) <= maxRetries - retryCountRef s)%Z ->
  succeeds net = true ->
  retryCountRef (submit closure content (failing ++ [(fresh, net)]) s) = 0%Z
  /\ status (submit closure content (failing ++ [(fresh, net)]) s) = READY
  /\ lastError (submit closure content (failing ++ [(fresh, net)]) s) = None
  /\ submit closure content ((failing ++ [(fresh, net)]) ++ more) s
     = submit closure content (failing ++ [(fresh, net)]) s
  /\ List.length (requests (trace (submit closure content (failing ++ [(fresh, net)]) s)))
     = List.length (requests (trace s)) + List.length failing + 1
  /\ List.length
       (timer_delays (trace (submit closure content (failing ++ [(fresh, net)]) s)))
     = List.length (timer_delays (trace s)) + List.length failing.
Proof.
  intros Hv Hall Hlen Hs.
  destruct (submit_failing_prefix closure content failing [(fresh, net)] s Hv Hall Hlen)
    as (E & _ & Rq & Tm & _).
  destruct (submit_failing_prefix closure content failing ((fresh, net) :: more) s
              Hv Hall Hlen) as (E' & _).
  rewrite <- app_assoc. cbn [app]. rewrite E, E'. cbn [Client.submit].
  destruct (sendMessage_success_accounting closure content fresh net
              (submit closure content failing s) Hv Hs) as (T & C & S' & L & Rq' & Tm').
  destruct (sendMessage closure content fresh net (submit closure content failing s))
    as [s' timer]; cbn [fst snd] in *. subst timer.
  rewrite Rq', Tm', Rq, Tm, !length_app, !length_map, length_seq. cbn [List.length].
  repeat split; try assumption; lia.
Qed.

(** X10. A cancel issued while a retry is waiting does nothing: after a
    failed attempt that set its timer there is no abort controller, so
    [abortRequest] leaves the session as it is, and the retry runs when
    the timer fires. *)
Theorem abort_between_attempts_is_noop (closure : list Message) (content : string)
  (fresh : Fresh) (net : FetchOutcome) (rest : list (Fresh * FetchOutcome))
  (s : Session) :
  validateInput content = Valid ->
  fails net = true ->
  (retryCountRef s < maxRetries)%Z ->
  snd (sendMessage closure content fresh net s) = Some (1000 * (retryCountRef s + 1))%Z
  /\ abortRequest (fst (sendMessage closure content fresh net s))
     = fst (sendMessage closure content fresh net s)
  /\ submit closure content ((fresh, net) :: rest) s
     = submit closure content rest
         (abortRequest (fst (sendMessage closure content fresh net s))).
Proof.
  intros Hv Hf Hlt.
  destruct (sendMessage_retries JSON_parse maxRetries selectedModel
              closure content fresh net s Hv Hf Hlt) as [T _].
  destruct (sendMessage_retry_accounting closure content fresh net s Hv Hf Hlt)
    as (_ & _ & Ab).
  assert (A : abortRequest (fst (sendMessage closure content fresh net s))
              = fst (sendMessage closure content fresh net s)).
  { unfold abortRequest. now rewrite Ab. }
  split; [exact T|]. split; [exact A|].
  rewrite A. cbn [Client.submit].
  destruct (sendMessage closure content fresh net s) as [s' timer];
    cbn [fst snd] in *. now subst timer.
Qed.

End AccountingFacts.

(** ** The messages a failing submit leaves *)
Section FailedRunFacts.
Import JS Client Terms.

Variable JSON_parse : string -> option json.
Variable maxRetries : Z.
Variable selectedModel : string.

Local Abbreviation on_catch := (Client.on_catch maxRetries).
Local Abbreviation begin_request := (Client.begin_request selectedModel).
Local Abbreviation await_response := (Client.await_response JSON_parse).
Local Abbreviation sendMessage := (Client.sendMessage JSON_parse maxRetries selectedModel).
Local Abbreviation submit := (Client.submit JSON_parse maxRetries selectedModel).

Lemma labels_ids (l : list Message) : map fst (labels l) = map id l.
Proof. unfold labels. rewrite map_map. reflexivity. Qed.

Lemma labels_update_last (f : Message -> Message) (l : list Message) :
  (forall m, (id (f m), error (f m)) = (id m, error m)) ->
  labels (update_last f l) = labels l.
Proof.
  intros H. induction l as [|m l IH]; [reflexivity|].
  destruct l as [|m' l].
  - cbn. now rewrite H.
  - change (labels (update_last f (m :: m' :: l)))
      with ((id m, error m) :: labels (update_last f (m' :: l))).
    now rewrite IH.
Qed.

Lemma collapsed_labels (s s' : Session) :
  collapsed s s' -> labels (messages s') = labels (messages s).
Proof.
  intros [E|[t E]]; rewrite E; [reflexivity|].
  unfold updateAssistantMessage, setMessages. cbn [messages].
  apply labels_update_last. intros m. now destruct (Role_eqb (role m) ASSISTANT).
Qed.

Lemma await_response_labels (fresh : Fresh) (net : FetchOutcome) (s : Session) :
  labels (messages (fst (await_response fresh net s))) = labels (messages s).
Proof.
  destruct net as [e| |ok http_status chunks ending]; cbn [Client.await_response fst].
  - reflexivity.
  - unfold abortRequest. now destruct (abortControllerRef s).
  - destruct ok; cbn [negb]; [|reflexivity].
    pose proof (collapsed_labels _ _
                  (processStreamResponse_collapsed JSON_parse (assistantMessageId fresh)
                     chunks ending s)) as L.
    destruct (Client.processStreamResponse JSON_parse (assistantMessageId fresh)
                chunks ending s) as [s1 [e|]]; exact L.
Qed.

Lemma begin_request_labels (closure : list Message) (content : string) (fresh : Fresh)
  (s : Session) :
  labels (messages (begin_request closure content fresh s))
  = (labels (messages s)
     ++ [(user_id fresh, None); (placeholder_id fresh, None)])%list.
Proof.
  unfold labels. cbn. rewrite !map_app, <- app_assoc. reflexivity.
Qed.

(** With no message of the id looked for, the filter of the retry and
    the marking of the give-up both leave the list as it is. *)
Lemma filter_unused (amid : string) (l : list Message) :
  forallb (fun i => negb (String.eqb i amid)) (map id l) = true ->
  filter (fun msg => negb (String.eqb (id msg) amid)) l = l.
Proof.
  induction l as [|m l IH]; [reflexivity|]. cbn [map forallb filter]. intros H.
  apply andb_true_iff in H. destruct H as [H1 H2]. rewrite H1, IH; auto.
Qed.

Lemma update_last_unused (amid : string) (g : Message -> Message) (l : list Message) :
  forallb (fun i => negb (String.eqb i amid)) (map id l) = true ->
  update_last (fun m => if String.eqb (id m) amid then g m else m) l = l.
Proof.
  induction l as [|m l IH]; [reflexivity|]. cbn [map forallb]. intros H.
  apply andb_true_iff in H. destruct H as [H1 H2].
  destruct l as [|m' l].
  - cbn [update_last]. apply negb_true_iff in H1. now rewrite H1.
  - match goal with
    | |- update_last ?f _ = _ =>
        change (update_last f (m :: m' :: l)) with (m :: update_last f (m' :: l))
    end.
    now rewrite IH.
Qed.

(** One failing attempt whose request id is the id of no message: both
    of its messages stay, unmarked, whether it retries or gives up. *)
Lemma sendMessage_failed_labels (closure : list Message) (content : string)
  (fresh : Fresh) (net : FetchOutcome) (s : Session) :
  validateInput content = Valid ->
  fails net = true ->
  forallb (fun i => negb (String.eqb i (assistantMessageId fresh)))
    (map id (messages s) ++ [user_id fresh; placeholder_id fresh]) = true ->
  labels (messages (fst (sendMessage closure content fresh net s)))
  = (labels (messages s)
     ++ [(user_id fresh, None); (placeholder_id fresh, None)])%list.
Proof.
  intros Hv Hf Hu. unfold Client.sendMessage. rewrite Hv.
  destruct (await_response_fails JSON_parse fresh net
              (begin_request closure content fresh s) Hf) as (err & _ & Hn & E & _).
  pose proof (await_response_labels fresh net (begin_request closure content fresh s)) as L.
  rewrite begin_request_labels in L.
  destruct (await_response fresh net (begin_request closure content fresh s))
    as [s2 thrown]; cbn [fst snd] in *. subst thrown.
  assert (I : forallb (fun i => negb (String.eqb i (assistantMessageId fresh)))
                (map id (messages s2)) = true).
  { rewrite <- labels_ids, L, map_app, labels_ids. exact Hu. }
  unfold Client.on_catch. rewrite Hn.
  destruct (Z.ltb (retryCountRef s2) maxRetries).
  - cbn [fst set_abortController emit setMessages set_retryCount messages].
    rewrite (filter_unused _ _ I). exact L.
  - cbn [fst set_abortController emit setMessages setStatus setError messages].
    rewrite (update_last_unused _ _ _ I). exact L.
Qed.

(** X11. A submit whose attempts all fail leaves every message it
    appended: when the request id drawn for each attempt is the id of no
    message in the list (the placeholder gets an id of its own, not the
    request id), neither the filter before a retry nor the marking after
    the last failure finds a message, so each attempt adds one user
    message and one placeholder, and no message carries an error
    marker. *)
Theorem failed_run_keeps_every_message (closure : list Message) (content : string)
  (attempts : list (Fresh * FetchOutcome)) (s : Session) :
  validateInput content = Valid ->
  forallb (fun a => fails (snd a)) attempts = true ->
  (Z.of_nat (List.length attempts) <= maxRetries - retryCountRef s + 1)%Z ->
  unused (map id (messages s)) attempts = true ->
  labels (messages (submit closure content attempts s))
  = (labels (messages s)
     ++ flat_map (fun a => [(user_id (fst a), None); (placeholder_id (fst a), None)])
          attempts)%list.
Proof.
  intros Hv. revert s. induction attempts as [|[fresh net] rest IH]; intros s Hall Hlen Hu.
  - cbn. now rewrite app_nil_r.
  - cbn [forallb snd] in Hall. apply andb_true_iff in Hall. destruct Hall as [Hf Hall].
    cbn [unused attempt_ids fst] in Hu. apply andb_true_iff in Hu. destruct Hu as [Hu Hr].
    cbn [List.length] in Hlen.
    pose proof (sendMessage_failed_labels closure content fresh net s Hv Hf Hu) as L.
    cbn [Client.submit flat_map fst].
    destruct (Z.ltb (retryCountRef s) maxRetries) eqn:B.
    + apply Z.ltb_lt in B.
      destruct (sendMessage_retries JSON_parse maxRetries selectedModel
                  closure content fresh net s Hv Hf B) as [T C].
      destruct (sendMessage closure content fresh net s) as [s' timer];
        cbn [fst snd] in *. subst timer.
      rewrite IH.
      * rewrite L, <- app_assoc. reflexivity.
      * exact Hall.
      * rewrite C. lia.
      * rewrite <- labels_ids, L, map_app, labels_ids. exact Hr.
    + apply Z.ltb_ge in B. destruct rest as [|a rest]; [|cbn [List.length] in Hlen; lia].
      destruct (sendMessage_gives_up JSON_parse maxRetries selectedModel closure content
                  fresh net s Hv Hf B) as (T & _).
      destruct (sendMessage closure content fresh net s) as [s' timer];
        cbn [fst snd] in *. subst timer.
      cbn [flat_map]. rewrite app_nil_r. exact L.
Qed.

End FailedRunFacts.

(** ** The framer and the reader together *)
Section EndToEnd.
Import JS Client Terms.

Variable JSON_parse : string -> option json.
Variable JSON_stringify : json -> string.
Variable maxRetries : Z.
Variable selectedModel : string.

Local Abbreviation parseStreamData := (Client.parseStreamData JSON_parse).
Local Abbreviation on_line := (Client.on_line JSON_parse).
Local Abbreviation on_last_buffer := (Client.on_last_buffer JSON_parse).
Local Abbreviation read_chunks := (Client.read_chunks JSON_parse).
Local Abbreviation begin_request := (Client.begin_request selectedModel).
Local Abbreviation sendMessage := (Client.sendMessage JSON_parse maxRetries selectedModel).
Local Abbreviation getHello := (Server.getHello JSON_stringify).
Local Abbreviation wire_lines := (Terms.wire_lines JSON_stringify).

(** What the server writes for an exhausted stream is the text of
    [wire_lines]. *)
Lemma written_wire_lines (Date_now : Z) (stream : Server.Stream) :
  Server.ending stream = Server.Exhausted ->
  Server.written (getHello Date_now (Server.ServiceStream stream))
  = map (fun line => line ++ String newline "")
      (wire_lines ("msg_" ++ number_toString Date_now) stream).
Proof.
  destruct stream as [cs e]. cbn [Server.ending]. intros ->.
  unfold Server.getHello, Server.stream_frames. cbn [Server.chunks Server.ending].
  rewrite framer_loop. cbn [Server.fullText Server.res].
  rewrite written_end, !written_write. cbn [Server.written].
  rewrite written_stream_headers.
  unfold Terms.wire_lines, payloads, Server.fragments.
  cbn [Server.written Server.initial_response Server.chunks append app map].
  rewrite !map_app, !map_map, <- !app_assoc. cbn [map app].
  reflexivity.
Qed.

Lemma tagged_line_no_newline (c : ascii) (payload : string) :
  Ascii.eqb c newline = false ->
  no_newline payload = true ->
  no_newline (String c (String ":" payload)) = true.
Proof. intros Hc H. cbn [no_newline]. rewrite Hc. exact H. Qed.

Lemma wire_lines_no_newline (messageId : string) (stream : Server.Stream) :
  Forall (fun p => JSON_parse (JSON_stringify p) = Some p
                   /\ no_newline (JSON_stringify p) = true)
    (payloads messageId stream) ->
  forallb no_newline (wire_lines messageId stream) = true.
Proof.
  intros H. unfold Terms.wire_lines. cbn [forallb]. rewrite forallb_app.
  apply andb_true_iff. split; [reflexivity|].
  apply andb_true_iff. split; [|reflexivity].
  induction H as [|p ps [_ Hp] _ IH]; [reflexivity|].
  cbn [map forallb]. rewrite IH, andb_true_r.
  apply tagged_line_no_newline; [reflexivity|exact Hp].
Qed.

Lemma parseStreamData_tagged (c : ascii) (payload : string) (data : json) :
  tagged (String c (String ":" payload)) = true ->
  JSON_parse payload = Some data ->
  parseStreamData (String c (String ":" payload)) = data.
Proof.
  intros T H. unfold Client.parseStreamData.
  rewrite (tagged_not_blank _ T). fold (tagged (String c (String ":" payload))).
  rewrite T. cbn [substring_from]. now rewrite H.
Qed.

Lemma parseStreamData_0 (p : json) :
  JSON_parse (JSON_stringify p) = Some p ->
  parseStreamData ("0:" ++ JSON_stringify p) = p.
Proof.
  intros H. apply parseStreamData_tagged; [|exact H].
  unfold tagged, startsWith. cbn. now destruct (JSON_stringify p).
Qed.

Lemma parseStreamData_e (p : json) :
  JSON_parse (JSON_stringify p) = Some p ->
  parseStreamData ("e:" ++ JSON_stringify p) = p.
Proof.
  intros H. apply parseStreamData_tagged; [|exact H].
  unfold tagged, startsWith. cbn. now destruct (JSON_stringify p).
Qed.

(** The reader after a [text-start], a run of deltas, and a [text-end]. *)
Lemma on_line_text_start (messageId line tp : string) (st : Reader * Session) :
  parseStreamData line = Server.text_start tp ->
  textPartId (fst (on_line messageId st line)) = Some (JStr tp)
  /\ currentText (fst (on_line messageId st line)) = "".
Proof.
  intros H. destruct st as [r s]. unfold Client.on_line. rewrite H. split; reflexivity.
Qed.

Lemma fold_deltas_reader (messageId tp : string) (frags : list string)
  (st : Reader * Session) :
  Forall (fun d => JSON_parse (JSON_stringify (Server.text_delta tp d))
                   = Some (Server.text_delta tp d)) frags ->
  Forall (fun d => d <> "") frags ->
  textPartId (fst st) = Some (JStr tp) ->
  textPartId (fst (fold_left (on_line messageId)
                     (map (fun p => "0:" ++ JSON_stringify p)
                        (map (Server.text_delta tp) frags)) st)) = Some (JStr tp)
  /\ currentText (fst (fold_left (on_line messageId)
                         (map (fun p => "0:" ++ JSON_stringify p)
                            (map (Server.text_delta tp) frags)) st))
     = currentText (fst st) ++ concat_strings frags.
Proof.
  intros Hp. revert st. induction Hp as [|d frags Hd _ IH]; intros [r s] Hn Ht.
  - cbn. now rewrite append_nil_r.
  - inversion Hn as [|? ? Hd0 Hn']; subst. cbn [map fold_left].
    cbn [fst] in Ht.
    rewrite (on_line_delta JSON_parse messageId _ tp d r s tp);
      [|rewrite (parseStreamData_0 _ Hd); repeat split|exact Ht].
    rewrite String.eqb_refl. apply String.eqb_neq in Hd0. rewrite Hd0. cbn [andb negb].
    destruct (IH ({| buffer := buffer r; currentText := currentText r ++ d;
                     textPartId := textPartId r;
                     events := (events r
                                ++ [parseStreamData
                                      ("0:" ++ JSON_stringify
                                                 (Server.text_delta tp d))])%list |},
                  updateAssistantMessage messageId (JStr (currentText r ++ d)) s) Hn')
      as [T C]; [exact Ht|].
    split; [exact T|]. rewrite C. cbn [fst currentText concat_strings].
    apply append_assoc.
Qed.

Lemma on_line_text_end (messageId line tp : string) (st : Reader * Session) :
  parseStreamData line = Server.text_end tp ->
  currentText (fst (on_line messageId st line)) = currentText (fst st).
Proof.
  intros H. destruct st as [r s]. unfold Client.on_line. rewrite H. reflexivity.
Qed.

(** The last snapshot puts the full text into the last message. *)
Lemma on_line_final_message (messageId line mid full : string) (st : Reader * Session) :
  parseStreamData line = Server.finalMessage mid full ->
  currentText (fst st) = full ->
  messages (snd (on_line messageId st line))
  = messages (updateAssistantMessage messageId (JStr full) (snd st)).
Proof.
  intros H C. destruct st as [r s]. unfold Client.on_line. rewrite H.
  cbn [fst snd] in *. subst full.
  destruct (currentText r) as [|c t] eqn:E.
  - unfold handle_event. cbn -[updateAssistantMessage]. rewrite E. reflexivity.
  - unfold handle_event. cbn -[updateAssistantMessage]. rewrite append_nil_r.
    reflexivity.
Qed.

Lemma on_line_finish (messageId line : string) (st : Reader * Session) :
  parseStreamData line = JObj [("type", JStr "finish")] ->
  messages (snd (on_line messageId st line)) = messages (snd st).
Proof.
  intros H. destruct st as [r s]. unfold Client.on_line. rewrite H. reflexivity.
Qed.

Lemma collapsed_overwritten (messageId : string) (t : json) (s s' : Session) :
  collapsed s s' ->
  messages (updateAssistantMessage messageId t s')
  = messages (updateAssistantMessage messageId t s).
Proof.
  intros [E|[u E]].
  - unfold updateAssistantMessage, setMessages. cbn [messages]. now rewrite E.
  - rewrite <- (updateAssistantMessage_overwrites "" messageId u t s).
    unfold updateAssistantMessage at 1 3, setMessages. cbn [messages]. now rewrite E.
Qed.

Lemma update_last_snoc (f : Message -> Message) (l : list Message) (m : Message) :
  update_last f (l ++ [m]) = (l ++ [f m])%list.
Proof.
  induction l as [|x l IH]; [reflexivity|].
  cbn [app]. destruct (l ++ [m])%list as [|y l'] eqn:E.
  - now destruct l.
  - cbn [update_last]. cbn [update_last] in IH. rewrite <- IH. reflexivity.
Qed.

(** Reading the lines of an exhausted stream leaves the full text in the
    last message. *)
Lemma fold_wire_lines (messageId mid : string) (stream : Server.Stream) (s : Session) :
  Forall (fun p => JSON_parse (JSON_stringify p) = Some p
                   /\ no_newline (JSON_stringify p) = true)
    (payloads mid stream) ->
  JSON_parse start_payload = Some (JObj [("type", JStr "start")]) ->
  JSON_parse finish_payload = Some (JObj [("type", JStr "finish")]) ->
  messages (snd (fold_left (on_line messageId) (wire_lines mid stream)
                   (initial_reader, s)))
  = messages (updateAssistantMessage messageId
                (JStr (concat_strings (Server.fragments stream))) s).
Proof.
  intros Hp Hs Hf. unfold Terms.wire_lines, payloads in *.
  apply Forall_app in Hp. destruct Hp as [Hhead Hp].
  apply Forall_app in Hp. destruct Hp as [Hdeltas Htail].
  inversion Hhead as [|? ? [Hinit _] Hhead']; subst.
  inversion Hhead' as [|? ? [Hts _] _]; subst.
  inversion Htail as [|? ? [Hte _] Htail']; subst.
  inversion Htail' as [|? ? [Hfin _] _]; subst.
  cbn [fold_left app map]. rewrite !map_app, !fold_left_app. cbn [map fold_left].
  set (st2 := on_line messageId
                (on_line messageId (initial_reader, s) ("0:" ++ start_payload))
                ("0:" ++ JSON_stringify (Server.initialMessage mid))).
  set (st3 := on_line messageId st2
                ("0:" ++ JSON_stringify (Server.text_start ("text-" ++ mid)))).
  set (st4 := fold_left (on_line messageId) _ st3).
  set (st5 := on_line messageId st4
                ("0:" ++ JSON_stringify (Server.text_end ("text-" ++ mid)))).
  destruct (on_line_text_start messageId _ ("text-" ++ mid) st2
              (parseStreamData_0 _ Hts)) as [T3 C3].
  change (textPartId (fst st3) = Some (JStr ("text-" ++ mid))) in T3.
  change (currentText (fst st3) = "") in C3.
  destruct (fold_deltas_reader messageId ("text-" ++ mid) (Server.fragments stream) st3)
    as [_ C4].
  { apply Forall_forall. intros d Hd. rewrite Forall_forall in Hdeltas.
    apply Hdeltas, in_map. exact Hd. }
  { apply Forall_forall. intros d Hd. unfold Server.fragments in Hd.
    apply filter_In in Hd. destruct Hd as [_ Hd]. intros ->. discriminate Hd. }
  { exact T3. }
  change (currentText (fst st4)
          = currentText (fst st3) ++ concat_strings (Server.fragments stream)) in C4.
  rewrite C3 in C4. cbn [append] in C4.
  pose proof (on_line_text_end messageId _ ("text-" ++ mid) st4
                (parseStreamData_0 _ Hte)) as C5.
  change (currentText (fst st5) = currentText (fst st4)) in C5. rewrite C4 in C5.
  rewrite (on_line_finish messageId ("d:" ++ finish_payload));
    [|apply parseStreamData_tagged; [reflexivity|exact Hf]].
  rewrite (on_line_final_message messageId _ mid
             (concat_strings (Server.fragments stream)) st5
             (parseStreamData_0 _ Hfin) C5).
  apply collapsed_overwritten.
  apply (collapsed_trans _ (snd st4)); [|apply on_line_collapsed].
  apply (collapsed_trans _ (snd st3)); [|apply fold_on_line_collapsed].
  apply (collapsed_trans _ (snd st2)); [|apply on_line_collapsed].
  apply (collapsed_trans _
           (snd (on_line messageId (initial_reader, s) ("0:" ++ start_payload))));
    [|apply on_line_collapsed].
  apply (on_line_collapsed JSON_parse messageId (initial_reader, s)).
Qed.

(** X12. The framer and the reader agree.  When the provider's stream is
    exhausted, the body the server writes, cut into chunks in any way and
    read by [sendMessage] to its end, leaves the placeholder holding
    exactly the concatenation of the provider's non-empty fragments, as
    its single text part and as its text; the user message stands before
    it, nothing else is added, and the attempt ends as a success.  It is
    assumed of the built-ins only that [JSON.parse] reads back what
    [JSON.stringify] wrote for the payloads of this stream, and that the
    serialized payloads hold no newline. *)
Theorem server_stream_reaches_client (Date_now http_status : Z)
  (stream : Server.Stream) (chunks : list string) (closure : list Message)
  (content : string) (fresh : Fresh) (s : Session) :
  Server.ending stream = Server.Exhausted ->
  Forall (fun p => JSON_parse (JSON_stringify p) = Some p
                   /\ no_newline (JSON_stringify p) = true)
    (payloads ("msg_" ++ number_toString Date_now) stream) ->
  JSON_parse start_payload = Some (JObj [("type", JStr "start")]) ->
  JSON_parse finish_payload = Some (JObj [("type", JStr "finish")]) ->
  concat_strings chunks
  = concat_strings (Server.written (getHello Date_now (Server.ServiceStream stream))) ->
  validateInput content = Valid ->
  messages (fst (sendMessage closure content fresh
                   (Responded true http_status chunks Done) s))
  = (messages s
     ++ [userMessage content fresh;
         answered (JStr (concat_strings (Server.fragments stream))) fresh])%list
  /\ snd (sendMessage closure content fresh
            (Responded true http_status chunks Done) s) = None
  /\ status (fst (sendMessage closure content fresh
                    (Responded true http_status chunks Done) s)) = READY
  /\ retryCountRef (fst (sendMessage closure content fresh
                           (Responded true http_status chunks Done) s)) = 0%Z.
Proof.
  intros He Hp Hs Hf Hc Hv.
  rewrite (sendMessage_done JSON_parse maxRetries selectedModel) by exact Hv.
  cbn [fst snd]. split; [|repeat split].
  cbn [set_abortController emit set_retryCount setStatus messages].
  rewrite (written_wire_lines Date_now stream He) in Hc.
  fold (unlines (wire_lines ("msg_" ++ number_toString Date_now) stream)) in Hc.
  pose proof (wire_lines_no_newline _ _ Hp) as Hn.
  assert (B : buffer (fst (read_chunks (assistantMessageId fresh) chunks
                             (begin_request closure content fresh s))) = "").
  { rewrite read_chunks_buffer, Hc, split_newline_unlines by exact Hn.
    apply last_last. }
  unfold Client.on_last_buffer. rewrite B.
  change (String.eqb (trim "") "") with true. cbn iota.
  rewrite (read_chunks_unlines JSON_parse _ _ _ _ Hn Hc).
  rewrite (fold_wire_lines _ _ _ _ Hp Hs Hf).
  unfold updateAssistantMessage, setMessages. cbn [messages].
  unfold Client.begin_request.
  cbn [emit set_abortController setMessages setInput setError setStatus messages].
  rewrite update_last_snoc, <- app_assoc. reflexivity.
Qed.

(** *** A stream that fails on the way *)

Lemma written_failure_lines (Date_now : Z) (stream : Server.Stream) (error : string) :
  Server.ending stream = Server.Failed error ->
  Server.written (getHello Date_now (Server.ServiceStream stream))
  = map (fun line => line ++ String newline "")
      (failure_lines JSON_stringify ("msg_" ++ number_toString Date_now) stream error).
Proof.
  destruct stream as [cs e]. cbn [Server.ending]. intros ->.
  unfold Server.getHello, Server.stream_frames. cbn [Server.chunks Server.ending].
  rewrite framer_loop. cbn [Server.fullText Server.res].
  rewrite written_end, !written_write. cbn [Server.written].
  rewrite written_stream_headers.
  unfold failure_lines, Server.fragments.
  cbn [Server.written Server.initial_response Server.chunks append app map].
  rewrite ?map_app, ?map_map, <- ?app_assoc. cbn [map app].
  reflexivity.
Qed.

Lemma failure_lines_no_newline (messageId : string) (stream : Server.Stream)
  (error : string) :
  Forall (fun p => JSON_parse (JSON_stringify p) = Some p
                   /\ no_newline (JSON_stringify p) = true)
    (failure_payloads messageId stream error) ->
  forallb no_newline (failure_lines JSON_stringify messageId stream error) = true.
Proof.
  intros H. unfold failure_lines, failure_payloads in *.
  rewrite app_assoc in H. apply Forall_app in H. destruct H as [H He].
  inversion He as [|? ? [_ Hn] _]; subst.
  cbn [forallb]. rewrite forallb_app.
  apply andb_true_iff. split; [reflexivity|].
  apply andb_true_iff. split.
  - induction H as [|p ps [_ Hp] _ IH]; [reflexivity|].
    cbn [map forallb]. rewrite IH, andb_true_r.
    apply tagged_line_no_newline; [reflexivity|exact Hp].
  - cbn [forallb]. rewrite andb_true_r.
    apply tagged_line_no_newline; [reflexivity|exact Hn].
Qed.

Lemma on_line_start (messageId line : string) (st : Reader * Session) :
  parseStreamData line = JObj [("type", JStr "start")] ->
  messages (snd (on_line messageId st line)) = messages (snd st)
  /\ currentText (fst (on_line messageId st line)) = currentText (fst st).
Proof.
  intros H. destruct st as [r s]. unfold Client.on_line. rewrite H. split; reflexivity.
Qed.

Lemma on_line_initial_message (messageId line mid : string) (st : Reader * Session) :
  parseStreamData line = Server.initialMessage mid ->
  messages (snd (on_line messageId st line))
  = messages (updateAssistantMessage messageId (JStr (currentText (fst st))) (snd st)).
Proof.
  intros H. destruct st as [r s]. unfold Client.on_line. rewrite H. reflexivity.
Qed.

Lemma on_line_text_start_messages (messageId line tp : string) (st : Reader * Session) :
  parseStreamData line = Server.text_start tp ->
  messages (snd (on_line messageId st line)) = messages (snd st).
Proof.
  intros H. destruct st as [r s]. unfold Client.on_line. rewrite H. reflexivity.
Qed.

Lemma on_line_error (messageId line error : string) (st : Reader * Session) :
  parseStreamData line = Server.error_data error ->
  messages (snd (on_line messageId st line)) = messages (snd st).
Proof.
  intros H. destruct st as [r s]. unfold Client.on_line. rewrite H. reflexivity.
Qed.

Lemma fold_deltas_messages (messageId tp : string) (frags : list string)
  (st : Reader * Session) :
  Forall (fun d => JSON_parse (JSON_stringify (Server.text_delta tp d))
                   = Some (Server.text_delta tp d)) frags ->
  Forall (fun d => d <> "") frags ->
  textPartId (fst st) = Some (JStr tp) ->
  messages (snd (fold_left (on_line messageId)
                   (map (fun p => "0:" ++ JSON_stringify p)
                      (map (Server.text_delta tp) frags)) st))
  = match frags with
    | [] => messages (snd st)
    | _ => messages (updateAssistantMessage messageId
                       (JStr (currentText (fst st) ++ concat_strings frags)) (snd st))
    end.
Proof.
  intros Hp. revert st. induction Hp as [|d frags Hd Hp IH]; intros [r s] Hn Ht.
  - reflexivity.
  - inversion Hn as [|? ? Hd0 Hn']; subst. cbn [map fold_left].
    cbn [fst snd] in *.
    rewrite (on_line_delta JSON_parse messageId _ tp d r s tp);
      [|rewrite (parseStreamData_0 _ Hd); repeat split|exact Ht].
    rewrite String.eqb_refl. apply String.eqb_neq in Hd0. rewrite Hd0. cbn [andb negb].
    rewrite IH; [|exact Hn'|exact Ht]. cbn [fst snd currentText].
    destruct frags as [|d' frags].
    + cbn [concat_strings]. now rewrite append_nil_r.
    + rewrite updateAssistantMessage_overwrites.
      cbn [concat_strings]. now rewrite append_assoc.
Qed.

Lemma fold_failure_lines (messageId mid error : string) (stream : Server.Stream)
  (s : Session) :
  Forall (fun p => JSON_parse (JSON_stringify p) = Some p
                   /\ no_newline (JSON_stringify p) = true)
    (failure_payloads mid stream error) ->
  JSON_parse start_payload = Some (JObj [("type", JStr "start")]) ->
  messages (snd (fold_left (on_line messageId)
                   (failure_lines JSON_stringify mid stream error)
                   (initial_reader, s)))
  = messages (updateAssistantMessage messageId
                (JStr (concat_strings (Server.fragments stream))) s).
Proof.
  intros Hp Hs. unfold failure_lines, failure_payloads in *.
  apply Forall_app in Hp. destruct Hp as [Hhead Hp].
  apply Forall_app in Hp. destruct Hp as [Hdeltas Htail].
  inversion Hhead as [|? ? [Hinit _] Hhead']; subst.
  inversion Hhead' as [|? ? [Hts _] _]; subst.
  inversion Htail as [|? ? [Herr _] _]; subst.
  cbn [fold_left app map]. rewrite !fold_left_app. cbn [map fold_left].
  set (st1 := on_line messageId (initial_reader, s) ("0:" ++ start_payload)).
  set (st2 := on_line messageId st1 ("0:" ++ JSON_stringify (Server.initialMessage mid))).
  set (st3 := on_line messageId st2
                ("0:" ++ JSON_stringify (Server.text_start ("text-" ++ mid)))).
  destruct (on_line_start messageId ("0:" ++ start_payload) (initial_reader, s))
    as [M1 C1]; [apply parseStreamData_tagged; [reflexivity|exact Hs]|].
  change (messages (snd st1) = messages s) in M1.
  change (currentText (fst st1) = "") in C1.
  pose proof (on_line_initial_message messageId _ mid st1 (parseStreamData_0 _ Hinit))
    as M2.
  change (messages (snd st2)
          = messages (updateAssistantMessage messageId (JStr (currentText (fst st1)))
                        (snd st1))) in M2.
  rewrite C1 in M2.
  pose proof (on_line_text_start_messages messageId _ ("text-" ++ mid) st2
                (parseStreamData_0 _ Hts)) as M3.
  change (messages (snd st3) = messages (snd st2)) in M3.
  destruct (on_line_text_start messageId _ ("text-" ++ mid) st2
              (parseStreamData_0 _ Hts)) as [T3 C3].
  change (textPartId (fst st3) = Some (JStr ("text-" ++ mid))) in T3.
  change (currentText (fst st3) = "") in C3.
  rewrite (on_line_error messageId _ error _ (parseStreamData_e _ Herr)).
  rewrite (fold_deltas_messages messageId ("text-" ++ mid) (Server.fragments stream) st3).
  - assert (K : collapsed s (snd st3)).
    { right. exists (JStr ""). rewrite M3, M2.
      unfold updateAssistantMessage, setMessages. cbn [messages]. now rewrite M1. }
    destruct (Server.fragments stream) as [|d frags].
    + rewrite M3, M2. cbn [concat_strings].
      apply collapsed_overwritten. left. exact M1.
    + rewrite C3. cbn [append]. apply collapsed_overwritten. exact K.
  - apply Forall_forall. intros d Hd. rewrite Forall_forall in Hdeltas.
    apply Hdeltas, in_map. exact Hd.
  - apply Forall_forall. intros d Hd. unfold Server.fragments in Hd.
    apply filter_In in Hd. destruct Hd as [_ Hd]. intros ->. discriminate Hd.
  - exact T3.
Qed.

(** X19. A failure of the provider in the middle of a stream reaches
    the user as a success.  When the stream throws after some fragments,
    the body the server writes, read by [sendMessage] to its end in any
    chunking, leaves the placeholder holding the fragments sent before the
    failure; the attempt ends with status ready, the retry counter at 0,
    no error recorded, no error marker on the message and no retry
    timer: the error event is not shown and not retried.  The assumption
    on the built-ins is that of the exhausted case. *)
Theorem provider_failure_ends_as_success (Date_now http_status : Z)
  (stream : Server.Stream) (error : string) (chunks : list string)
  (closure : list Message) (content : string) (fresh : Fresh) (s : Session) :
  Server.ending stream = Server.Failed error ->
  Forall (fun p => JSON_parse (JSON_stringify p) = Some p
                   /\ no_newline (JSON_stringify p) = true)
    (failure_payloads ("msg_" ++ number_toString Date_now) stream error) ->
  JSON_parse start_payload = Some (JObj [("type", JStr "start")]) ->
  concat_strings chunks
  = concat_strings (Server.written (getHello Date_now (Server.ServiceStream stream))) ->
  validateInput content = Valid ->
  messages (fst (sendMessage closure content fresh
                   (Responded true http_status chunks Done) s))
  = (messages s
     ++ [userMessage content fresh;
         answered (JStr (concat_strings (Server.fragments stream))) fresh])%list
  /\ snd (sendMessage closure content fresh
            (Responded true http_status chunks Done) s) = None
  /\ status (fst (sendMessage closure content fresh
                    (Responded true http_status chunks Done) s)) = READY
  /\ retryCountRef (fst (sendMessage closure content fresh
                           (Responded true http_status chunks Done) s)) = 0%Z
  /\ lastError (fst (sendMessage closure content fresh
                       (Responded true http_status chunks Done) s)) = None.
Proof.
  intros He Hp Hs Hc Hv.
  destruct (sendMessage_success_accounting JSON_parse maxRetries selectedModel
              closure content fresh (Responded true http_status chunks Done) s Hv eq_refl)
    as (T & C & S & L & _).
  split; [|repeat split; assumption].
  rewrite (sendMessage_done JSON_parse maxRetries selectedModel) by exact Hv.
  cbn [fst set_abortController emit set_retryCount setStatus messages].
  rewrite (written_failure_lines Date_now stream error He) in Hc.
  fold (unlines (failure_lines JSON_stringify ("msg_" ++ number_toString Date_now)
                   stream error)) in Hc.
  pose proof (failure_lines_no_newline _ _ _ Hp) as Hn.
  assert (B : buffer (fst (read_chunks (assistantMessageId fresh) chunks
                             (begin_request closure content fresh s))) = "").
  { rewrite read_chunks_buffer, Hc, split_newline_unlines by exact Hn.
    apply last_last. }
  unfold Client.on_last_buffer. rewrite B.
  change (String.eqb (trim "") "") with true. cbn iota.
  rewrite (read_chunks_unlines JSON_parse _ _ _ _ Hn Hc).
  rewrite (fold_failure_lines _ _ _ _ _ Hp Hs).
  unfold updateAssistantMessage, setMessages. cbn [messages].
  unfold Client.begin_request.
  cbn [emit set_abortController setMessages setInput setError setStatus messages].
  rewrite update_last_snoc, <- app_assoc. reflexivity.
Qed.

End EndToEnd.

(** ** The chat history *)
Section HistoryFacts.
Import JS Client History.

Lemma units_continuation (c : ascii) : is_continuation c = true -> units c = 0.
Proof. unfold units. now intros ->. Qed.

Lemma continuation_byte (lo x bound : N) :
  (128 <= lo)%N -> (lo + bound <= 192)%N -> (x < bound)%N ->
  units (ascii_of_N (lo + x)) = 0.
Proof.
  intros A B C. apply units_continuation. unfold is_continuation, byte.
  rewrite N_ascii_embedding by lia.
  apply andb_true_iff. split; [apply N.leb_le|apply N.ltb_lt]; lia.
Qed.

Lemma high_surrogate_length (b1 b2 b3 : N) :
  utf16_length (high_surrogate b1 b2 b3) = 1.
Proof.
  unfold high_surrogate. cbv zeta.
  generalize ((b1 mod 8) * 256 + (b2 mod 64) * 4 + (b3 mod 64) / 16 - 64)%N.
  intros h. cbn [utf16_length].
  rewrite (continuation_byte 160 ((h / 64) mod 16) 16);
    [|lia|lia|apply N.mod_upper_bound; discriminate].
  rewrite (continuation_byte 128 (h mod 64) 64);
    [|lia|lia|apply N.mod_upper_bound; discriminate].
  reflexivity.
Qed.

(** A cut has the units asked for, or all there are. *)
Lemma slice0_length (n : nat) (s : string) :
  utf16_length (slice0 n s) = Nat.min n (utf16_length s).
Proof.
  revert n. induction s as [|c s IH]; intros n; [cbn; lia|].
  cbn [slice0 utf16_length]. unfold units.
  destruct (is_continuation c) eqn:C.
  - cbn [utf16_length]. rewrite (units_continuation c C), IH. lia.
  - destruct n as [|n]; [reflexivity|].
    destruct (N.leb 240 (byte c)) eqn:F.
    + destruct n as [|n].
      * rewrite high_surrogate_length. lia.
      * cbn [utf16_length]. unfold units. rewrite C, F, IH. lia.
    + cbn [utf16_length]. unfold units. rewrite C, F, IH. lia.
Qed.

Lemma slice0_all (n : nat) (s : string) :
  utf16_length s <= n -> slice0 n s = s.
Proof.
  revert n. induction s as [|c s IH]; intros n H; [reflexivity|].
  cbn [slice0 utf16_length] in *. unfold units in H.
  destruct (is_continuation c) eqn:C.
  - rewrite IH; [reflexivity|lia].
  - destruct n as [|n]; [destruct (N.leb 240 (byte c)); lia|].
    destruct (N.leb 240 (byte c)) eqn:F.
    + destruct n as [|n]; [lia|]. rewrite IH; [reflexivity|lia].
    + rewrite IH; [reflexivity|lia].
Qed.

Lemma title_of_bound (msgs : list Message) (t : string) :
  title_of msgs = Normal t -> t <> "" /\ utf16_length t <= 50.
Proof.
  unfold title_of. destruct msgs as [|m _]; [intros H; inversion H; split; [discriminate|cbn; lia]|].
  destruct (parts m) as [|p _]; [intros H; inversion H; split; [discriminate|cbn; lia]|].
  destruct (part_text p) as [|b|n|text|items|fields]; intros H; inversion H; subst;
    try (split; [discriminate|cbn; lia]).
  destruct (String.eqb (slice0 50 text) "") eqn:E.
  - split; [discriminate|cbn; lia].
  - apply String.eqb_neq in E. split; [exact E|].
    rewrite slice0_length. lia.
Qed.

Lemma call_invariant (h : list ChatSession) (c : Call) :
  List.length h <= 10
  /\ Forall (fun x => title x <> "" /\ utf16_length (title x) <= 50) h ->
  List.length (call h c) <= 10
  /\ Forall (fun x => title x <> "" /\ utf16_length (title x) <= 50) (call h c).
Proof.
  intros [L F]. destruct c as [msgs gid now| |sid]; cbn [call].
  - unfold saveToHistory. destruct (title_of msgs) as [t|e] eqn:T; [|split; assumption].
    split.
    + cbn [List.length]. rewrite length_firstn. lia.
    + constructor; [exact (title_of_bound _ _ T)|].
      apply Forall_forall. intros x Hx. rewrite Forall_forall in F.
      apply F. rewrite <- (firstn_skipn 9 h). apply in_or_app. now left.
  - split; [cbn; lia|constructor].
  - unfold deleteFromHistory. split.
    + pose proof (filter_length_le
                    (fun session => negb (String.eqb (session_id session) sid)) h). lia.
    + apply Forall_forall. intros x Hx. apply filter_In in Hx.
      rewrite Forall_forall in F. now apply F.
Qed.

(** X13. The history never holds more than ten sessions, whatever is
    saved, deleted or cleared, and in whatever order; and every session
    in it has a title that is not empty and has at most 50 UTF-16 code
    units. *)
Theorem history_is_bounded (calls : list Call) :
  List.length (fold_left call calls []) <= 10
  /\ Forall (fun x => title x <> "" /\ utf16_length (title x) <= 50)
       (fold_left call calls []).
Proof.
  assert (G : forall h,
             List.length h <= 10
             /\ Forall (fun x => title x <> "" /\ utf16_length (title x) <= 50) h ->
             List.length (fold_left call calls h) <= 10
             /\ Forall (fun x => title x <> "" /\ utf16_length (title x) <= 50)
                  (fold_left call calls h)).
  { induction calls as [|c calls IH]; intros h H; [exact H|].
    cbn [fold_left]. apply IH, call_invariant, H. }
  apply G. split; [cbn; lia|constructor].
Qed.

(** X14. A full history loses its oldest session to a save, and the
    deletion of the session just saved does not bring it back: what is
    left are the nine newer sessions, without those that share the id of
    the new one. *)
Theorem save_then_delete_is_no_undo (msgs : list Message) (generated_id : string)
  (Date_now : Z) (h saved : list ChatSession) :
  saveToHistory msgs generated_id Date_now h = Normal saved ->
  deleteFromHistory generated_id saved = deleteFromHistory generated_id (firstn 9 h)
  /\ List.length (deleteFromHistory generated_id saved) <= 9
  /\ (10 <= List.length h -> deleteFromHistory generated_id saved <> h).
Proof.
  unfold saveToHistory.
  destruct (title_of msgs) as [t|e]; intros H; [injection H as <-|discriminate H].
  assert (E : deleteFromHistory generated_id
                ({| session_id := generated_id; session_timestamp := Date_now;
                    session_messages := msgs; title := t |} :: firstn 9 h)
              = deleteFromHistory generated_id (firstn 9 h)).
  { unfold deleteFromHistory. cbn [filter session_id]. now rewrite String.eqb_refl. }
  assert (B : List.length (deleteFromHistory generated_id (firstn 9 h)) <= 9).
  { unfold deleteFromHistory.
    pose proof (filter_length_le
                  (fun session => negb (String.eqb (session_id session) generated_id))
                  (firstn 9 h)).
    rewrite length_firstn in *. lia. }
  rewrite <- E in B. split; [exact E|]. split; [exact B|].
  intros L C.
  assert (B' : List.length h <= 9) by (rewrite <- C; exact B). lia.
Qed.

End HistoryFacts.

(** ** The storage helpers *)
Section StorageFacts.
Import JS Storage.

Variable JSON_parse : string -> option json.
Variable JSON_stringify : json -> string.

Local Abbreviation get := (Storage.get JSON_parse).
Local Abbreviation set := (Storage.set JSON_stringify).

Lemma getItem_removeItem (key : string) (store : LocalStorage) :
  getItem key (removeItem key store) = None.
Proof.
  induction store as [|[k v] store IH]; [reflexivity|].
  cbn [removeItem filter fst]. destruct (String.eqb key k) eqn:E; cbn [negb].
  - exact IH.
  - cbn [getItem]. rewrite E. exact IH.
Qed.

Lemma getItem_removeItem_other (key key' : string) (store : LocalStorage) :
  key' <> key -> getItem key' (removeItem key store) = getItem key' store.
Proof.
  intros N. induction store as [|[k v] store IH]; [reflexivity|].
  cbn [removeItem filter fst getItem]. destruct (String.eqb key k) eqn:E; cbn [negb].
  - apply String.eqb_eq in E. subst k.
    apply String.eqb_neq in N. rewrite N. exact IH.
  - cbn [getItem]. destruct (String.eqb key' k); [reflexivity|exact IH].
Qed.

(** X15. The storage helpers round-trip: a value that [JSON.parse] reads
    back from its serialization, and whose serialization is not the empty
    string, is what [get] returns after [set]; other keys are not
    touched; after [remove] the default comes back; a write that the
    store refuses changes nothing; and an item that does not parse gives
    the default. *)
Theorem storage_round_trip (key : string) (v d : json) (store : LocalStorage) :
  JSON_parse (JSON_stringify v) = Some v ->
  JSON_stringify v <> "" ->
  get key d (set key v true store) = v
  /\ (forall key' d', key' <> key ->
        get key' d' (set key v true store) = get key' d' store)
  /\ get key d (Storage.remove key (set key v true store)) = d
  /\ set key v false store = store
  /\ (forall item, JSON_parse item = None -> get key d (setItem key item store) = d).
Proof.
  intros P N. unfold Storage.get, Storage.set, Storage.remove, setItem.
  repeat split.
  - cbn [getItem]. rewrite String.eqb_refl. apply String.eqb_neq in N. now rewrite N, P.
  - intros key' d' Hk. cbn [getItem]. pose proof Hk as Hk'.
    apply String.eqb_neq in Hk'. rewrite Hk'.
    now rewrite getItem_removeItem_other.
  - cbn [removeItem filter fst]. rewrite String.eqb_refl. cbn [negb].
    fold (removeItem key (removeItem key store)). now rewrite getItem_removeItem.
  - intros item H. cbn [getItem]. rewrite String.eqb_refl, H.
    now destruct (String.eqb item "").
Qed.

End StorageFacts.

(** ** The message view *)
Section ViewFacts.
Import JS Client Terms View.

Lemma tick_length (target printed : string) :
  utf16_length (tick target printed)
  = Nat.min (utf16_length printed + 1) (utf16_length target).
Proof. unfold tick. rewrite slice0_length. lia. Qed.

Lemma fires_active (n : nat) (text printed : string) :
  fires (S n) text true printed
  = if Nat.ltb (utf16_length printed) (utf16_length text)
    then slice0 (Nat.min (utf16_length printed + S n) (utf16_length text)) text
    else printed.
Proof.
  revert printed. induction n as [|n IH]; intros printed.
  - cbn [fires]. unfold fire. rewrite andb_true_r.
    destruct (Nat.ltb (utf16_length printed) (utf16_length text)); reflexivity.
  - change (fires (S (S n)) text true printed)
      with (fires (S n) text true (fire text true printed)).
    rewrite IH. unfold fire. rewrite andb_true_r.
    destruct (Nat.ltb (utf16_length printed) (utf16_length text)) eqn:B.
    + apply Nat.ltb_lt in B. rewrite tick_length.
      destruct (Nat.ltb (Nat.min (utf16_length printed + 1) (utf16_length text))
                  (utf16_length text)) eqn:B'.
      * apply Nat.ltb_lt in B'. f_equal. lia.
      * apply Nat.ltb_ge in B'. unfold tick. f_equal. lia.
    + now rewrite B.
Qed.

(** X16. The typewriter.  While the component is active and the text
    printed is shorter than the text to show, every period prints one
    more UTF-16 code unit of the text to show: after n >= 1 periods the
    printed text is that text's first min(printed.length + n,
    text.length) units, whatever was printed before, and it is the whole
    text after as many periods as units were missing.  When the printed
    text is not shorter, no interval is started and the printed text
    stays as it is, also when it differs from the text to show.  An
    inactive component starts no interval either; its second effect
    prints the whole text at once. *)
Theorem typewriter_catches_up (text printed : string) (n k : nat) :
  fires (S n) text true printed
  = (if Nat.ltb (utf16_length printed) (utf16_length text)
     then slice0 (Nat.min (utf16_length printed + S n) (utf16_length text)) text
     else printed)
  /\ fires (utf16_length text - utf16_length printed + k) text true printed
     = (if Nat.ltb (utf16_length printed) (utf16_length text) then text else printed)
  /\ fires n text false printed = printed
  /\ settle text false printed = text.
Proof.
  split; [apply fires_active|]. split; [|split].
  - destruct (Nat.ltb (utf16_length printed) (utf16_length text)) eqn:B.
    + apply Nat.ltb_lt in B.
      replace (utf16_length text - utf16_length printed + k)
        with (S (utf16_length text - utf16_length printed - 1 + k)) by lia.
      rewrite fires_active. apply Nat.ltb_lt in B. rewrite B.
      apply slice0_all. lia.
    + generalize (utf16_length text - utf16_length printed + k) as m.
      induction m as [|m IH]; [reflexivity|].
      cbn [fires]. unfold fire. rewrite B. exact IH.
  - induction n as [|n IH]; [reflexivity|].
    cbn [fires]. unfold fire. rewrite andb_false_r. exact IH.
  - unfold settle. cbn [negb andb].
    destruct (String.eqb printed text) eqn:E; [|reflexivity].
    now apply String.eqb_eq in E.
Qed.

Lemma last_update_last (f : Message -> Message) (l : list Message) (d : Message) :
  l <> [] -> last (update_last f l) d = f (last l d).
Proof.
  induction l as [|m l IH]; intros H; [contradiction|].
  destruct l as [|m' l]; [reflexivity|].
  change (update_last f (m :: m' :: l)) with (m :: update_last f (m' :: l)).
  change (last (m :: m' :: l) d) with (last (m' :: l) d).
  rewrite <- IH by discriminate.
  destruct (update_last f (m' :: l)) eqn:E; [|reflexivity].
  destruct l; discriminate E.
Qed.

(** X17. The view shows what the stream put into the message: after
    [updateAssistantMessage] with a string, on a list whose last message
    is an assistant's, the text the view extracts from that message is
    the string.  For a message made by [createMessage] from a content
    alone it is the content. *)
Theorem view_shows_streamed_text (messageId t : string) (s : Session)
  (content : string) (r : option Role) (Date_now : Z) (generated_id : string) :
  Role_eqb (role (last (messages s) no_message)) ASSISTANT = true ->
  extractMessageText
    (last (messages (updateAssistantMessage messageId (JStr t) s)) no_message) = t
  /\ extractMessageText
       (createMessage {| opt_id := None; opt_role := r; opt_content := Some content;
                         opt_parts := None; opt_timestamp := None |}
          Date_now generated_id) = content.
Proof.
  intros R. split.
  - unfold updateAssistantMessage, setMessages. cbn [messages].
    destruct (messages s) as [|m l] eqn:E; [discriminate R|].
    rewrite last_update_last by discriminate. rewrite R.
    unfold extractMessageText. cbn. apply append_nil_r.
  - unfold extractMessageText. cbn. apply append_nil_r.
Qed.

End ViewFacts.

(** ** What the service makes of the request *)
Section ServiceFacts.
Import JS Client Terms Service.

Lemma find_text_part_parts (ps : list Part) :
  find_text_part (map part_json ps)
  = Normal (option_map part_json
              (find (fun p => String.eqb (part_type p) "text") ps)).
Proof.
  induction ps as [|p ps IH]; [reflexivity|].
  cbn [map find].
  change (find_text_part (part_json p :: map part_json ps))
    with (if String.eqb (part_type p) "text" then Normal (Some (part_json p))
          else find_text_part (map part_json ps)).
  destruct (String.eqb (part_type p) "text"); [reflexivity|exact IH].
Qed.

Lemma aiMessage_message_json (m : Message) :
  aiMessage (message_json m) = Normal (provider_message m).
Proof.
  unfold aiMessage, message_json. cbn [get assoc app String.eqb Ascii.eqb Bool.eqb andb].
  rewrite find_text_part_parts. unfold provider_message, role_of.
  cbn [get assoc app String.eqb Ascii.eqb Bool.eqb andb is_string].
  do 3 f_equal.
  - destruct (role m); reflexivity.
  - destruct (find _ (parts m)) as [p|]; [|reflexivity].
    cbn [option_map part_json get assoc String.eqb Ascii.eqb Bool.eqb andb].
    unfold or_else, truthy_value. now destruct (truthy (part_text p)).
Qed.

(** X18. The service reads a request of the hook without failing, and
    hands the provider one message per message of the request, in order:
    the role is user for a user message and assistant for every other
    (a system message too); the content is the text of the first part of
    type text when that is truthy, and the empty string otherwise; the
    top-level text and the error marker are not read.  The last message
    of a request that [sendMessage] sends is the user's, with the text
    submitted. *)
Theorem service_reads_hook_messages (ms : list Message) (selectedModel : string)
  (closure : list Message) (content : string) (fresh : Fresh) :
  aiMessages (map message_json ms) = Normal (map provider_message ms)
  /\ aiMessages (map message_json
                   (req_messages (request_of selectedModel closure content fresh)))
     = Normal (map provider_message closure
               ++ [JObj [("role", JStr "user"); ("content", JStr content)]])%list.
Proof.
  assert (G : forall l, aiMessages (map message_json l) = Normal (map provider_message l)).
  { induction l as [|m l IH]; [reflexivity|].
    cbn [map aiMessages]. now rewrite aiMessage_message_json, IH. }
  split; [apply G|]. rewrite G. cbn [request_of req_messages].
  rewrite map_app. cbn [map]. do 3 f_equal.
  unfold provider_message, userMessage. cbn. now destruct content.
Qed.

End ServiceFacts.

(** ** Concrete runs of the further properties *)
Section FurtherRuns.
Import JS Client Terms Scenario Cases.

(** C3 at work: the bytes written for the fragments "H", "" and "i". *)
Lemma framer_canonical_order_witness :
  Server.written (Server.getHello JSON.stringify 17 (Server.ServiceStream hi_stream))
  = map (fun l => sq l ++ lf)
      ["0:{'type':'start'}";
       "0:{'type':'message','message':{'id':'msg_17','role':'assistant','parts':[]}}";
       "0:{'type':'text-start','id':'text-msg_17'}";
       "0:{'type':'text-delta','id':'text-msg_17','delta':'H'}";
       "0:{'type':'text-delta','id':'text-msg_17','delta':'i'}";
       "0:{'type':'text-end','id':'text-msg_17'}";
       "0:{'type':'message','message':{'id':'msg_17','role':'assistant','parts':[{'type':'text','text':'Hi'}]}}";
       "d:{'type':'finish'}"].
Proof.
  pose proof (framer_canonical_order JSON.stringify 17 (Server.chunks hi_stream)) as H.
  cbv zeta in H. destruct H as (W & _).
  etransitivity; [exact W|]. vm_compute. reflexivity.
Defined.

(** The bytes written when the provider fails after the fragment "H". *)
Lemma framer_failure_witness :
  Server.written (Server.getHello JSON.stringify 17 (Server.ServiceStream failing_stream))
  = map (fun l => sq l ++ lf)
      ["0:{'type':'start'}";
       "0:{'type':'message','message':{'id':'msg_17','role':'assistant','parts':[]}}";
       "0:{'type':'text-start','id':'text-msg_17'}";
       "0:{'type':'text-delta','id':'text-msg_17','delta':'H'}";
       "e:{'type':'error','error':'Error: rate limit exceeded'}"].
Proof.
  pose proof (framer_failure JSON.stringify 17 (Server.chunks failing_stream)
                "Error: rate limit exceeded") as H.
  cbv zeta in H. destruct H as (W & _).
  etransitivity; [exact W|]. vm_compute. reflexivity.
Defined.

(** C5. A second request while the first is streaming.  [retryLastMessage]
    is [sendMessage] with the text of the last user message, and neither
    tests the status: called while the first response is being read, it
    appends a second user message and a second placeholder and sends a
    second request; both requests are then outstanding (neither has
    ended), and the one abort controller ref holds the second
    controller. *)
Lemma retry_while_streaming_opens_second_request :
  status (in_flight [] "Hello" fresh1 (firstn 4 hi_frames) initial_session) = STREAMING
  /\ map req_id
       (requests (trace (in_flight [] "Hello" fresh1 (firstn 4 hi_frames)
                           initial_session)))
     = ["msg-1000-b1"]
  /\ retryLastMessage
       (messages (in_flight [] "Hello" fresh1 (firstn 4 hi_frames) initial_session))
       fresh2 (Responded true 200 hi_frames Done)
       (in_flight [] "Hello" fresh1 (firstn 4 hi_frames) initial_session)
     = sendMessage
         (messages (in_flight [] "Hello" fresh1 (firstn 4 hi_frames) initial_session))
         "Hello" fresh2 (Responded true 200 hi_frames Done)
         (in_flight [] "Hello" fresh1 (firstn 4 hi_frames) initial_session)
  /\ status
       (in_flight
          (messages (in_flight [] "Hello" fresh1 (firstn 4 hi_frames) initial_session))
          "Hello" fresh2 (firstn 4 hi_frames)
          (in_flight [] "Hello" fresh1 (firstn 4 hi_frames) initial_session))
     = STREAMING
  /\ map (fun m => (id m, role m))
       (messages
          (in_flight
             (messages (in_flight [] "Hello" fresh1 (firstn 4 hi_frames) initial_session))
             "Hello" fresh2 (firstn 4 hi_frames)
             (in_flight [] "Hello" fresh1 (firstn 4 hi_frames) initial_session)))
     = [("user-1000-a1", USER); ("msg-1000-c1", ASSISTANT);
        ("user-2000-a2", USER); ("msg-2000-c2", ASSISTANT)]
  /\ map req_id
       (requests
          (trace
             (in_flight
                (messages (in_flight [] "Hello" fresh1 (firstn 4 hi_frames)
                             initial_session))
                "Hello" fresh2 (firstn 4 hi_frames)
                (in_flight [] "Hello" fresh1 (firstn 4 hi_frames) initial_session))))
     = ["msg-1000-b1"; "msg-2000-b2"]
  /\ filter (fun e => match e with OnSuccess | OnError _ => true | _ => false end)
       (trace
          (in_flight
             (messages (in_flight [] "Hello" fresh1 (firstn 4 hi_frames) initial_session))
             "Hello" fresh2 (firstn 4 hi_frames)
             (in_flight [] "Hello" fresh1 (firstn 4 hi_frames) initial_session)))
     = []
  /\ abortControllerRef
       (in_flight
          (messages (in_flight [] "Hello" fresh1 (firstn 4 hi_frames) initial_session))
          "Hello" fresh2 (firstn 4 hi_frames)
          (in_flight [] "Hello" fresh1 (firstn 4 hi_frames) initial_session))
     = Some false.
Proof. vm_compute. repeat split. Qed.

(** [validateInput] on an ideographic space, on 1400 characters of three
    bytes each, and on 4001 and 4000 letters. *)
Lemma validateInput_trimmed_witness :
  validateInput ideographic_space = Invalid "Input cannot be empty"
  /\ validateInput (repeated 1400 zhong) = Valid
  /\ validateInput (repeated 4001 "a") = Invalid "Input too long (max 4000 characters)"
  /\ validateInput (" " ++ repeated 4000 "a" ++ ideographic_space) = Valid.
Proof.
  destruct (validateInput_trimmed ideographic_space) as [_ E1].
  destruct (validateInput_trimmed (repeated 1400 zhong)) as [_ E2].
  destruct (validateInput_trimmed (repeated 4001 "a")) as [_ E3].
  destruct (validateInput_trimmed (" " ++ repeated 4000 "a" ++ ideographic_space))
    as [_ E4].
  split; [etransitivity; [exact E1|vm_compute; reflexivity]|].
  split; [etransitivity; [exact E2|vm_compute; reflexivity]|].
  split; [etransitivity; [exact E3|vm_compute; reflexivity]|].
  etransitivity; [exact E4|vm_compute; reflexivity].
Defined.

Lemma invalid_input_witness :
  all_space (" " ++ ideographic_space) = true
  /\ messages (fst (sendMessage [] (" " ++ ideographic_space) fresh1 network_down
                      initial_session)) = []
  /\ requests (trace (fst (sendMessage [] (" " ++ ideographic_space) fresh1 network_down
                             initial_session))) = []
  /\ lastError (fst (sendMessage [] (" " ++ ideographic_space) fresh1 network_down
                       initial_session))
     = Some "Input cannot be empty".
Proof.
  split; [reflexivity|].
  destruct (invalid_input_sends_nothing JSON.parse maxRetries selectedModel []
              (" " ++ ideographic_space) fresh1 network_down [] initial_session)
    as (reason & V & _ & M & _ & _ & R & _ & L & _).
  - left. reflexivity.
  - split; [exact M|]. split; [exact R|]. reflexivity.
Defined.

Lemma deltas_concatenate_witness :
  currentText
    (fst (fold_left (Client.on_line JSON.parse "m") [delta_line "H"; delta_line "i"]
            (reader_in_part, initial_session))) = "Hi".
Proof.
  destruct (deltas_concatenate JSON.parse "m" "t" [delta_line "H"; delta_line "i"]
              [("t", "H"); ("t", "i")] reader_in_part initial_session) as (C & _).
  - constructor; [vm_compute; repeat split|].
    constructor; [vm_compute; repeat split|]. constructor.
  - reflexivity.
  - exact C.
Defined.

Lemma backoff_schedule_witness :
  timer_delays
    (trace (submit [] "Hello"
              ([(fresh1, network_down); (fresh2, network_down); (fresh3, network_down)]
               ++ [(fresh4, network_down)]) initial_session))
  = [1000; 2000; 3000]%Z
  /\ requests
       (trace (submit [] "Hello"
                 ([(fresh1, network_down); (fresh2, network_down); (fresh3, network_down)]
                  ++ [(fresh4, network_down)]) initial_session))
     = map (request_of selectedModel [] "Hello") [fresh1; fresh2; fresh3; fresh4].
Proof.
  destruct (backoff_schedule JSON.parse maxRetries selectedModel [] "Hello"
              [(fresh1, network_down); (fresh2, network_down); (fresh3, network_down)]
              (fresh4, network_down) initial_session) as (T & R).
  - discriminate.
  - reflexivity.
  - reflexivity.
  - reflexivity.
  - reflexivity.
  - split; [exact T|exact R].
Defined.

Lemma success_after_failures_witness :
  succeeds answer = true
  /\ retryCountRef
       (submit [] "Hello" ([(fresh1, network_down)] ++ [(fresh2, answer)])
          initial_session) = 0%Z
  /\ status
       (submit [] "Hello" ([(fresh1, network_down)] ++ [(fresh2, answer)])
          initial_session) = READY
  /\ List.length
       (requests
          (trace (submit [] "Hello" ([(fresh1, network_down)] ++ [(fresh2, answer)])
                    initial_session))) = 2.
Proof.
  split; [reflexivity|].
  destruct (success_after_failures JSON.parse maxRetries selectedModel [] "Hello"
              [(fresh1, network_down)] fresh2 answer [] initial_session)
    as (C & S & _ & _ & R & _).
  - reflexivity.
  - reflexivity.
  - discriminate.
  - reflexivity.
  - split; [exact C|]. split; [exact S|exact R].
Defined.

Lemma abort_between_attempts_witness :
  fails network_down = true
  /\ abortRequest (fst (sendMessage [] "Hello" fresh1 network_down initial_session))
     = fst (sendMessage [] "Hello" fresh1 network_down initial_session)
  /\ snd (sendMessage [] "Hello" fresh1 network_down initial_session) = Some 1000%Z.
Proof.
  split; [reflexivity|].
  destruct (abort_between_attempts_is_noop JSON.parse maxRetries selectedModel [] "Hello"
              fresh1 network_down [] initial_session) as (T & A & _).
  - reflexivity.
  - reflexivity.
  - reflexivity.
  - split; [exact A|exact T].
Defined.

Lemma failed_run_witness :
  unused []
    [(fresh1, network_down); (fresh2, network_down); (fresh3, network_down);
     (fresh4, network_down)] = true
  /\ labels
       (messages
          (submit [] "Hello"
             [(fresh1, network_down); (fresh2, network_down); (fresh3, network_down);
              (fresh4, network_down)] initial_session))
     = [("user-1000-a1", None); ("msg-1000-c1", None);
        ("user-2000-a2", None); ("msg-2000-c2", None);
        ("user-4000-a3", None); ("msg-4000-c3", None);
        ("user-7000-a4", None); ("msg-7000-c4", None)].
Proof.
  split; [reflexivity|].
  pose proof (failed_run_keeps_every_message JSON.parse maxRetries selectedModel [] "Hello"
                [(fresh1, network_down); (fresh2, network_down); (fresh3, network_down);
                 (fresh4, network_down)] initial_session) as L.
  apply L.
  - reflexivity.
  - reflexivity.
  - discriminate.
  - reflexivity.
Defined.

Lemma server_stream_witness :
  concat_strings hi_chunks = hi_text
  /\ messages
       (fst (sendMessage [] "Hello" fresh1 (Responded true 200 hi_chunks Done)
               initial_session))
     = [userMessage "Hello" fresh1; answered (JStr "Hi") fresh1]
  /\ status
       (fst (sendMessage [] "Hello" fresh1 (Responded true 200 hi_chunks Done)
               initial_session)) = READY.
Proof.
  split; [vm_compute; reflexivity|].
  destruct (server_stream_reaches_client JSON.parse JSON.stringify maxRetries
              selectedModel 17 200 hi_stream hi_chunks [] "Hello" fresh1 initial_session)
    as (M & _ & S & _).
  - reflexivity.
  - repeat (first [apply Forall_nil
                  | apply Forall_cons; [split; vm_compute; reflexivity|]]).
  - vm_compute. reflexivity.
  - vm_compute. reflexivity.
  - vm_compute. reflexivity.
  - reflexivity.
  - split; [exact M|exact S].
Defined.

(** A full history: the save drops the oldest session, and the deletion
    of the new one leaves nine. *)
Lemma save_then_delete_witness :
  List.length full_history = 10
  /\ History.deleteFromHistory "msg-9000-s1"
       ({| History.session_id := "msg-9000-s1"; History.session_timestamp := 9000;
           History.session_messages := [userMessage "Hello" fresh1];
           History.title := "Hello" |} :: firstn 9 full_history)
     = firstn 9 full_history
  /\ History.deleteFromHistory "msg-9000-s1"
       ({| History.session_id := "msg-9000-s1"; History.session_timestamp := 9000;
           History.session_messages := [userMessage "Hello" fresh1];
           History.title := "Hello" |} :: firstn 9 full_history)
     <> full_history.
Proof.
  split; [reflexivity|].
  destruct (save_then_delete_is_no_undo [userMessage "Hello" fresh1] "msg-9000-s1" 9000
              full_history
              ({| History.session_id := "msg-9000-s1"; History.session_timestamp := 9000;
                  History.session_messages := [userMessage "Hello" fresh1];
                  History.title := "Hello" |} :: firstn 9 full_history))
    as (E & _ & N).
  - reflexivity.
  - split.
    + etransitivity; [exact E|]. reflexivity.
    + apply N. apply Nat.le_refl.
Defined.

Lemma storage_round_trip_witness :
  JSON.parse (JSON.stringify preferences) = Some preferences
  /\ Storage.get JSON.parse "prefs" JNull
       (Storage.set JSON.stringify "prefs" preferences true [("prefs", "{}")])
     = preferences.
Proof.
  split; [vm_compute; reflexivity|].
  destruct (storage_round_trip JSON.parse JSON.stringify "prefs" preferences JNull
              [("prefs", "{}")]) as (G & _).
  - vm_compute. reflexivity.
  - vm_compute. discriminate.
  - exact G.
Defined.

Lemma view_shows_streamed_text_witness :
  View.extractMessageText
    (last (messages (updateAssistantMessage "msg-1000-b1" (JStr "Hi")
                       (in_flight [] "Hello" fresh1 [] initial_session)))
       no_message) = "Hi".
Proof.
  destruct (view_shows_streamed_text "msg-1000-b1" "Hi"
              (in_flight [] "Hello" fresh1 [] initial_session)
              "Hello" None 0 "user-1") as (V & _).
  - reflexivity.
  - exact V.
Defined.

Lemma provider_failure_witness :
  messages
    (fst (sendMessage [] "Hello" fresh1 (Responded true 200 failing_frames Done)
            initial_session))
  = [userMessage "Hello" fresh1; answered (JStr "H") fresh1]
  /\ snd (sendMessage [] "Hello" fresh1 (Responded true 200 failing_frames Done)
            initial_session) = None
  /\ lastError
       (fst (sendMessage [] "Hello" fresh1 (Responded true 200 failing_frames Done)
               initial_session)) = None.
Proof.
  destruct (provider_failure_ends_as_success JSON.parse JSON.stringify maxRetries
              selectedModel 17 200 failing_stream "Error: rate limit exceeded"
              failing_frames [] "Hello" fresh1 initial_session)
    as (M & T & _ & _ & L).
  - reflexivity.
  - repeat (first [apply Forall_nil
                  | apply Forall_cons; [split; vm_compute; reflexivity|]]).
  - vm_compute. reflexivity.
  - reflexivity.
  - reflexivity.
  - split; [exact M|]. split; [exact T|exact L].
Defined.

End FurtherRuns.
